(** * Answer reconciliation, voting, formatting and retrieval of ethos_finals

    A shallow embedding of the decision logic of the two pipelines of the
    repository (the math solver and the multi-hop QA system), followed by
    the properties established about it.

    Python values are embedded as follows.
    - [str] is [string]; a character is a code point below 256, and
      [str.lower], [str.strip] and the regular-expression class [\s] are
      the Unicode ones restricted to that range.
    - [float] is the kernel's binary64 type [float]; decimal literals of
      the source are written in hexadecimal so that the value is exact.
    - [int] is [Z].
    - a [dict] is a [gmap]; a raised exception is the [Raise] branch of
      [result]. *)

From Stdlib Require Import ZArith NArith List String Ascii Bool Lia.
From Stdlib Require Import DecimalString.
From Stdlib Require Import PrimFloat SpecFloat FloatOps FloatAxioms.
From stdpp Require Import gmap strings.

Local Open Scope string_scope.
Local Open Scope Z_scope.

(** ** Exceptions and fallible computations *)

Inductive exn : Set :=
| ValueError
| TypeError
| OverflowError
| KeyError
| IndexError
| AssertionError
| FileNotFoundError
| ZeroDivisionError
| UnpicklingError
| EOFError
| OSError
| RuntimeError.

Inductive result (A : Type) : Type :=
| Ok (a : A)
| Raise (e : exn).

Arguments Ok {A} a.
Arguments Raise {A} e.

Definition bind {A B : Type} (r : result A) (k : A -> result B) : result B :=
  match r with
  | Ok a => k a
  | Raise e => Raise e
  end.

Notation "'let*' x ':=' r 'in' k" := (bind r (fun x => k))
  (at level 10, x name, r at level 100, k at level 200).

(** ** Python strings *)

Module PyStr.

Definition code (c : ascii) : N := N_of_ascii c.

Definition in_range (lo hi : N) (c : ascii) : bool :=
  ((lo <=? code c) && (code c <=? hi))%N.

(** [str.isspace] on one character, which is also the class [\s]. *)
Definition isspace (c : ascii) : bool :=
  in_range 9 13 c || in_range 28 32 c || (code c =? 133)%N || (code c =? 160)%N.

Definition isdigit (c : ascii) : bool := in_range 48 57 c.

Definition lower_char (c : ascii) : ascii :=
  if in_range 65 90 c || (in_range 192 222 c && negb (code c =? 215)%N)
  then ascii_of_N (code c + 32)
  else c.

Fixpoint lower (s : string) : string :=
  match s with
  | EmptyString => EmptyString
  | String c s' => String (lower_char c) (lower s')
  end.

Fixpoint lstrip (s : string) : string :=
  match s with
  | EmptyString => EmptyString
  | String c s' => if isspace c then lstrip s' else s
  end.

Fixpoint rstrip (s : string) : string :=
  match s with
  | EmptyString => EmptyString
  | String c s' =>
      match rstrip s' with
      | EmptyString => if isspace c then EmptyString else String c EmptyString
      | r => String c r
      end
  end.

Definition strip (s : string) : string := rstrip (lstrip s).

Fixpoint startswith (p s : string) : bool :=
  match p, s with
  | EmptyString, _ => true
  | String a p', String b s' => Ascii.eqb a b && startswith p' s'
  | String _ _, EmptyString => false
  end.

(** [sub in s]. *)
Fixpoint contains (sub s : string) : bool :=
  startswith sub s ||
  match s with
  | EmptyString => false
  | String _ s' => contains sub s'
  end.

Fixpoint filter_chars (keep : ascii -> bool) (s : string) : string :=
  match s with
  | EmptyString => EmptyString
  | String c s' =>
      if keep c then String c (filter_chars keep s') else filter_chars keep s'
  end.

(** [s.replace(c, '')] for a one-character [c]. *)
Definition remove_char (c : ascii) (s : string) : string :=
  filter_chars (fun x => negb (Ascii.eqb x c)) s.

(** [re.sub(r'\s+', '', s)]. *)
Definition remove_spaces (s : string) : string :=
  filter_chars (fun x => negb (isspace x)) s.

(** [s.replace(old, '')] for a non-empty [old]: occurrences are found
    from the left and do not overlap.  [skip] counts the characters of
    the current occurrence that are still to be dropped. *)
Fixpoint remove_all_from (old : string) (skip : nat) (s : string) : string :=
  match s with
  | EmptyString => EmptyString
  | String c s' =>
      match skip with
      | S k => remove_all_from old k s'
      | O =>
          if startswith old s
          then remove_all_from old (Nat.pred (String.length old)) s'
          else String c (remove_all_from old O s')
      end
  end.

Definition remove_all (old s : string) : string :=
  match old with
  | EmptyString => s
  | _ => remove_all_from old O s
  end.

(** [re.sub(r'####\s*', '', s)].  [skip] counts the remaining characters
    of a matched [####]; [ws] tells that the blanks after it are being
    consumed. *)
Fixpoint sub_hashes_from (skip : nat) (ws : bool) (s : string) : string :=
  match s with
  | EmptyString => EmptyString
  | String c s' =>
      match skip with
      | S k => sub_hashes_from k ws s'
      | O =>
          if ws && isspace c then sub_hashes_from O true s'
          else if startswith "####" s then sub_hashes_from 3 true s'
          else String c (sub_hashes_from O false s')
      end
  end.

Definition sub_hashes (s : string) : string := sub_hashes_from O false s.

(** [str(z)] for an [int]. *)
Definition of_Z (z : Z) : string := NilZero.string_of_int (Z.to_int z).

Definition is_empty (s : string) : bool :=
  match s with
  | EmptyString => true
  | String _ _ => false
  end.

End PyStr.

(** ** Python floats

    The conversions between decimal text and binary64 that the pipelines
    rely on: [float(s)], [int(x)], [str(x)] and the format [.2f].  All of
    them are correctly rounded in CPython, so they are computed here with
    exact integer arithmetic on the value [m * 2^e] of a float. *)

Module PyFloat.

(** The literals of the source. *)
Definition f0_0 : float := 0x0p+0%float.
Definition f0_6 : float := 0x1.3333333333333p-1%float.
Definition f0_65 : float := 0x1.4cccccccccccdp-1%float.
Definition f0_7 : float := 0x1.6666666666666p-1%float.
Definition f0_75 : float := 0x1.8p-1%float.
Definition f1_0 : float := 0x1p+0%float.

(** The binary64 nearest to [n / d] (ties to even), for [0 <= n] and
    [0 < d], with the sign [neg]; an overflow gives an infinity. *)
Definition round_ratio_sf (neg : bool) (n d : Z) : spec_float :=
  if n =? 0 then S754_zero neg
  else
    let scaled (e : Z) : Z * Z :=
      if 0 <=? e then (n, d * 2 ^ e) else (n * 2 ^ (- e), d) in
    let e0 := Z.log2 n - Z.log2 d - 52 in
    let e1 := if fst (scaled e0) <? snd (scaled e0) * 2 ^ 52 then e0 - 1 else e0 in
    let e := Z.max e1 (-1074) in
    let a := fst (scaled e) in
    let b := snd (scaled e) in
    let q := a / b in
    let r := a mod b in
    let m :=
      if b <? 2 * r then q + 1
      else if b =? 2 * r then (if Z.even q then q else q + 1)
      else q in
    if m =? 0 then S754_zero neg
    else if (0 <=? e) && (2 ^ 1024 <=? m * 2 ^ e) then S754_infinity neg
    else S754_finite neg (Z.to_pos m) e.

Definition round_ratio (neg : bool) (n d : Z) : float :=
  SF2Prim (round_ratio_sf neg n d).

Definition finite_or_overflow (x : spec_float) : result float :=
  match x with
  | S754_infinity _ => Raise OverflowError
  | _ => Ok (SF2Prim x)
  end.

(** [float(z)] for an [int]. *)
Definition of_int (z : Z) : result float :=
  finite_or_overflow (round_ratio_sf (z <? 0) (Z.abs z) 1).

(** [a / b] on two [int]s. *)
Definition true_div (a b : Z) : result float :=
  if b =? 0 then Raise ZeroDivisionError
  else
    finite_or_overflow
      (round_ratio_sf (xorb (a <? 0) (b <? 0)) (Z.abs a) (Z.abs b)).

(** [int(x)]: truncation towards zero. *)
Definition to_int (f : float) : result Z :=
  match Prim2SF f with
  | S754_nan => Raise ValueError
  | S754_infinity _ => Raise OverflowError
  | S754_zero _ => Ok 0
  | S754_finite s m e =>
      let a := if 0 <=? e then Zpos m * 2 ^ e else Zpos m / 2 ^ (- e) in
      Ok (if s then - a else a)
  end.

(** [x.is_integer()]. *)
Definition is_integer (f : float) : bool :=
  match Prim2SF f with
  | S754_nan | S754_infinity _ => false
  | S754_zero _ => true
  | S754_finite _ m e => (0 <=? e) || (Zpos m mod 2 ^ (- e) =? 0)
  end.

(** *** Reading a float: [float(s)] *)

Definition digit_val (c : ascii) : Z := Z.of_N (PyStr.code c) - 48.

Fixpoint Z_of_digits (acc : Z) (s : string) : Z :=
  match s with
  | EmptyString => acc
  | String c s' => Z_of_digits (10 * acc + digit_val c) s'
  end.

(** The longest prefix of digits, and what follows it. *)
Fixpoint span_digits (s : string) : string * string :=
  match s with
  | EmptyString => (EmptyString, EmptyString)
  | String c s' =>
      if PyStr.isdigit c
      then let '(ds, rest) := span_digits s' in (String c ds, rest)
      else (EmptyString, s)
  end.

(** An optional sign: whether it is a minus, and what follows it. *)
Definition span_sign (s : string) : bool * string :=
  match s with
  | String "-" s' => (true, s')
  | String "+" s' => (false, s')
  | _ => (false, s)
  end.

(** Non-ASCII blanks become spaces and any other non-ASCII character
    becomes a character that no number contains. *)
Definition to_ascii_char (c : ascii) : ascii :=
  if (PyStr.code c <? 128)%N then c
  else if PyStr.isspace c then " "%char
  else "?"%char.

Fixpoint to_ascii (s : string) : string :=
  match s with
  | EmptyString => EmptyString
  | String c s' => String (to_ascii_char c) (to_ascii s')
  end.

(** Underscores are accepted between two digits only, and dropped.
    [prev] is the previous character. *)
Fixpoint drop_underscores (prev : ascii) (s : string) : option string :=
  match s with
  | EmptyString =>
      if Ascii.eqb prev "_" then None else Some EmptyString
  | String c s' =>
      if Ascii.eqb c "_" then
        if PyStr.isdigit prev then drop_underscores c s' else None
      else if Ascii.eqb prev "_" && negb (PyStr.isdigit c) then None
      else String c <$> drop_underscores c s'
  end.

Definition c_isspace (c : ascii) : bool :=
  PyStr.in_range 9 13 c || (PyStr.code c =? 32)%N.

Fixpoint c_lstrip (s : string) : string :=
  match s with
  | EmptyString => EmptyString
  | String c s' => if c_isspace c then c_lstrip s' else s
  end.

Fixpoint c_rstrip (s : string) : string :=
  match s with
  | EmptyString => EmptyString
  | String c s' =>
      match c_rstrip s' with
      | EmptyString => if c_isspace c then EmptyString else String c EmptyString
      | r => String c r
      end
  end.

(** [inf], [infinity] and [nan], in any case. *)
Definition parse_inf_nan (neg : bool) (s : string) : option float :=
  let l := PyStr.lower s in
  if String.eqb l "inf" || String.eqb l "infinity"
  then Some (if neg then neg_infinity else infinity)
  else if String.eqb l "nan" then Some nan
  else None.

(** The exponent part: its value and what follows it.  When no digit
    follows the [e], nothing is consumed. *)
Definition span_exponent (s : string) : Z * string :=
  match s with
  | String c s' =>
      if Ascii.eqb c "e" || Ascii.eqb c "E" then
        let '(eneg, s1) := span_sign s' in
        let '(ds, s2) := span_digits s1 in
        if PyStr.is_empty ds then (0, s)
        else ((if eneg then - Z_of_digits 0 ds else Z_of_digits 0 ds), s2)
      else (0, s)
  | EmptyString => (0, s)
  end.

Definition parse_decimal (neg : bool) (s : string) : option float :=
  let '(ip, s1) := span_digits s in
  let '(fp, s2) :=
    match s1 with
    | String "." s1' => span_digits s1'
    | _ => (EmptyString, s1)
    end in
  if PyStr.is_empty ip && PyStr.is_empty fp then None
  else
    let '(ex, s3) := span_exponent s2 in
    if negb (PyStr.is_empty s3) then None
    else
      let m := Z_of_digits 0 (ip ++ fp) in
      let e := ex - Z.of_nat (String.length fp) in
      Some (if 0 <=? e then round_ratio neg (m * 10 ^ e) 1
            else round_ratio neg m (10 ^ (- e))).

(** [float(s)]; [None] stands for the [ValueError] of CPython. *)
Definition of_string (s : string) : option float :=
  s1 ← (if PyStr.contains "_" s then drop_underscores "000" (to_ascii s)
        else Some (to_ascii s));
  let '(neg, body) := span_sign (c_rstrip (c_lstrip s1)) in
  match parse_inf_nan neg body with
  | Some f => Some f
  | None => parse_decimal neg body
  end.

(** *** Writing a float: the format [.2f] *)

(** The value of a finite non-zero float as a fraction. *)
Definition ratio_of (m : positive) (e : Z) : Z * Z :=
  if 0 <=? e then (Zpos m * 2 ^ e, 1) else (Zpos m, 2 ^ (- e)).

(** The integer nearest to [a / b], ties to even. *)
Definition div_half_even (a b : Z) : Z :=
  let q := a / b in
  let r := a mod b in
  if b <? 2 * r then q + 1
  else if b =? 2 * r then (if Z.even q then q else q + 1)
  else q.

Definition pad2 (z : Z) : string :=
  if z <? 10 then "0" ++ PyStr.of_Z z else PyStr.of_Z z.

Definition sign_str (neg : bool) : string := if neg then "-" else "".

Definition format_2f (f : float) : string :=
  match Prim2SF f with
  | S754_nan => "nan"
  | S754_infinity s => sign_str s ++ "inf"
  | S754_zero s => sign_str s ++ "0.00"
  | S754_finite s m e =>
      let '(n, d) := ratio_of m e in
      let h := div_half_even (100 * n) d in
      sign_str s ++ PyStr.of_Z (h / 100) ++ "." ++ pad2 (h mod 100)
  end.

(** *** Writing a float: [str(x)], the shortest text that reads back *)

Definition ndigits (z : Z) : Z := Z.of_nat (String.length (PyStr.of_Z z)).

(** [n / d < 10^j]. *)
Definition below_pow10 (n d j : Z) : bool :=
  if 0 <=? j then n <? d * 10 ^ j else n * 10 ^ (- j) <? d.

(** The [k] with [10^(k-1) <= n / d < 10^k]. *)
Definition decimal_point (n d : Z) : Z :=
  let k := ndigits n - ndigits d in
  if below_pow10 n d k then k else k + 1.

(** Whether the decimal [c * 10^j] reads back as the float [x]. *)
Definition reads_back (x : float) (c j : Z) : bool :=
  PrimFloat.eqb x
    (if 0 <=? j then round_ratio false (c * 10 ^ j) 1
     else round_ratio false c (10 ^ (- j))).

(** The digits, as an integer [c] to be scaled by [10^(k-p)], of the
    nearest decimal of at most [p] digits that reads back as [x = n/d],
    looking for the least such [p]. *)
Fixpoint shortest_digits (fuel : nat) (x : float) (n d k p : Z) : Z * Z :=
  let j := k - p in
  let a := if 0 <=? j then n else n * 10 ^ (- j) in
  let b := if 0 <=? j then d * 10 ^ j else d in
  let lo := a / b in
  let r := a mod b in
  let near := div_half_even a b in
  match fuel with
  | O => (near, j)
  | S fuel' =>
      if r =? 0 then (lo, j)
      else
        let lo_ok := (0 <? lo) && reads_back x lo j in
        let hi_ok := reads_back x (lo + 1) j in
        if lo_ok && hi_ok then (near, j)
        else if lo_ok then (lo, j)
        else if hi_ok then (lo + 1, j)
        else shortest_digits fuel' x n d k (p + 1)
  end.

Fixpoint rstrip_zeros (s : string) : string :=
  match s with
  | EmptyString => EmptyString
  | String c s' =>
      match rstrip_zeros s' with
      | EmptyString => if Ascii.eqb c "0" then EmptyString else String c EmptyString
      | r => String c r
      end
  end.

Fixpoint zeros (n : nat) : string :=
  match n with
  | O => EmptyString
  | S n' => String "0" (zeros n')
  end.

Fixpoint take (n : nat) (s : string) : string :=
  match n, s with
  | S n', String c s' => String c (take n' s')
  | _, _ => EmptyString
  end.

Fixpoint drop (n : nat) (s : string) : string :=
  match n, s with
  | S n', String _ s' => drop n' s'
  | _, _ => s
  end.

(** The text of the digits [ds] with the decimal point after the first
    [decpt] of them, in the manner of [repr]. *)
Definition layout (ds : string) (decpt : Z) : string :=
  let nd := Z.of_nat (String.length ds) in
  if (decpt <=? -4) || (16 <? decpt) then
    let ex := decpt - 1 in
    take 1 ds ++ (if 1 <? nd then "." ++ drop 1 ds else "")
    ++ "e" ++ (if ex <? 0 then "-" else "+") ++ pad2 (Z.abs ex)
  else if decpt <=? 0 then "0." ++ zeros (Z.to_nat (- decpt)) ++ ds
  else if nd <=? decpt then ds ++ zeros (Z.to_nat (decpt - nd)) ++ ".0"
  else take (Z.to_nat decpt) ds ++ "." ++ drop (Z.to_nat decpt) ds.

Definition to_string (f : float) : string :=
  match Prim2SF f with
  | S754_nan => "nan"
  | S754_infinity s => sign_str s ++ "inf"
  | S754_zero s => sign_str s ++ "0.0"
  | S754_finite s m e =>
      let '(n, d) := ratio_of m e in
      let k := decimal_point n d in
      let '(c, j) := shortest_digits 17 (abs f) n d k 1 in
      sign_str s ++ layout (rstrip_zeros (PyStr.of_Z c)) (ndigits c + j)
  end.

End PyFloat.

(** ** Python values *)

Module Py.

(** The scalars that the solvers put into their result dictionaries. *)
Inductive value : Set :=
| VNone
| VBool (b : bool)
| VInt (z : Z)
| VFloat (f : float)
| VStr (s : string).

(** [str(v)]. *)
Definition str (v : value) : string :=
  match v with
  | VNone => "None"
  | VBool true => "True"
  | VBool false => "False"
  | VInt z => PyStr.of_Z z
  | VFloat f => PyFloat.to_string f
  | VStr s => s
  end.

(** The truth value of [v], as [if v] tests it. *)
Definition truthy (v : value) : bool :=
  match v with
  | VNone => false
  | VBool b => b
  | VInt z => negb (z =? 0)
  | VFloat f => negb (PrimFloat.eqb f PyFloat.f0_0)
  | VStr s => negb (PyStr.is_empty s)
  end.

Definition is_none (v : value) : bool :=
  match v with
  | VNone => true
  | _ => false
  end.

(** How an [int] compares with a [float]: exactly, and not at all with a
    NaN. *)
Definition compare_int_float (z : Z) (f : float) : option comparison :=
  match Prim2SF f with
  | S754_nan => None
  | S754_infinity s => Some (if s then Gt else Lt)
  | S754_zero _ => Some (z ?= 0)
  | S754_finite s m e =>
      let v := if s then Zneg m else Zpos m in
      Some (if 0 <=? e then z ?= v * 2 ^ e else z * 2 ^ (- e) ?= v)
  end.

(** A number as Python compares it: [bool] is an [int]. *)
Definition number (v : value) : option (Z + float) :=
  match v with
  | VBool b => Some (inl (Z.b2z b))
  | VInt z => Some (inl z)
  | VFloat f => Some (inr f)
  | VNone | VStr _ => None
  end.


Definition is_gt (c : option comparison) : bool :=
  match c with
  | Some Gt => true
  | _ => false
  end.

Definition is_lt (c : option comparison) : bool :=
  match c with
  | Some Lt => true
  | _ => false
  end.

(** [a > b]; values without an order between them raise [TypeError]. *)
Definition gt (a b : value) : result bool :=
  match a, b with
  | VStr x, VStr y => Ok (is_gt (Some (String.compare x y)))
  | _, _ =>
      match number a, number b with
      | Some (inl x), Some (inl y) => Ok (y <? x)
      | Some (inr x), Some (inr y) => Ok (PrimFloat.ltb y x)
      | Some (inl x), Some (inr y) => Ok (is_gt (compare_int_float x y))
      | Some (inr x), Some (inl y) => Ok (is_lt (compare_int_float y x))
      | _, _ => Raise TypeError
      end
  end.

(** [a >= b]. *)
Definition ge (a b : value) : result bool :=
  match a, b with
  | VStr x, VStr y => Ok (negb (is_lt (Some (String.compare x y))))
  | _, _ =>
      match number a, number b with
      | Some (inl x), Some (inl y) => Ok (y <=? x)
      | Some (inr x), Some (inr y) => Ok (PrimFloat.leb y x)
      | Some (inl x), Some (inr y) =>
          Ok (match compare_int_float x y with
              | Some Gt | Some Eq => true
              | _ => false
              end)
      | Some (inr x), Some (inl y) =>
          Ok (match compare_int_float y x with
              | Some Lt | Some Eq => true
              | _ => false
              end)
      | _, _ => Raise TypeError
      end
  end.

(** [max(a, b)]: the second argument replaces the first only when it is
    greater. *)
Definition max2 (a b : value) : result value :=
  let* g := gt b a in Ok (if g then b else a).

(** [d.get(key, default)]. *)
Definition get (d : gmap string value) (key : string) (dflt : value) : value :=
  default dflt (d !! key).

End Py.

(** ** Python lists *)

Module PyList.

(** [len(l)]. *)
Definition len {A : Type} (l : list A) : Z := Z.of_nat (length l).

(** [l[i]]: a negative index counts from the end. *)
Definition getitem {A : Type} (l : list A) (i : Z) : result A :=
  let j := if i <? 0 then len l + i else i in
  if (j <? 0) || (len l <=? j) then Raise IndexError
  else
    match l !! Z.to_nat j with
    | Some x => Ok x
    | None => Raise IndexError
    end.

End PyList.

(** ** The verifier of the math solver: [src/verifier.py] *)

Module Verifier.

Import Py.

Record Verifier : Set := { prefer_pal : bool }.

(** [Verifier()]: the flag defaults to [True]. *)
Definition default_verifier : Verifier := {| prefer_pal := true |}.

(** The dictionary that [verify] returns. *)
Record Reconciliation : Set := {
  final_answer : string;
  method : string;
  confidence : value
}.

Definition complexity_indicators : list string :=
  [ "every"; "each"; "doubles"; "triples";
    "weekend"; "weekday"; "except";
    "both"; "either"; "between";
    "saturday"; "sunday"; "monday";
    "morning"; "evening"; "afternoon" ].

Definition _is_complex_word_problem (question : string) : bool :=
  let q_lower := PyStr.lower question in
  let matches :=
    length (List.filter (fun indicator => PyStr.contains indicator q_lower)
              complexity_indicators) in
  (2 <=? Z.of_nat matches).

Definition _normalize_answer (answer : value) : string :=
  let s := PyStr.lower (PyStr.strip (str answer)) in
  let s := PyStr.remove_char "%" (PyStr.remove_char "$" (PyStr.remove_char "," s)) in
  PyStr.remove_spaces s.

Definition arithmetic_indicators : list string :=
  [ "calculate"; "compute"; "how many"; "how much";
    "total"; "sum"; "difference"; "product"; "quotient";
    "+"; "-"; "*"; "/"; "divide"; "multiply";
    "cost"; "price"; "earn"; "spend"; "pay" ].

Definition _is_arithmetic_question (question : string) : bool :=
  let q_lower := PyStr.lower question in
  existsb (fun indicator => PyStr.contains indicator q_lower) arithmetic_indicators.

Definition verify (self : Verifier) (pal_result cot_result : gmap string value)
    (question : string) : result Reconciliation :=
  let pal_success := get pal_result "success" (VBool false) in
  let cot_success := negb (is_none (get cot_result "result" VNone)) in
  let pal_answer := get pal_result "result" VNone in
  let cot_answer := get cot_result "result" VNone in
  let cot_confidence := get cot_result "confidence" (VFloat PyFloat.f0_0) in
  if truthy pal_success && cot_success then
    let pal_norm := _normalize_answer pal_answer in
    let cot_norm := _normalize_answer cot_answer in
    if String.eqb pal_norm cot_norm then
      Ok {| final_answer := str pal_answer;
            method := "both_agree";
            confidence := VFloat PyFloat.f1_0 |}
    else
      let is_arithmetic := _is_arithmetic_question question in
      let is_complex_word_problem := _is_complex_word_problem question in
      let* trust_cot :=
        (if is_complex_word_problem
         then ge cot_confidence (VFloat PyFloat.f0_65)
         else Ok false) in
      if trust_cot then
        Ok {| final_answer := str cot_answer;
              method := "cot_complex_problem";
              confidence := cot_confidence |}
      else if is_arithmetic && negb is_complex_word_problem && prefer_pal self then
        Ok {| final_answer := str pal_answer;
              method := "pal_simple_arithmetic";
              confidence := VFloat PyFloat.f0_75 |}
      else
        let* high := ge cot_confidence (VFloat PyFloat.f0_7) in
        if high then
          Ok {| final_answer := str cot_answer;
                method := "cot_high_confidence";
                confidence := cot_confidence |}
        else
          let* medium := ge cot_confidence (VFloat PyFloat.f0_6) in
          if medium then
            Ok {| final_answer := str cot_answer;
                  method := "cot_medium_confidence";
                  confidence := cot_confidence |}
          else
            Ok {| final_answer := str pal_answer;
                  method := "pal_default";
                  confidence := VFloat PyFloat.f0_65 |}
  else if truthy pal_success then
    Ok {| final_answer := str pal_answer;
          method := "pal_only";
          confidence := VFloat PyFloat.f0_7 |}
  else if cot_success then
    let* c := max2 (VFloat PyFloat.f0_6) cot_confidence in
    Ok {| final_answer := str cot_answer;
          method := "cot_only";
          confidence := c |}
  else
    Ok {| final_answer := "0";
          method := "fallback";
          confidence := VFloat PyFloat.f0_0 |}.

End Verifier.

(** ** Self-consistency voting: [src/self_consistency.py] *)

Module SelfConsistency.

(** [collections.Counter]: a dictionary of counts that keeps its keys in
    the order of their first insertion. *)
Fixpoint counter_add (k : string) (c : list (string * Z)) : list (string * Z) :=
  match c with
  | [] => [(k, 1)]
  | (k', n) :: c' =>
      if String.eqb k' k then (k', n + 1) :: c' else (k', n) :: counter_add k c'
  end.

Definition Counter (l : list string) : list (string * Z) :=
  fold_left (fun c k => counter_add k c) l [].

(** [most_common(1)] takes [max] over the items by count, which keeps
    the first of the items of greatest count. *)
Fixpoint max_by_count (best : string * Z) (c : list (string * Z)) : string * Z :=
  match c with
  | [] => best
  | x :: c' => max_by_count (if snd best <? snd x then x else best) c'
  end.

Definition most_common_1 (c : list (string * Z)) : list (string * Z) :=
  match c with
  | [] => []
  | x :: c' => [max_by_count x c']
  end.

(** [l[0]]. *)
Definition first {A : Type} (l : list A) : result A :=
  match l with
  | [] => Raise IndexError
  | x :: _ => Ok x
  end.

Definition normalize (a : string) : string := PyStr.lower (PyStr.strip a).

Definition is_nil {A : Type} (l : list A) : bool :=
  match l with
  | [] => true
  | _ :: _ => false
  end.

Definition vote_answers (answers : list string) : result (option string * float) :=
  if is_nil answers then Ok (None, PyFloat.f0_0)
  else
    let normalized :=
      map normalize (List.filter (fun a => negb (PyStr.is_empty a)) answers) in
    if is_nil normalized then Ok (None, PyFloat.f0_0)
    else
      let counts := Counter normalized in
      let* top := first (most_common_1 counts) in
      let majority_answer := fst top in
      let count := snd top in
      let* confidence :=
        PyFloat.true_div count (Z.of_nat (length normalized)) in
      match List.find (fun orig => String.eqb (normalize orig) majority_answer) answers with
      | Some orig => Ok (Some (PyStr.strip orig), confidence)
      | None => Ok (Some majority_answer, confidence)
      end.

End SelfConsistency.

(** ** Answer formatting: [src/normalizer.py] *)

Module Normalizer.

(** The number read from the answer: an [int] or a [float]. *)
Inductive num : Set :=
| NInt (z : Z)
| NFloat (f : float).

(** [float(s)], with its [ValueError]. *)
Definition float_of (s : string) : result float :=
  match PyFloat.of_string s with
  | Some f => Ok f
  | None => Raise ValueError
  end.

(** [int(num)]. *)
Definition int_of (n : num) : result Z :=
  match n with
  | NInt z => Ok z
  | NFloat f => PyFloat.to_int f
  end.

(** The format [.2f] of a number; an [int] is converted to a [float]
    first. *)
Definition format_2f (n : num) : result string :=
  match n with
  | NInt z => let* f := PyFloat.of_int z in Ok (PyFloat.format_2f f)
  | NFloat f => Ok (PyFloat.format_2f f)
  end.

(** [str(num)]. *)
Definition str_num (n : num) : string :=
  match n with
  | NInt z => PyStr.of_Z z
  | NFloat f => PyFloat.to_string f
  end.

Definition is_whole_float (n : num) : bool :=
  match n with
  | NInt _ => false
  | NFloat f => PyFloat.is_integer f
  end.

(** The removal of the markdown artifacts (lines 19 to 24). *)
Definition clean (answer : string) : string :=
  let answer := PyStr.strip answer in
  let answer := PyStr.sub_hashes answer in
  let answer :=
    PyStr.filter_chars
      (fun c => negb (Ascii.eqb c "*" || Ascii.eqb c "`" ||
                      Ascii.eqb c "[" || Ascii.eqb c "]")) answer in
  PyStr.remove_all ">>" (PyStr.remove_all "<<" answer).

Definition num_str_of (cleaned : string) : string :=
  PyStr.strip (PyStr.remove_char "," (PyStr.remove_char "$" cleaned)).

(** Lines 32 to 35. *)
Definition parse_number (num_str : string) : result num :=
  if PyStr.contains "." num_str || PyStr.contains "e" (PyStr.lower num_str)
  then let* f := float_of num_str in Ok (NFloat f)
  else let* f := float_of num_str in let* z := PyFloat.to_int f in Ok (NInt z).

Definition is_currency_question (question : string) : bool :=
  let question_lower := PyStr.lower question in
  PyStr.contains "$" question || PyStr.contains "dollar" question_lower ||
  PyStr.contains "cost" question_lower || PyStr.contains "price" question_lower.

(** Lines 38 to 46. *)
Definition format_number (n : num) (question : string) : result string :=
  let question_lower := PyStr.lower question in
  if PyStr.contains "how many" question_lower then
    let* z := int_of n in Ok (PyStr.of_Z z)
  else if is_currency_question question then format_2f n
  else if is_whole_float n then
    let* z := int_of n in Ok (PyStr.of_Z z)
  else Ok (str_num n).

(** [try: body except (ValueError, TypeError): handler]. *)
Definition try_except_value_type {A : Type} (body : result A) (handler : result A)
  : result A :=
  match body with
  | Raise ValueError | Raise TypeError => handler
  | r => r
  end.

Definition normalize_answer (answer question : string) : result string :=
  let answer := clean answer in
  try_except_value_type
    (let* n := parse_number (num_str_of answer) in format_number n question)
    (Ok (PyStr.strip answer)).

End Normalizer.

(** ** Reasoning patterns of the QA system: [utils/pattern_extractor.py] *)

Module PatternExtractor.

Import PyList.

Record HopInfo : Set := {
  document_title : string;
  sentence_id : Z;
  sentence_text : string;
  entities_extracted : list string;
  role : string
}.

Record ReasoningPattern : Set := {
  question_id : string;
  question : string;
  question_type : string;
  level : string;
  num_hops : Z;
  hops : list HopInfo;
  bridge_entity : option string;
  comparison_dimension : option string;
  answer : string
}.

Definition isupper_char (c : ascii) : bool :=
  PyStr.in_range 65 90 c ||
  (PyStr.in_range 192 222 c && negb (PyStr.code c =? 215)%N).

(** [text.split()]; [cur] is the word being read. *)
Fixpoint split_from (cur : string) (s : string) : list string :=
  match s with
  | EmptyString => if PyStr.is_empty cur then [] else [cur]
  | String c s' =>
      if PyStr.isspace c then
        (if PyStr.is_empty cur then split_from "" s' else cur :: split_from "" s')
      else split_from (cur ++ String c "") s'
  end.

Definition split (s : string) : list string := split_from "" s.

Definition dquote : ascii := ascii_of_N 34.

(** [re.findall] for the pattern of a double quote, any characters but
    a double quote, and a double quote: the texts between the quotes.
    [inside] holds the text read since an opening quote. *)
Fixpoint find_quoted (inside : option string) (s : string) : list string :=
  match s with
  | EmptyString => []
  | String c s' =>
      if Ascii.eqb c dquote then
        match inside with
        | None => find_quoted (Some "") s'
        | Some q => q :: find_quoted None s'
        end
      else
        match inside with
        | None => find_quoted None s'
        | Some q => find_quoted (Some (q ++ String c "")) s'
        end
  end.

(** [' '.join(words)]. *)
Fixpoint join_space (words : list string) : string :=
  match words with
  | [] => ""
  | [w] => w
  | w :: ws => w ++ " " ++ join_space ws
  end.

Definition starts_upper (word : string) : bool :=
  match word with
  | EmptyString => false
  | String c _ => isupper_char c
  end.

(** The runs of consecutive capitalised words. *)
Fixpoint entity_runs (current_entity : list string) (words : list string)
  : list string :=
  match words with
  | [] =>
      match current_entity with
      | [] => []
      | _ => [join_space current_entity]
      end
  | word :: ws =>
      if starts_upper word then entity_runs (current_entity ++ [word]) ws
      else
        match current_entity with
        | [] => entity_runs [] ws
        | _ => join_space current_entity :: entity_runs [] ws
        end
  end.

Definition mem (x : string) (l : list string) : bool :=
  existsb (String.eqb x) l.

Definition _determine_hop_role (hop_idx total_hops : Z) (question_type : string)
  : string :=
  if String.eqb question_type "bridge" then
    if hop_idx =? 0 then "starter"
    else if hop_idx =? total_hops - 1 then "final"
    else "bridge"
  else "comparison".

Definition dimensions : list (string * list string) :=
  [ ("date", ["first"; "earlier"; "before"; "founded"; "started"; "established"]);
    ("size", ["larger"; "bigger"; "smaller"; "size"; "area"]);
    ("quantity", ["more"; "less"; "most"; "least"; "number"]);
    ("location", ["where"; "located"; "place"]);
    ("duration", ["longer"; "shorter"; "duration"; "time"]) ].

Definition _find_comparison_dimension (question : string) : option string :=
  let question_lower := PyStr.lower question in
  match List.find (fun dk => existsb (fun kw => PyStr.contains kw question_lower) (snd dk))
          dimensions with
  | Some dk => Some (fst dk)
  | None => Some "unknown"
  end.

Section Extractor.

(** The order in which CPython enumerates the set made from a list.  It
    depends on the hashes of the strings, which change from one run to
    the next, so it is left open. *)
Variable set_order : list string -> list string.

Definition _extract_entities (text : string) : list string :=
  set_order (find_quoted None text ++ entity_runs [] (split text)).

Definition _find_bridge_entity (hops : list HopInfo) : option string :=
  match hops with
  | h0 :: h1 :: _ =>
      let entities_1 := set_order (entities_extracted h0) in
      let entities_2 := set_order (entities_extracted h1) in
      let common := set_order (List.filter (fun e => mem e entities_2) entities_1) in
      match common with
      | e :: _ => Some e
      | [] =>
          List.find
            (fun entity =>
               PyStr.contains (PyStr.lower entity) (PyStr.lower (sentence_text h1)))
            entities_1
      end
  | _ => None
  end.

(** One turn of the loop of [extract_pattern]: the hop of the reference
    of index [idx], if it resolves. *)
Definition hop_of (total_hops : Z) (question_type : string)
    (context : gmap string (list string)) (idx : Z) (fact : string * Z)
  : result (option HopInfo) :=
  let doc_title := fst fact in
  let sent_id := snd fact in
  match context !! doc_title with
  | None => Ok None
  | Some sentences =>
      if sent_id <? len sentences then
        let* sentence_text := getitem sentences sent_id in
        Ok (Some {| document_title := doc_title;
                    sentence_id := sent_id;
                    sentence_text := sentence_text;
                    entities_extracted := _extract_entities sentence_text;
                    role := _determine_hop_role idx total_hops question_type |})
      else Ok None
  end.

Fixpoint collect_hops (total_hops : Z) (question_type : string)
    (context : gmap string (list string)) (idx : Z) (facts : list (string * Z))
  : result (list HopInfo) :=
  match facts with
  | [] => Ok []
  | fact :: facts' =>
      let* h := hop_of total_hops question_type context idx fact in
      let* hs := collect_hops total_hops question_type context (idx + 1) facts' in
      Ok (match h with
          | Some hop => hop :: hs
          | None => hs
          end)
  end.

Definition extract_pattern (question_id question question_type level : string)
    (supporting_facts : list (string * Z)) (context : gmap string (list string))
    (answer : string) : result ReasoningPattern :=
  let* hops :=
    collect_hops (len supporting_facts) question_type context 0 supporting_facts in
  let bridge_entity :=
    if String.eqb question_type "bridge" && (2 <=? len hops)
    then _find_bridge_entity hops else None in
  let comparison_dim :=
    if String.eqb question_type "comparison"
    then _find_comparison_dimension question else None in
  Ok {| question_id := question_id;
        question := question;
        question_type := question_type;
        level := level;
        num_hops := len hops;
        hops := hops;
        bridge_entity := bridge_entity;
        comparison_dimension := comparison_dim;
        answer := answer |}.

End Extractor.

End PatternExtractor.

(** ** The semantic index of the QA system: [indexing/semantic_index.py] *)

Module SemanticIndex.

Import PyList.

(** What the index takes from NumPy and FAISS, which are not part of the
    repository: the row vectors, their length, the L2 normalisation, and
    the search of a flat inner-product index.  [knn rows q k] stands for
    the labels that [IndexFlatIP.search] returns for the query [q] over
    the stored [rows]: [k] row numbers, best first, with [-1] where
    there is no row. *)
Class Faiss : Type := {
  vec : Type;
  vec_dim : vec -> Z;
  normalize_L2 : vec -> vec;
  knn : list vec -> vec -> Z -> list Z
}.

Section Index.

Context `{F : Faiss}.

Record IndexedExample : Type := {
  id : string;
  question : string;
  question_type : string;
  level : string;
  pattern : PatternExtractor.ReasoningPattern;
  embedding : vec
}.

(** [faiss.IndexFlatIP]: its dimension and the rows added so far. *)
Record IndexFlatIP : Type := {
  d : Z;
  rows : list vec
}.


(** [index.add(matrix)]: the rows must have the dimension of the index. *)
Definition index_add (index : IndexFlatIP) (matrix : list vec) : result IndexFlatIP :=
  if forallb (fun v => vec_dim v =? d index) matrix
  then Ok {| d := d index; rows := rows index ++ matrix |}
  else Raise AssertionError.

(** [np.vstack(rows)]: the rows must have one length. *)
Definition vstack (matrix : list vec) : result (list vec) :=
  match matrix with
  | [] => Raise ValueError
  | r :: _ =>
      if forallb (fun v => vec_dim v =? vec_dim r) matrix then Ok matrix
      else Raise ValueError
  end.

(** [index.search(query, k)] for one query row. *)
Definition index_search (index : IndexFlatIP) (query : vec) (k : Z)
  : result (list Z) :=
  if negb (vec_dim query =? d index) then Raise AssertionError
  else if k <=? 0 then Raise AssertionError
  else Ok (knn (rows index) query k).

Record SemanticIndex : Type := {
  dimension : Z;
  indices : gmap string (gmap string IndexFlatIP);
  indexed_examples : gmap string (gmap string (list IndexedExample))
}.

Definition q_types : list string := ["bridge"; "comparison"].
Definition levels : list string := ["easy"; "medium"; "hard"].

Definition empty_groups : gmap string (gmap string (list IndexedExample)) :=
  {[ "bridge" := {[ "easy" := []; "medium" := []; "hard" := [] ]};
     "comparison" := {[ "easy" := []; "medium" := []; "hard" := [] ]} ]}.

(** [SemanticIndex(dimension)]. *)
Definition init (dimension : Z) : SemanticIndex :=
  {| dimension := dimension;
     indices := {[ "bridge" := ∅; "comparison" := ∅ ]};
     indexed_examples := empty_groups |}.

(** [m[key]]. *)
Definition item {A : Type} (m : gmap string A) (key : string) : result A :=
  match m !! key with
  | Some a => Ok a
  | None => Raise KeyError
  end.

(** [grouped[q_type][level].append(example)]. *)
Definition group_append (grouped : gmap string (gmap string (list IndexedExample)))
    (example : IndexedExample) : result (gmap string (gmap string (list IndexedExample))) :=
  let* by_level := item grouped (question_type example) in
  let* l := item by_level (level example) in
  Ok (<[question_type example := <[level example := (l ++ [example])%list]> by_level]>
        grouped).

(** The first loop of [build_index], over [zip(patterns, embeddings)]. *)
Fixpoint group_all (grouped : gmap string (gmap string (list IndexedExample)))
    (patterns : list PatternExtractor.ReasoningPattern) (embeddings : list vec)
  : result (gmap string (gmap string (list IndexedExample))) :=
  match patterns, embeddings with
  | p :: patterns', embedding :: embeddings' =>
      let example :=
        {| id := PatternExtractor.question_id p;
           question := PatternExtractor.question p;
           question_type := PatternExtractor.question_type p;
           level := PatternExtractor.level p;
           pattern := p;
           embedding := embedding |} in
      let* grouped' := group_append grouped example in
      group_all grouped' patterns' embeddings'
  | _, _ => Ok grouped
  end.

(** The body of the second loop of [build_index] for one category. *)
Definition build_category (grouped : gmap string (gmap string (list IndexedExample)))
    (self : SemanticIndex) (category : string * string) : result SemanticIndex :=
  let q_type := fst category in
  let lvl := snd category in
  let* by_level := item grouped q_type in
  let* examples := item by_level lvl in
  if len examples =? 0 then Ok self
  else
    let* ex_by_level := item (indexed_examples self) q_type in
    let indexed_examples' :=
      <[q_type := <[lvl := examples]> ex_by_level]> (indexed_examples self) in
    let* embeddings_matrix := vstack (map embedding examples) in
    let* index :=
      index_add {| d := dimension self; rows := [] |}
        (map normalize_L2 embeddings_matrix) in
    let* idx_by_level := item (indices self) q_type in
    Ok {| dimension := dimension self;
          indices := <[q_type := <[lvl := index]> idx_by_level]> (indices self);
          indexed_examples := indexed_examples' |}.

Definition categories : list (string * string) :=
  q_type ← q_types; lvl ← levels; [(q_type, lvl)].

Fixpoint build_categories (grouped : gmap string (gmap string (list IndexedExample)))
    (self : SemanticIndex) (cats : list (string * string)) : result SemanticIndex :=
  match cats with
  | [] => Ok self
  | c :: cats' =>
      let* self' := build_category grouped self c in
      build_categories grouped self' cats'
  end.

Definition build_index (self : SemanticIndex) (patterns : list PatternExtractor.ReasoningPattern)
    (embeddings : list vec) : result SemanticIndex :=
  let* grouped := group_all empty_groups patterns embeddings in
  build_categories grouped self categories.

Definition search (self : SemanticIndex) (query_embedding : vec)
    (question_type level : string) (top_k : Z) : result (list IndexedExample) :=
  match indices self !! question_type with
  | None => Ok []
  | Some idx_by_level =>
      match idx_by_level !! level with
      | None => Ok []
      | Some index =>
          let* ex_by_level := item (indexed_examples self) question_type in
          let* examples := item ex_by_level level in
          if len examples =? 0 then Ok []
          else
            let query := normalize_L2 query_embedding in
            let top_k := Z.min top_k (len examples) in
            let* labels := index_search index query top_k in
            Ok (omap (fun idx : Z =>
                        if (0 <=? idx) && (idx <? len examples)
                        then examples !! Z.to_nat idx else None)
                  labels)
      end
  end.

(** *** The index on disk *)

(** What a file of the index directory holds: a search structure that
    FAISS wrote, the pickled examples, or other bytes. *)
Inductive file : Type :=
| IndexFile (index : IndexFlatIP)
| PickleFile (examples : gmap string (gmap string (list IndexedExample)))
| Garbage (bytes : string).

(** What the index takes from [pickle], which is not part of the
    repository: the exception that [pickle.load] raises on a file that
    does not hold the pickled examples.  It depends on the bytes:
    [EOFError] for an empty or truncated file, [UnpicklingError] for an
    unknown load key, and others. *)
Class Unpickler : Type := {
  unpickling_error : file -> exn
}.

Context `{U : Unpickler}.











End Index.

End SemanticIndex.

(** ** The embedding cache of the math solver: [src/few_shot_retriever.py] *)

Module FewShotRetriever.

Inductive dtype : Set :=
| DObject
| DFloat32
| DFloat64
| DOther.

Definition dtype_eqb (a b : dtype) : bool :=
  match a, b with
  | DObject, DObject | DFloat32, DFloat32 | DFloat64, DFloat64 | DOther, DOther => true
  | _, _ => false
  end.

(** A NumPy array: its element type, its shape and its cells. *)
Record ndarray : Set := {
  arr_dtype : dtype;
  shape : list Z;
  cells : list Py.value
}.

Definition ndim (a : ndarray) : Z := Z.of_nat (length (shape a)).

(** What [pickle.load] finds in the cache file: an array, some other
    object, or bytes that do not unpickle. *)
Inductive cached : Set :=
| CArray (a : ndarray)
| CObject (v : Py.value)
| CCorrupt.

(** [p[:p.rfind("/") + 1]]. *)
Fixpoint up_to_last_slash (p : string) : string :=
  match p with
  | EmptyString => EmptyString
  | String c p' =>
      let rest := up_to_last_slash p' in
      if Ascii.eqb c "/" || negb (PyStr.is_empty rest) then String c rest
      else EmptyString
  end.

Fixpoint all_slashes (s : string) : bool :=
  match s with
  | EmptyString => true
  | String c s' => Ascii.eqb c "/" && all_slashes s'
  end.

(** [s.rstrip("/")]. *)
Fixpoint rstrip_slashes (s : string) : string :=
  match s with
  | EmptyString => EmptyString
  | String c s' =>
      let rest := rstrip_slashes s' in
      if Ascii.eqb c "/" && PyStr.is_empty rest then EmptyString
      else String c rest
  end.

(** [os.path.dirname(p)] of [posixpath]: what stands before the last
    slash, without that slash unless nothing but slashes stands there.
    It is empty for a path without a slash. *)
Definition dirname (p : string) : string :=
  let head := up_to_last_slash p in
  if negb (PyStr.is_empty head) && negb (all_slashes head)
  then rstrip_slashes head
  else head.

(** What the retriever takes from the operating system when it writes
    the cache: [makedirs name] is [os.makedirs(name, exist_ok=True)],
    and [dump path a] is the opening of [path] for writing followed by
    [pickle.dump] of the array.  Either may raise: that depends on the
    disk, not on the repository. *)
Class FileSystem : Type := {
  makedirs : string -> result unit;
  dump : string -> ndarray -> result unit
}.

Section Retriever.

Context `{O : FileSystem}.

(** [self.model.encode(questions, convert_to_numpy=True)], the sentence
    encoder, which is not part of the repository. *)
Variable encode : list string -> ndarray.

(** The retriever with the file at [cache_path]: [None] when there is no
    such file. *)
Record state : Set := {
  training_data : list (string * string);
  cache_path : string;
  cache_file : option cached
}.

(** [np.array(a, dtype=np.float32)]. *)
Definition as_float32 (a : ndarray) : ndarray :=
  {| arr_dtype := DFloat32; shape := shape a; cells := cells a |}.

(** [a.reshape(-1, 1)] for a one-dimensional array. *)
Definition reshape_column (a : ndarray) : ndarray :=
  {| arr_dtype := arr_dtype a; shape := shape a ++ [1]; cells := cells a |}.

(** [a.shape[0]]. *)
Definition shape0 (a : ndarray) : result Z :=
  match shape a with
  | n :: _ => Ok n
  | [] => Raise IndexError
  end.

Definition _compute_embeddings (self : state) : result (ndarray * state) :=
  let questions := map fst (training_data self) in
  let embeddings := as_float32 (encode questions) in
  let embeddings :=
    if ndim embeddings =? 1 then reshape_column embeddings else embeddings in
  let* n := shape0 embeddings in
  if negb (n =? Z.of_nat (length questions)) then Raise AssertionError
  else if negb (dtype_eqb (arr_dtype embeddings) DFloat32 ||
                dtype_eqb (arr_dtype embeddings) DFloat64)
  then Raise AssertionError
  else
    let* _ := makedirs (dirname (cache_path self)) in
    let* _ := dump (cache_path self) embeddings in
    Ok (embeddings,
        {| training_data := training_data self;
           cache_path := cache_path self;
           cache_file := Some (CArray embeddings) |}).

(** [os.remove(self.cache_path)]. *)
Definition remove_cache (self : state) : state :=
  {| training_data := training_data self;
     cache_path := cache_path self;
     cache_file := None |}.

Definition _load_or_compute_embeddings (self : state) : result (ndarray * state) :=
  match cache_file self with
  | Some content =>
      match content with
      | CCorrupt => _compute_embeddings (remove_cache self)
      | CArray cached =>
          if dtype_eqb (arr_dtype cached) DObject
          then _compute_embeddings (remove_cache self)
          else if (ndim cached =? 2) &&
                  (hd (-1) (shape cached) =? Z.of_nat (length (training_data self)))
          then Ok (cached, self)
          else if ndim cached =? 1
          then _compute_embeddings (remove_cache self)
          else _compute_embeddings (remove_cache self)
      | CObject _ => _compute_embeddings (remove_cache self)
      end
  | None => _compute_embeddings self
  end.

End Retriever.

End FewShotRetriever.

(** ** The regular expressions of the answer extractors

    The three extractors search for a marker followed by
    [\s*(.+?)(?:\n|$)]: blanks, then the shortest non-empty run of
    characters other than a newline that is followed by a newline or by
    the end of the text.  The functions below follow the backtracking of
    [re]: a greedy item takes as much as it can and gives back one
    character at a time. *)

Module PyRe.

Definition newline : ascii := ascii_of_N 10.

(** The characters before the first newline. *)
Fixpoint line (s : string) : string :=
  match s with
  | EmptyString => EmptyString
  | String c s' => if Ascii.eqb c newline then EmptyString else String c (line s')
  end.

(** [(.+?)(?:\n|$)] at the start of [s]: the group. *)
Definition capture (s : string) : option string :=
  match s with
  | EmptyString => None
  | String c s' =>
      if Ascii.eqb c newline then None else Some (String c (line s'))
  end.

(** [\s*(.+?)(?:\n|$)] at the start of [s]: the group. *)
Fixpoint blanks_capture (s : string) : option string :=
  match s with
  | EmptyString => None
  | String c s' =>
      if PyStr.isspace c then
        match blanks_capture s' with
        | Some g => Some g
        | None => capture s
        end
      else capture s
  end.

(** A literal at the start of [s]: what follows it.  With [IGNORECASE]
    two characters match when their lower-case forms are equal. *)
Fixpoint literal (ignore_case : bool) (p s : string) : option string :=
  match p with
  | EmptyString => Some s
  | String a p' =>
      match s with
      | EmptyString => None
      | String b s' =>
          if (if ignore_case
              then Ascii.eqb (PyStr.lower_char a) (PyStr.lower_char b)
              else Ascii.eqb a b)
          then literal ignore_case p' s'
          else None
      end
  end.

(** [\s+] before a literal that does not start with a blank: all the
    blanks, at least one. *)
Definition blanks1 (s : string) : option string :=
  match s with
  | String c _ => if PyStr.isspace c then Some (PyStr.lstrip s) else None
  | EmptyString => None
  end.

(** [re.search]: the group of the match at the first position where the
    pattern [m] matches. *)
Fixpoint search (m : string -> option string) (s : string) : option string :=
  match m s with
  | Some g => Some g
  | None =>
      match s with
      | EmptyString => None
      | String _ s' => search m s'
      end
  end.

(** The pattern of four hashes, blanks and the group. *)
Definition hashes (s : string) : option string :=
  match literal false "####" s with
  | Some rest => blanks_capture rest
  | None => None
  end.

End PyRe.

(** ** The loader of the math solver: [src/loader.py] *)

Module Loader.

Definition extract_final_answer (answer_text : string) : string :=
  match PyRe.search PyRe.hashes answer_text with
  | Some group => PyStr.strip group
  | None => PyStr.strip answer_text
  end.

End Loader.

(** ** The chain-of-thought solver: [src/cot_solver.py] *)

Module CoTSolver.

Import PyList.

Record CoTSolver : Set := {
  num_samples : Z;
  temperature : float
}.

(** [:?\s*(.+?)(?:\n|$)], after the word of the second pattern. *)
Definition colon_capture (s : string) : option string :=
  match s with
  | String ":" s' =>
      match PyRe.blanks_capture s' with
      | Some g => Some g
      | None => PyRe.blanks_capture s
      end
  | _ => PyRe.blanks_capture s
  end.

Definition answer_word (s : string) : option string :=
  match PyRe.literal true "answer" s with
  | Some rest => colon_capture rest
  | None => None
  end.

(** The second pattern: the word [answer], which the word [final] and
    blanks may precede, a colon or none, blanks and the group; letters
    in either case. *)
Definition final_answer_word (s : string) : option string :=
  let with_final :=
    match PyRe.literal true "final" s with
    | Some rest =>
        match PyRe.blanks1 rest with
        | Some rest' => answer_word rest'
        | None => None
        end
    | None => None
    end in
  match with_final with
  | Some g => Some g
  | None => answer_word s
  end.

(** Lines 169 to 172, and 177 to 179. *)
Definition clean_group (group : string) : string :=
  let answer := PyStr.strip group in
  PyStr.strip
    (PyStr.filter_chars
       (fun c => negb (Ascii.eqb c "*" || Ascii.eqb c "`" ||
                       Ascii.eqb c "[" || Ascii.eqb c "]")) answer).

Definition _extract_final_answer (trace : string) : option string :=
  match PyRe.search PyRe.hashes trace with
  | Some group => Some (clean_group group)
  | None =>
      match PyRe.search final_answer_word trace with
      | Some group => Some (clean_group group)
      | None => None
      end
  end.

(** The dictionary that [solve] returns. *)
Module Solution.

Record t : Set := {
  traces : list string;
  extracted_answers : list string;
  result : Py.value;
  confidence : Py.value
}.

End Solution.

(** [answer_counts[key]]: a counter holds zero for a key that it
    lacks. *)
Fixpoint counter_get (c : list (string * Z)) (key : string) : Z :=
  match c with
  | [] => 0
  | (k, n) :: c' => if String.eqb k key then n else counter_get c' key
  end.

Section Solver.

(** The outcome of the call of [_generate_reasoning] for the sample of
    index [i]: the text that the language model returns, or the
    exception of the call.  The model is not part of the repository. *)
Variable _generate_reasoning : nat -> result string.

(** The loop of [solve] from the sample [i] on, for [n] more samples. *)
Fixpoint sample (i n : nat) (traces extracted_answers : list string)
  : list string * list string :=
  match n with
  | O => (traces, extracted_answers)
  | S n' =>
      match _generate_reasoning i with
      | Ok trace =>
          let traces := (traces ++ [trace])%list in
          match _extract_final_answer trace with
          | Some answer =>
              if PyStr.is_empty answer
              then sample (S i) n' traces extracted_answers
              else sample (S i) n' traces (extracted_answers ++ [answer])%list
          | None => sample (S i) n' traces extracted_answers
          end
      | Raise _ => sample (S i) n' traces extracted_answers
      end
  end.

Definition solve (self : CoTSolver) : result Solution.t :=
  let '(traces, extracted_answers) :=
    sample 0 (Z.to_nat (num_samples self)) [] [] in
  if SelfConsistency.is_nil extracted_answers then
    Ok {| Solution.traces := traces;
          Solution.extracted_answers := [];
          Solution.result := Py.VNone;
          Solution.confidence := Py.VFloat PyFloat.f0_0 |}
  else
    let answer_counts := SelfConsistency.Counter extracted_answers in
    let* top := SelfConsistency.first (SelfConsistency.most_common_1 answer_counts) in
    let majority_answer := fst top in
    let* confidence :=
      PyFloat.true_div (counter_get answer_counts majority_answer)
        (len extracted_answers) in
    Ok {| Solution.traces := traces;
          Solution.extracted_answers := extracted_answers;
          Solution.result := Py.VStr majority_answer;
          Solution.confidence := Py.VFloat confidence |}.

End Solver.


End CoTSolver.

(** ** The response parser of the QA system: [inference/response_parser.py] *)

Module ResponseParser.

(** [s.split(sep)] for a one-character separator; [cur] is the piece
    being read. *)
Fixpoint split_on_from (sep : ascii) (cur : string) (s : string) : list string :=
  match s with
  | EmptyString => [cur]
  | String c s' =>
      if Ascii.eqb c sep then cur :: split_on_from sep "" s'
      else split_on_from sep (cur ++ String c "") s'
  end.

Definition split_on (sep : ascii) (s : string) : list string :=
  split_on_from sep "" s.

(** The pattern of [extract_answer]: the marker in either case, blanks
    and the group. *)
Definition final_answer_marker (s : string) : option string :=
  match PyRe.literal true "FINAL ANSWER:" s with
  | Some rest => PyRe.blanks_capture rest
  | None => None
  end.

(** The loop over the lines, last line first. *)
Fixpoint last_line (lines : list string) : option string :=
  match lines with
  | [] => None
  | line :: lines' =>
      let line := PyStr.strip line in
      if negb (PyStr.is_empty line) && negb (PyStr.startswith "[" line)
         && negb (PyStr.startswith "Step" line)
      then Some line
      else last_line lines'
  end.

Definition extract_answer (response : string) : option string :=
  match PyRe.search final_answer_marker response with
  | Some group => Some (PyStr.strip group)
  | None =>
      let lines := split_on PyRe.newline (PyStr.strip response) in
      last_line (rev lines)
  end.

(** The first loop of [majority_vote]. *)
Fixpoint normalized_answers (responses : list string) : list string :=
  match responses with
  | [] => []
  | response :: responses' =>
      match extract_answer response with
      | Some answer =>
          if PyStr.is_empty answer then normalized_answers responses'
          else PyStr.strip (PyStr.lower answer) :: normalized_answers responses'
      | None => normalized_answers responses'
      end
  end.

Definition majority_vote (responses : list string) : result string :=
  let answers := normalized_answers responses in
  if SelfConsistency.is_nil answers then Ok ""
  else
    let counter := SelfConsistency.Counter answers in
    let* top := SelfConsistency.first (SelfConsistency.most_common_1 counter) in
    Ok (fst top).

End ResponseParser.

(** ** The retrieval of examples: [FewShotRetriever.retrieve] *)

Module Retrieval.

Import PyList FewShotRetriever.

(** [l[start:]]. *)
Definition slice_from {A : Type} (l : list A) (start : Z) : list A :=
  let start := if start <? 0 then Z.max (len l + start) 0 else Z.min start (len l) in
  drop (Z.to_nat start) l.

(** [a.reshape(1, -1)] for a one-dimensional array. *)
Definition reshape_row (a : ndarray) : ndarray :=
  {| arr_dtype := arr_dtype a; shape := 1 :: shape a; cells := cells a |}.

(** The retriever once it is initialised: its training data and cache
    file, and the embeddings that [__init__] stored.  They are what
    [_load_or_compute_embeddings] returned, an array, so that the test
    of line 107 passes. *)
Record Retriever : Set := {
  files : state;
  embeddings : ndarray
}.

Section Retrieve.

(** The sentence encoder, and the two functions of scikit-learn and
    NumPy that rank the training examples: the matrix of the cosine
    similarities of the rows of two arrays, which may raise, and the
    positions of the entries of a row from the smallest to the
    greatest. *)
Context `{O : FileSystem}.

Variable encode : list string -> ndarray.
Variable cosine_similarity : ndarray -> ndarray -> result (list (list float)).
Variable argsort : list float -> list Z.

(** [self.embeddings = self._compute_embeddings()]. *)
Definition recompute (self : Retriever) : result Retriever :=
  let* r := _compute_embeddings encode (files self) in
  Ok {| files := snd r; embeddings := fst r |}.

(** The loop of lines 129 to 132. *)
Fixpoint format_examples (training_data : list (string * string))
    (top_k_indices : list Z) : result (list string) :=
  match top_k_indices with
  | [] => Ok []
  | idx :: rest =>
      let* qa := getitem training_data idx in
      let* examples := format_examples training_data rest in
      Ok (("Question: " ++ fst qa ++ String PyRe.newline "" ++ "Answer: " ++ snd qa)
            :: examples)
  end.

Definition retrieve (self : Retriever) (question : string) (k : Z)
  : result (list string * Retriever) :=
  let query_embedding := as_float32 (encode [question]) in
  let query_embedding :=
    if ndim query_embedding =? 1 then reshape_row query_embedding
    else query_embedding in
  let* self :=
    if dtype_eqb (arr_dtype (embeddings self)) DObject then recompute self
    else Ok self in
  let* ranked :=
    match (let* m := cosine_similarity query_embedding (embeddings self) in
           getitem m 0) with
    | Ok similarities => Ok (similarities, self)
    | Raise _ =>
        let* self := recompute self in
        let* m := cosine_similarity query_embedding (embeddings self) in
        let* similarities := getitem m 0 in
        Ok (similarities, self)
    end in
  let similarities := fst ranked in
  let self := snd ranked in
  let top_k_indices := rev (slice_from (argsort similarities) (- k)) in
  let* examples := format_examples (training_data (files self)) top_k_indices in
  Ok (examples, self).

End Retrieve.

End Retrieval.

(** ** The loop of the math solver: [main.py] *)

Module Main.

Import Py Verifier.

(** The dictionary [stats]. *)
Record Stats : Set := {
  pal_success : Z;
  cot_success : Z;
  both_agree : Z;
  both_fail : Z
}.

(** [d[key]]. *)
Definition getitem (d : gmap string value) (key : string) : result value :=
  match d !! key with
  | Some v => Ok v
  | None => Raise KeyError
  end.

(** The format [.0%] of line 102: it accepts numbers only, and turns an
    [int] into a [float] first. *)
Definition format_percent (v : value) : result unit :=
  match v with
  | VNone => Raise TypeError
  | VStr _ => Raise ValueError
  | VInt z => let* _ := PyFloat.of_int z in Ok tt
  | VBool _ | VFloat _ => Ok tt
  end.

(** The body of the loop over the questions, lines 89 to 137, for the
    dictionaries that the two solvers returned: the updated statistics,
    the verified result and the final answer. *)
Definition process_question (verifier : Verifier) (stats : Stats)
    (pal_result cot_result : gmap string value) (question : string)
  : result (Stats * Reconciliation * string) :=
  let stats :=
    if truthy (get pal_result "success" VNone)
    then {| pal_success := pal_success stats + 1; cot_success := cot_success stats;
            both_agree := both_agree stats; both_fail := both_fail stats |}
    else stats in
  let* stats :=
    if truthy (get cot_result "result" VNone) then
      let* _ := format_percent (get cot_result "confidence" (VInt 0)) in
      Ok {| pal_success := pal_success stats; cot_success := cot_success stats + 1;
            both_agree := both_agree stats; both_fail := both_fail stats |}
    else Ok stats in
  let* stats :=
    if truthy (get pal_result "success" VNone)
       && truthy (get cot_result "result" VNone) then
      let* pal_answer := getitem pal_result "result" in
      let* cot_answer := getitem cot_result "result" in
      let pal_norm := PyStr.lower (PyStr.strip (str pal_answer)) in
      let cot_norm := PyStr.lower (PyStr.strip (str cot_answer)) in
      if String.eqb pal_norm cot_norm
      then Ok {| pal_success := pal_success stats; cot_success := cot_success stats;
                 both_agree := both_agree stats + 1; both_fail := both_fail stats |}
      else Ok stats
    else Ok stats in
  let stats :=
    if negb (truthy (get pal_result "success" VNone))
       && negb (truthy (get cot_result "result" VNone))
    then {| pal_success := pal_success stats; cot_success := cot_success stats;
            both_agree := both_agree stats; both_fail := both_fail stats + 1 |}
    else stats in
  let* verified_result := verify verifier pal_result cot_result question in
  let* final_answer :=
    Normalizer.normalize_answer (final_answer verified_result) question in
  Ok (stats, verified_result, final_answer).

End Main.

(** * Vocabulary of the statements *)

Local Open Scope list_scope.

(** ** Candidates and the decision table *)

Module Candidate.

Import Py Verifier.

(** What [verify] reads from the two result dictionaries (lines 19 to
    24 of [verifier.py]). *)
Definition pal_succeeded (pal_result : gmap string value) : bool :=
  truthy (get pal_result "success" (VBool false)).

Definition cot_succeeded (cot_result : gmap string value) : bool :=
  negb (is_none (get cot_result "result" VNone)).

Definition answer_of (r : gmap string value) : value := get r "result" VNone.

Definition confidence_of (cot_result : gmap string value) : value :=
  get cot_result "confidence" (VFloat PyFloat.f0_0).

(** [max(a, b)] on two floats. *)
Definition float_max (a b : float) : float := if PrimFloat.ltb a b then b else a.

(** The literal [0.66]. *)
Definition f0_66 : float := 0x1.51eb851eb851fp-1%float.

(** The decision table of the specification under disagreement: the
    rules in their order, the first that matches deciding.  Rule 2
    carries the verifier's flag. *)
Definition disagreement_rules (self : Verifier.Verifier) (question : string)
    (pal_value cot_value : value) (c : float) : Reconciliation :=
  if _is_complex_word_problem question && PrimFloat.leb PyFloat.f0_65 c then
    {| final_answer := str cot_value;
       method := "cot_complex_problem";
       confidence := VFloat c |}
  else if _is_arithmetic_question question
          && negb (_is_complex_word_problem question)
          && prefer_pal self then
    {| final_answer := str pal_value;
       method := "pal_simple_arithmetic";
       confidence := VFloat PyFloat.f0_75 |}
  else if PrimFloat.leb PyFloat.f0_7 c then
    {| final_answer := str cot_value;
       method := "cot_high_confidence";
       confidence := VFloat c |}
  else if PrimFloat.leb PyFloat.f0_6 c then
    {| final_answer := str cot_value;
       method := "cot_medium_confidence";
       confidence := VFloat c |}
  else
    {| final_answer := str pal_value;
       method := "pal_default";
       confidence := VFloat PyFloat.f0_65 |}.

End Candidate.

(** ** Hops and roles *)

Module HopSpec.

Import PyList PatternExtractor.

(** A reference resolves when its document is in the context and its
    sentence index is below the number of sentences of the document. *)
Definition resolves (context : gmap string (list string)) (fact : string * Z) : bool :=
  match context !! fst fact with
  | Some sentences => snd fact <? len sentences
  | None => false
  end.

(** The positions, counted from [i], of the references that resolve. *)
Fixpoint resolving_from (context : gmap string (list string)) (i : Z)
    (facts : list (string * Z)) : list Z :=
  match facts with
  | [] => []
  | fact :: facts' =>
      if resolves context fact
      then i :: resolving_from context (i + 1) facts'
      else resolving_from context (i + 1) facts'
  end.

Definition reference_of (h : HopInfo) : string * Z :=
  (document_title h, sentence_id h).

(** The roles of a bridge example by position: the first is the starter,
    the last the final one, the others bridges. *)
Definition role_at (n i : Z) : string :=
  if i =? 0 then "starter" else if i =? n - 1 then "final" else "bridge".

Fixpoint positions (i : Z) (n : nat) : list Z :=
  match n with
  | O => []
  | S n' => i :: positions (i + 1) n'
  end.

End HopSpec.

(** ** Votes *)

Module VoteSpec.

Import SelfConsistency.

(** The entries that [vote_answers] counts, and their normal forms. *)
Definition kept (answers : list string) : list string :=
  List.filter (fun a => negb (PyStr.is_empty a)) answers.

Definition normalized (answers : list string) : list string :=
  map normalize (kept answers).

(** The entries that the specification calls usable: normalise every
    entry, then drop the empty ones. *)
Definition usable (answers : list string) : list string :=
  List.filter (fun a => negb (PyStr.is_empty a)) (map normalize answers).

Definition occurrences (x : string) (l : list string) : Z :=
  Z.of_nat (length (List.filter (String.eqb x) l)).

(** The count that a counter holds for a key. *)
Fixpoint count_of (k : string) (c : list (string * Z)) : Z :=
  match c with
  | [] => 0
  | (k', n) :: c' => if String.eqb k' k then n else count_of k c'
  end.

End VoteSpec.

(** ** Index invariant and the contract of FAISS *)

Module IndexSpec.

Import PyList SemanticIndex.

(** What a FAISS flat index promises about the labels it returns when it
    is asked for no more rows than it holds: that many different row
    numbers.  The normalisation keeps the length of a vector. *)
Class FaissLaws `{F : Faiss} : Prop := {
  normalize_L2_dim : forall v, vec_dim (normalize_L2 v) = vec_dim v;
  knn_labels : forall (rows : list vec) (q : vec) (k : Z),
    0 < k <= len rows ->
    length (knn rows q k) = Z.to_nat k
    /\ List.NoDup (knn rows q k)
    /\ forall i, In i (knn rows q k) -> 0 <= i < len rows
}.

Section Spec.

Context `{F : Faiss}.

Definition index_of (self : SemanticIndex) (question_type level : string)
  : option IndexFlatIP :=
  indices self !! question_type ≫= (.!! level).

Definition examples_of (self : SemanticIndex) (question_type level : string)
  : option (list IndexedExample) :=
  indexed_examples self !! question_type ≫= (.!! level).

(** The examples stored for a category; none for a category that the
    index does not know. *)
Definition stored (self : SemanticIndex) (question_type level : string)
  : list IndexedExample :=
  default [] (examples_of self question_type level).


End Spec.

(** An index in which all similarities tie: the rows come back in the
    order of their insertion.  Vectors are lists of integers. *)
#[export] Instance insertion_order_faiss : Faiss := {|
  vec := list Z;
  vec_dim := fun v => len v;
  normalize_L2 := fun v => v;
  knn := fun rows _ k =>
    map Z.of_nat (seq 0 (Nat.min (Z.to_nat k) (length rows)))
    ++ repeat (-1) (Z.to_nat k - length rows)
|}.

(** An unpickler that meets the end of an empty file and an unknown load
    key in every other file. *)
#[export] Instance first_byte_unpickler `{F : Faiss} : Unpickler := {|
  unpickling_error := fun f =>
    match f with
    | Garbage "" => EOFError
    | _ => UnpicklingError
    end
|}.

End IndexSpec.

(** ** Rejected caches *)

Module CacheSpec.

Import FewShotRetriever.


(** An encoder that returns one row of three numbers for each question. *)
Definition three_columns (questions : list string) : ndarray :=
  {| arr_dtype := DFloat64;
     shape := [Z.of_nat (length questions); 3];
     cells := [] |}.

Section Spec.

Context `{O : FileSystem}.


End Spec.

(** A disk on which every directory can be made and every file written.
    The empty path names no directory: [os.makedirs] raises on it. *)
#[export] Instance open_disk : FileSystem := {|
  makedirs := fun name =>
    if PyStr.is_empty name then Raise FileNotFoundError else Ok tt;
  dump := fun _ _ => Ok tt
|}.

End CacheSpec.

(** * Sample inputs *)

Module Samples.

Import Py PyList Verifier Candidate PatternExtractor SemanticIndex IndexSpec FewShotRetriever.

Definition agree_pal : gmap string value :=
  {[ "success" := VBool true; "result" := VInt 1200 ]}.

Definition agree_cot : gmap string value :=
  {[ "result" := VStr " $1,200 "; "confidence" := VFloat 0x1p-2%float ]}.

Definition disagree_pal : gmap string value :=
  {[ "success" := VBool true; "result" := VInt 12 ]}.

Definition disagree_cot (c : float) : gmap string value :=
  {[ "result" := VStr "13"; "confidence" := VFloat c ]}.

(** A question with an arithmetic keyword ("how many") and two
    complexity keywords ("each", "every"). *)
Definition both_question : string :=
  "How many apples does each child eat every day?".

Definition failed_pal : gmap string value :=
  {[ "success" := VBool false; "result" := VNone ]}.

Definition failed_cot : gmap string value :=
  {[ "result" := VNone; "confidence" := VFloat PyFloat.f0_0 ]}.

Definition three_docs : gmap string (list string) :=
  {[ "A" := ["Born in Paris."]; "B" := ["Paris is in France."; "It is large."];
     "C" := ["France is in Europe."] ]}.

Definition toy_pattern (qid qt lvl : string) : PatternExtractor.ReasoningPattern :=
  {| PatternExtractor.question_id := qid;
     PatternExtractor.question := "Where?";
     PatternExtractor.question_type := qt;
     PatternExtractor.level := lvl;
     PatternExtractor.num_hops := 0;
     PatternExtractor.hops := [];
     PatternExtractor.bridge_entity := None;
     PatternExtractor.comparison_dimension := None;
     PatternExtractor.answer := "there" |}.

Definition toy_patterns : list PatternExtractor.ReasoningPattern :=
  [ toy_pattern "a" "bridge" "easy"; toy_pattern "b" "comparison" "hard";
    toy_pattern "c" "bridge" "easy" ].

Definition toy_embeddings : list (list Z) := [ [1; 0]; [0; 1]; [1; 1] ].

(** The index built from three examples of dimension 2. *)
Definition toy_index : SemanticIndex :=
  match build_index (init 2) toy_patterns toy_embeddings with
  | Ok self => self
  | Raise _ => init 2
  end.

Definition two_questions : list (string * string) :=
  [("What is 2 + 2?", "4"); ("What is 3 * 3?", "9")].

(** A cache of five rows for two training examples. *)
Definition stale_cache : cached :=
  CArray {| arr_dtype := DFloat32; shape := [5; 3]; cells := [] |}.

Definition one_example : IndexedExample :=
  {| id := "a";
     question := "Where?";
     question_type := "bridge";
     level := "easy";
     pattern := toy_pattern "a" "bridge" "easy";
     embedding := [1; 0] |}.






(** Where the samples keep the cache of the embeddings. *)
Definition sample_path : string := "cache/embeddings.pkl".


End Samples.

(** ** Sentence indices that Python accepts *)

Module HopBounds.

Import PyList.

(** A reference is within bounds when its document is absent from the
    context or its sentence index is not below minus the number of
    sentences: a negative index counts from the end of the list. *)
Definition within (context : gmap string (list string)) (fact : string * Z) : bool :=
  match context !! fst fact with
  | Some sentences => - len sentences <=? snd fact
  | None => true
  end.

(** The position that a sentence index denotes. *)
Definition position {A : Type} (l : list A) (i : Z) : nat :=
  Z.to_nat (if i <? 0 then len l + i else i).

End HopBounds.

(** ** Grouping by category *)

Module GroupSpec.

Import PyList SemanticIndex.

(** The entry of a category in a dictionary of dictionaries. *)
Definition entry {A : Type} (m : gmap string (gmap string A)) (q_type lvl : string)
  : option A :=
  m !! q_type ≫= (.!! lvl).

(** The categories that an index knows. *)
Definition known_category (q_type lvl : string) : bool :=
  existsb (String.eqb q_type) q_types && existsb (String.eqb lvl) levels.

(** Whether a category is among those of a list. *)
Definition covers (cats : list (string * string)) (q_type lvl : string) : bool :=
  existsb (fun c => String.eqb q_type (fst c) && String.eqb lvl (snd c)) cats.

Section Spec.

Context `{F : Faiss}.

(** The example that [build_index] makes of a pattern and its
    embedding. *)
Definition example_of (pe : PatternExtractor.ReasoningPattern * vec) : IndexedExample :=
  {| id := PatternExtractor.question_id (fst pe);
     question := PatternExtractor.question (fst pe);
     question_type := PatternExtractor.question_type (fst pe);
     level := PatternExtractor.level (fst pe);
     pattern := fst pe;
     embedding := snd pe |}.

(** The examples of [zip(patterns, embeddings)], which stops at the
    shorter of the two. *)
Definition examples_from (patterns : list PatternExtractor.ReasoningPattern)
    (embeddings : list vec) : list IndexedExample :=
  map example_of (combine patterns embeddings).

Definition in_category (q_type lvl : string) (example : IndexedExample) : bool :=
  String.eqb (question_type example) q_type && String.eqb (level example) lvl.

Definition known (example : IndexedExample) : bool :=
  known_category (question_type example) (level example).

(** The search structure that [build_index] makes of the examples of a
    category. *)
Definition index_for (dimension : Z) (examples : list IndexedExample) : IndexFlatIP :=
  {| d := dimension; rows := map normalize_L2 (map embedding examples) |}.



End Spec.

End GroupSpec.

(** ** Further sample inputs *)

Module MoreSamples.

(** Two documents of one sentence each, which share the entity Paris. *)
Definition met_in_paris : gmap string (list string) :=
  {[ "A" := ["Marie was born in Paris"]; "B" := ["Paris is in France"] ]}.

End MoreSamples.

(** ** Proof tools *)

(** Lookups in a dictionary written out with its keys. *)
Ltac lookup_literal :=
  repeat first
    [ rewrite lookup_insert_eq
    | rewrite lookup_insert_ne by congruence
    | rewrite lookup_singleton_eq
    | rewrite lookup_singleton_ne by congruence
    | rewrite lookup_empty ].

(** * Properties *)

Import PyList Samples.

(** ** The verifier *)

Import Py Verifier Candidate.

Lemma ge_float_float (a b : float) :
  ge (VFloat a) (VFloat b) = Ok (PrimFloat.leb b a).
Proof. reflexivity. Qed.

Lemma gt_float_float (a b : float) :
  gt (VFloat a) (VFloat b) = Ok (PrimFloat.ltb b a).
Proof. reflexivity. Qed.

Lemma max2_float_float (a b : float) :
  max2 (VFloat a) (VFloat b) = Ok (VFloat (float_max a b)).
Proof.
  unfold max2, float_max. rewrite gt_float_float. simpl.
  now destruct (PrimFloat.ltb a b).
Qed.



Lemma filter_chars_spec (keep : ascii -> bool) (s : string) (c : ascii) :
  In c (list_ascii_of_string (PyStr.filter_chars keep s)) ->
  keep c = true /\ In c (list_ascii_of_string s).
Proof.
  induction s as [ | a s IH]; simpl; [tauto | ].
  destruct (keep a) eqn:Ka; simpl.
  - intros [-> | H]; [now auto | ]. destruct (IH H); auto.
  - intros H. destruct (IH H); auto.
Qed.

(** The normal form of an answer holds no comma, dollar or percent sign
    and no blank. *)
Lemma normalize_answer_chars (v : value) (c : ascii) :
  In c (list_ascii_of_string (_normalize_answer v)) ->
  c <> ","%char /\ c <> "$"%char /\ c <> "%"%char /\ PyStr.isspace c = false.
Proof.
  unfold _normalize_answer, PyStr.remove_spaces, PyStr.remove_char. intros H.
  apply filter_chars_spec in H as [Hs H].
  apply filter_chars_spec in H as [Hp H].
  apply filter_chars_spec in H as [Hd H].
  apply filter_chars_spec in H as [Hc _].
  apply negb_true_iff in Hs, Hp, Hd, Hc.
  repeat split; try assumption; intros ->; simpl in *; discriminate.
Qed.

(** C1.  When both candidates succeeded and their values have the same
    normal form (the text of the value, stripped, in lower case, without
    commas, dollar signs, percent signs and blanks), [verify] returns the
    text of the PAL value with the method [both_agree] and the confidence
    1.0, whatever the question and the verifier's flag. *)
Theorem verify_both_agree (self : Verifier) (pal cot : gmap string value)
    (question : string) :
  pal_succeeded pal = true ->
  cot_succeeded cot = true ->
  _normalize_answer (answer_of pal) = _normalize_answer (answer_of cot) ->
  verify self pal cot question =
    Ok {| final_answer := str (answer_of pal);
          method := "both_agree";
          confidence := VFloat PyFloat.f1_0 |}
  /\ _normalize_answer (answer_of pal) =
       PyStr.remove_spaces
         (PyStr.remove_char "%"
            (PyStr.remove_char "$"
               (PyStr.remove_char ","
                  (PyStr.lower (PyStr.strip (str (answer_of pal)))))))
  /\ (forall c, In c (list_ascii_of_string (_normalize_answer (answer_of pal))) ->
        c <> ","%char /\ c <> "$"%char /\ c <> "%"%char /\ PyStr.isspace c = false).
Proof.
  unfold pal_succeeded, cot_succeeded, answer_of. intros Hp Hc Hn.
  split; [ | split; [reflexivity | apply normalize_answer_chars]].
  unfold verify. rewrite Hp, Hc, Hn. simpl.
  now rewrite String.eqb_refl.
Qed.

Lemma verify_both_agree_witness :
  verify default_verifier agree_pal agree_cot "How many apples?" =
    Ok {| final_answer := "1200";
          method := "both_agree";
          confidence := VFloat PyFloat.f1_0 |}.
Proof.
  apply (verify_both_agree default_verifier agree_pal agree_cot "How many apples?");
    vm_compute; reflexivity.
Defined.

(** C2 as amended.  When both candidates succeeded, their normal forms
    differ and the CoT confidence is a float [c], [verify] returns what
    the first matching rule gives: (1) complex word problem and
    [c >= 0.65]; (2) arithmetic, not complex, and the verifier prefers
    PAL for arithmetic; (3) [c >= 0.70]; (4) [c >= 0.60]; (5) the PAL
    default.  In particular a complex word problem with [c = 0.66] is
    decided by rule 1, whether or not the question is arithmetic. *)
Theorem verify_disagreement_rules (self : Verifier) (pal cot : gmap string value)
    (question : string) (c : float) :
  pal_succeeded pal = true ->
  cot_succeeded cot = true ->
  _normalize_answer (answer_of pal) <> _normalize_answer (answer_of cot) ->
  confidence_of cot = VFloat c ->
  verify self pal cot question =
    Ok (disagreement_rules self question (answer_of pal) (answer_of cot) c)
  /\ (_is_complex_word_problem question = true -> c = f0_66 ->
      verify self pal cot question =
        Ok {| final_answer := str (answer_of cot);
              method := "cot_complex_problem";
              confidence := VFloat f0_66 |}).
Proof.
  unfold pal_succeeded, cot_succeeded, answer_of, confidence_of.
  intros Hp Hc Hn Hconf.
  assert (Hv : verify self pal cot question =
    Ok (disagreement_rules self question (get pal "result" VNone)
          (get cot "result" VNone) c)).
  { unfold verify, disagreement_rules. rewrite Hp, Hc, Hconf. simpl.
    apply String.eqb_neq in Hn. rewrite Hn.
    destruct (_is_complex_word_problem question); simpl.
    - destruct (PrimFloat.leb PyFloat.f0_65 c); simpl; [reflexivity | ].
      rewrite andb_false_r. simpl.
      destruct (PrimFloat.leb PyFloat.f0_7 c); simpl; [reflexivity | ].
      now destruct (PrimFloat.leb PyFloat.f0_6 c).
    - destruct (_is_arithmetic_question question && true && prefer_pal self);
        [reflexivity | ].
      destruct (PrimFloat.leb PyFloat.f0_7 c); simpl; [reflexivity | ].
      now destruct (PrimFloat.leb PyFloat.f0_6 c). }
  split; [exact Hv | ].
  intros Hx ->. rewrite Hv. unfold disagreement_rules. rewrite Hx.
  reflexivity.
Qed.

Lemma verify_disagreement_rules_witness :
  _is_arithmetic_question both_question = true /\
  _is_complex_word_problem both_question = true /\
  verify default_verifier disagree_pal (disagree_cot f0_66) both_question =
    Ok {| final_answer := "13";
          method := "cot_complex_problem";
          confidence := VFloat f0_66 |}.
Proof.
  split; [vm_compute; reflexivity | ].
  split; [vm_compute; reflexivity | ].
  apply (verify_disagreement_rules default_verifier disagree_pal
           (disagree_cot f0_66) both_question f0_66);
    try (vm_compute; reflexivity).
  vm_compute. discriminate.
Defined.

(** C2 as stated fails on a verifier built with the flag off: for an
    arithmetic question that is not complex, rule 2 does not give
    [pal_simple_arithmetic]. *)
Lemma verify_rule2_needs_flag :
  pal_succeeded disagree_pal = true /\
  cot_succeeded (disagree_cot 0x1p-1%float) = true /\
  _normalize_answer (answer_of disagree_pal) <>
    _normalize_answer (answer_of (disagree_cot 0x1p-1%float)) /\
  _is_arithmetic_question "How many apples?" = true /\
  _is_complex_word_problem "How many apples?" = false /\
  verify {| prefer_pal := false |} disagree_pal (disagree_cot 0x1p-1%float)
    "How many apples?" =
    Ok {| final_answer := "12";
          method := "pal_default";
          confidence := VFloat PyFloat.f0_65 |}.
Proof.
  repeat split; try (vm_compute; reflexivity).
  vm_compute. discriminate.
Qed.



(** C4.  When neither candidate succeeded, [verify] returns the answer
    ["0"] with the method [fallback] and the confidence 0.0; it does not
    raise. *)
Theorem verify_fallback (self : Verifier) (pal cot : gmap string value)
    (question : string) :
  pal_succeeded pal = false ->
  cot_succeeded cot = false ->
  verify self pal cot question =
    Ok {| final_answer := "0";
          method := "fallback";
          confidence := VFloat PyFloat.f0_0 |}.
Proof.
  unfold pal_succeeded, cot_succeeded. intros Hp Hc.
  unfold verify. rewrite Hp, Hc. reflexivity.
Qed.

Lemma verify_fallback_witness :
  verify default_verifier failed_pal failed_cot "How many apples?" =
    Ok {| final_answer := "0";
          method := "fallback";
          confidence := VFloat PyFloat.f0_0 |}
  /\ verify default_verifier ∅ ∅ "" =
    Ok {| final_answer := "0";
          method := "fallback";
          confidence := VFloat PyFloat.f0_0 |}.
Proof.
  split.
  - apply (verify_fallback default_verifier failed_pal failed_cot "How many apples?");
      vm_compute; reflexivity.
  - apply (verify_fallback default_verifier ∅ ∅ ""); vm_compute; reflexivity.
Defined.






(** ** The answer formatter *)

Import Normalizer.

(** A [ValueError] while reading or formatting the number gives back the
    cleaned text. *)
Lemma normalize_answer_value_error (answer question : string) :
  (let* n := parse_number (num_str_of (clean answer)) in format_number n question)
    = Raise ValueError ->
  normalize_answer answer question = Ok (PyStr.strip (clean answer)).
Proof. unfold normalize_answer. now intros ->. Qed.

(** Any other exception leaves [normalize_answer]: the handler names
    [ValueError] and [TypeError] only. *)
Lemma normalize_answer_overflow (answer question : string) :
  parse_number (num_str_of (clean answer)) = Raise OverflowError ->
  normalize_answer answer question = Raise OverflowError.
Proof. unfold normalize_answer. now intros ->. Qed.

(** The formats of a number whose conversions succeed, in the order in
    which the question selects them. *)
Lemma normalize_answer_number (answer question : string) (n : num) (z : Z)
    (two : string) :
  parse_number (num_str_of (clean answer)) = Ok n ->
  int_of n = Ok z ->
  format_2f n = Ok two ->
  normalize_answer answer question =
    Ok (if PyStr.contains "how many" (PyStr.lower question) then PyStr.of_Z z
        else if is_currency_question question then two
        else if is_whole_float n then PyStr.of_Z z
        else str_num n).
Proof.
  intros Hp Hi Hf. unfold normalize_answer. rewrite Hp. cbn [bind].
  unfold format_number. rewrite Hi, Hf. cbn [bind].
  destruct (PyStr.contains "how many" (PyStr.lower question)); [reflexivity | ].
  destruct (is_currency_question question); [reflexivity | ].
  now destruct (is_whole_float n).
Qed.

(** A text that reads as an infinity and has neither a point nor an [e]
    is converted with [int(float(s))], which overflows. *)
Lemma parse_number_infinity (num_str : string) (s : bool) :
  PyStr.contains "." num_str = false ->
  PyStr.contains "e" (PyStr.lower num_str) = false ->
  PyFloat.of_string num_str = Some (if s then neg_infinity else infinity) ->
  parse_number num_str = Raise OverflowError.
Proof.
  intros Hdot He Hf. unfold parse_number, float_of. rewrite Hdot, He, Hf.
  now destruct s.
Qed.

(** C8.  The two examples of the claim hold, and the answer ["inf"] (or a
    number too large for a float under a "how many" question) makes
    [normalize_answer] raise [OverflowError] where the claim promises a
    formatted number or the cleaned text. *)
Theorem normalize_answer_examples_and_overflow :
  normalize_answer "$  1,234.50" "What is the total cost?" = Ok "1234.50"
  /\ normalize_answer "#### 7" "How many apples?" = Ok "7"
  /\ normalize_answer "inf" "What is the limit?" = Raise OverflowError
  /\ normalize_answer "1e999" "How many stars are there?" = Raise OverflowError.
Proof. repeat split; vm_compute; reflexivity. Qed.

(** ** The pattern extractor *)

Import PatternExtractor HopSpec.

Lemma getitem_nonneg {A : Type} (l : list A) (i : Z) :
  0 <= i -> i < len l -> exists x, getitem l i = Ok x.
Proof.
  intros H0 Hlt. unfold getitem, len in *.
  replace (i <? 0) with false by (symmetry; apply Z.ltb_ge; lia).
  replace ((i <? 0) || (Z.of_nat (length l) <=? i)) with false.
  2:{ symmetry. apply orb_false_iff. split; [apply Z.ltb_ge | apply Z.leb_gt]; lia. }
  destruct (l !! Z.to_nat i) as [x | ] eqn:E; [eauto | ].
  apply lookup_ge_None in E. lia.
Qed.

Section ExtractorProperties.

Variable set_order : list string -> list string.

Lemma collect_hops_spec (total : Z) (qt : string) (context : gmap string (list string))
    (facts : list (string * Z)) :
  Forall (fun fact => 0 <= snd fact) facts ->
  forall idx : Z,
  exists hs, collect_hops set_order total qt context idx facts = Ok hs
    /\ map reference_of hs = List.filter (resolves context) facts
    /\ map role hs =
         map (fun i => _determine_hop_role i total qt)
           (resolving_from context idx facts).
Proof.
  induction 1 as [ | [doc sid] facts Hsid _ IH]; intros idx.
  - exists []. now simpl.
  - destruct (IH (idx + 1)) as (hs & Ehs & Href & Hrole). simpl in Hsid.
    cbn [collect_hops List.filter resolving_from].
    unfold hop_of, resolves. cbn [fst snd].
    destruct (context !! doc) as [sentences | ] eqn:Edoc.
    + destruct (sid <? len sentences) eqn:Elt.
      * apply Z.ltb_lt in Elt.
        destruct (getitem_nonneg sentences sid Hsid Elt) as [text Etext].
        rewrite Etext. cbn [bind]. rewrite Ehs. cbn [bind].
        eexists. split; [reflexivity | ].
        cbn [map reference_of document_title sentence_id role].
        now rewrite Href, Hrole.
      * cbn [bind]. rewrite Ehs. cbn [bind]. eauto.
    + cbn [bind]. rewrite Ehs. cbn [bind]. eauto.
Qed.

Lemma resolving_all (context : gmap string (list string)) (facts : list (string * Z)) :
  Forall (fun fact => resolves context fact = true) facts ->
  forall idx, resolving_from context idx facts = positions idx (length facts).
Proof.
  induction 1 as [ | fact facts Hf _ IH]; intros idx; simpl; [reflexivity | ].
  now rewrite Hf, IH.
Qed.

(** C7 as amended.  When no sentence index is negative, extraction
    returns and its hops are those of the references that resolve, in
    order: a reference whose document is absent or whose sentence index
    is not below the number of sentences gives no hop.  The role of a
    hop is fixed by the position of its reference among all the
    supporting facts (for a bridge example: position 0 is the starter,
    the last position the final one, any other a bridge).  Hence, when
    every reference of a bridge example resolves, the roles follow the
    positions of the hops, and three references give starter, bridge,
    final. *)
Theorem extract_pattern_roles (question_id question question_type level : string)
    (supporting_facts : list (string * Z)) (context : gmap string (list string))
    (answer : string) :
  Forall (fun fact => 0 <= snd fact) supporting_facts ->
  exists p,
    extract_pattern set_order question_id question question_type level
      supporting_facts context answer = Ok p
    /\ map reference_of (hops p) = List.filter (resolves context) supporting_facts
    /\ map role (hops p) =
         map (fun i => _determine_hop_role i (len supporting_facts) question_type)
           (resolving_from context 0 supporting_facts)
    /\ (question_type = "bridge" ->
        Forall (fun fact => resolves context fact = true) supporting_facts ->
        map role (hops p) =
          map (role_at (len supporting_facts))
            (positions 0 (length supporting_facts))
        /\ (length supporting_facts = 3%nat ->
            map role (hops p) = ["starter"; "bridge"; "final"])).
Proof.
  intros Hsid.
  destruct (collect_hops_spec (len supporting_facts) question_type context
              supporting_facts Hsid 0) as (hs & Ehs & Href & Hrole).
  unfold extract_pattern. rewrite Ehs. cbn [bind].
  eexists. split; [reflexivity | ]. cbn [hops].
  split; [exact Href | ]. split; [exact Hrole | ].
  intros -> Hall.
  assert (Hpos : map role hs =
    map (role_at (len supporting_facts)) (positions 0 (length supporting_facts))).
  { rewrite Hrole, (resolving_all context supporting_facts Hall 0).
    apply map_ext. intros i. reflexivity. }
  split; [exact Hpos | ].
  intros H3. rewrite Hpos. unfold len. rewrite H3. reflexivity.
Qed.

End ExtractorProperties.

Lemma extract_pattern_roles_witness :
  exists p,
    extract_pattern (fun l => l) "q1" "Where was she born?" "bridge" "easy"
      [("A", 0); ("B", 1); ("C", 0)] three_docs "Europe" = Ok p
    /\ map role (hops p) = ["starter"; "bridge"; "final"].
Proof.
  destruct (extract_pattern_roles (fun l => l) "q1" "Where was she born?" "bridge"
              "easy" [("A", 0); ("B", 1); ("C", 0)] three_docs "Europe")
    as (p & Ep & _ & _ & H).
  - repeat constructor; simpl; lia.
  - exists p. split; [exact Ep | ].
    apply H; [reflexivity | | reflexivity].
    repeat constructor.
Defined.

(** C7 as stated fails when a reference is skipped: the first surviving
    hop keeps the role of its position among the supporting facts, here
    [bridge], and no hop is the starter. *)
Lemma extract_pattern_first_surviving_not_starter :
  exists p,
    extract_pattern (fun l => l) "q1" "Where was she born?" "bridge" "easy"
      [("A", 5); ("B", 0); ("C", 0)] three_docs "Europe" = Ok p
    /\ map reference_of (hops p) = [("B", 0); ("C", 0)]
    /\ map role (hops p) = ["bridge"; "final"].
Proof. eexists. split; [vm_compute; reflexivity | split; reflexivity]. Qed.

(** ** Self-consistency voting *)

Import SelfConsistency VoteSpec.

Lemma count_of_counter_add (k x : string) (c : list (string * Z)) :
  count_of k (counter_add x c) = count_of k c + (if String.eqb x k then 1 else 0).
Proof.
  induction c as [ | [k' n] c IH]; simpl.
  - destruct (String.eqb x k); lia.
  - destruct (String.eqb k' x) eqn:E1; simpl.
    + apply String.eqb_eq in E1. subst k'.
      destruct (String.eqb x k); lia.
    + destruct (String.eqb k' k) eqn:E2; [ | exact IH].
      apply String.eqb_eq in E2. subst k'. rewrite String.eqb_sym, E1. lia.
Qed.

Lemma Counter_snoc (l : list string) (x : string) :
  Counter (l ++ [x]) = counter_add x (Counter l).
Proof. unfold Counter. now rewrite fold_left_app. Qed.

Lemma occurrences_snoc (k x : string) (l : list string) :
  occurrences k (l ++ [x]) = occurrences k l + (if String.eqb x k then 1 else 0).
Proof.
  unfold occurrences. rewrite List.filter_app, length_app. simpl.
  rewrite (String.eqb_sym k x). destruct (String.eqb x k); simpl; lia.
Qed.

Lemma count_of_Counter (k : string) (l : list string) :
  count_of k (Counter l) = occurrences k l.
Proof.
  induction l as [ | x l IH] using rev_ind; [reflexivity | ].
  now rewrite Counter_snoc, count_of_counter_add, occurrences_snoc, IH.
Qed.

Lemma keys_counter_add (x : string) (c : list (string * Z)) :
  (In x (map fst c) -> map fst (counter_add x c) = map fst c)
  /\ (~ In x (map fst c) -> map fst (counter_add x c) = map fst c ++ [x]).
Proof.
  induction c as [ | [k' n] c [IH1 IH2]]; simpl.
  - split; [tauto | reflexivity].
  - destruct (String.eqb k' x) eqn:E; simpl.
    + apply String.eqb_eq in E. subst k'. split; [reflexivity | tauto].
    + apply String.eqb_neq in E. split.
      * intros [H | H]; [contradiction | ]. now rewrite IH1.
      * intros H. rewrite IH2; [reflexivity | tauto].
Qed.

Lemma keys_Counter_In (k : string) (l : list string) :
  In k (map fst (Counter l)) <-> In k l.
Proof.
  induction l as [ | x l IH] using rev_ind; [reflexivity | ].
  rewrite Counter_snoc, in_app_iff. simpl.
  destruct (in_dec string_dec x (map fst (Counter l))) as [Hin | Hout].
  - rewrite (proj1 (keys_counter_add x _) Hin). split; [tauto | ].
    intros [H | [<- | []]]; [tauto | exact Hin].
  - rewrite (proj2 (keys_counter_add x _) Hout), in_app_iff. simpl. tauto.
Qed.

Lemma keys_Counter_NoDup (l : list string) : List.NoDup (map fst (Counter l)).
Proof.
  induction l as [ | x l IH] using rev_ind; [constructor | ].
  rewrite Counter_snoc.
  destruct (in_dec string_dec x (map fst (Counter l))) as [Hin | Hout].
  - now rewrite (proj1 (keys_counter_add x _) Hin).
  - rewrite (proj2 (keys_counter_add x _) Hout).
    apply List.NoDup_app; [exact IH | repeat constructor; simpl; tauto | ].
    intros y Hy [<- | []]. contradiction.
Qed.

Lemma count_of_In (k : string) (n : Z) (c : list (string * Z)) :
  List.NoDup (map fst c) -> In (k, n) c -> count_of k c = n.
Proof.
  induction c as [ | [k' m] c IH]; simpl; [tauto | ].
  intros Hnd [H | H].
  - injection H as -> ->. now rewrite String.eqb_refl.
  - inversion Hnd as [ | ? ? Hnot Hnd']; subst.
    destruct (String.eqb k' k) eqn:E; [ | now apply IH].
    apply String.eqb_eq in E. subst k'. exfalso. apply Hnot.
    apply in_map_iff. now exists (k, n).
Qed.

(** The keys of a counter come in the order of their first occurrence:
    whatever precedes the first occurrence of a key in the list is a key
    that precedes it in the counter. *)
Lemma keys_Counter_order (l : list string) :
  forall (kpre kpost : list string) (maj : string),
  map fst (Counter l) = kpre ++ maj :: kpost ->
  exists pre post, l = pre ++ maj :: post /\ forall y, In y pre -> In y kpre.
Proof.
  induction l as [ | x l IH] using rev_ind; intros kpre kpost maj E.
  - simpl in E. now destruct kpre.
  - rewrite Counter_snoc in E.
    destruct (in_dec string_dec x (map fst (Counter l))) as [Hin | Hout].
    + rewrite (proj1 (keys_counter_add x _) Hin) in E.
      destruct (IH _ _ _ E) as (pre & post & -> & Hpre).
      exists pre, (post ++ [x]). split; [now rewrite <- app_assoc | exact Hpre].
    + rewrite (proj2 (keys_counter_add x _) Hout) in E.
      destruct kpost as [ | z kpost' _] using rev_ind.
      * apply (app_inj_tail _ kpre x maj) in E as [E <-].
        exists l, []. split; [reflexivity | ].
        intros y Hy. rewrite <- E. now apply keys_Counter_In.
      * change (kpre ++ maj :: kpost' ++ [z]) with (kpre ++ (maj :: kpost') ++ [z]) in E.
        rewrite app_assoc in E. apply app_inj_tail in E as [E _].
        destruct (IH _ _ _ E) as (pre & post & -> & Hpre).
        exists pre, (post ++ [x]). split; [now rewrite <- app_assoc | exact Hpre].
Qed.

(** [max_by_count] returns the first item of greatest count: the items
    before it have a smaller count, those after it none greater. *)
Lemma max_by_count_first (c : list (string * Z)) :
  forall (best : string * Z) (pre0 mid : list (string * Z)),
  (forall p, In p pre0 -> snd p < snd best) ->
  (forall p, In p mid -> snd p <= snd best) ->
  exists pre post,
    pre0 ++ best :: mid ++ c = pre ++ max_by_count best c :: post
    /\ (forall p, In p pre -> snd p < snd (max_by_count best c))
    /\ (forall p, In p post -> snd p <= snd (max_by_count best c)).
Proof.
  induction c as [ | x c IH]; intros best pre0 mid Hpre Hmid; simpl.
  - exists pre0, mid. now rewrite app_nil_r.
  - destruct (snd best <? snd x) eqn:E.
    + apply Z.ltb_lt in E.
      destruct (IH x (pre0 ++ best :: mid) []) as (pre & post & Eq & H1 & H2).
      * intros p Hp. apply in_app_iff in Hp as [Hp | [<- | Hp]];
          [specialize (Hpre p Hp) | | specialize (Hmid p Hp)]; lia.
      * intros p [].
      * exists pre, post. split; [ | now split].
        rewrite <- Eq. simpl. now rewrite <- app_assoc.
    + apply Z.ltb_ge in E.
      destruct (IH best pre0 (mid ++ [x])) as (pre & post & Eq & H1 & H2).
      * exact Hpre.
      * intros p Hp. apply in_app_iff in Hp as [Hp | [<- | []]]; [now apply Hmid | lia].
      * exists pre, post. split; [ | now split].
        rewrite <- Eq. now rewrite <- app_assoc.
Qed.

(** [List.find] returns the first element that passes the test. *)
Lemma find_first {A : Type} (f : A -> bool) (l : list A) :
  (exists a, In a l /\ f a = true) ->
  exists pre x post,
    List.find f l = Some x /\ l = pre ++ x :: post /\ f x = true
    /\ forall a, In a pre -> f a = false.
Proof.
  induction l as [ | y l IH]; intros (a & Ha & Hf); [destruct Ha | ].
  simpl. destruct (f y) eqn:E.
  - exists [], y, l. repeat split; [exact E | intros b []].
  - destruct IH as (pre & x & post & Hfind & -> & Hx & Hpre).
    + destruct Ha as [-> | Ha]; [congruence | eauto].
    + exists (y :: pre), x, post. repeat split; try assumption.
      intros b [<- | Hb]; auto.
Qed.

Lemma finite_or_overflow_finite (x : spec_float) :
  (forall s, x <> S754_infinity s) ->
  PyFloat.finite_or_overflow x = Ok (SF2Prim x).
Proof. destruct x; intros H; try reflexivity. now destruct (H s). Qed.

(** A quotient that is at most one does not overflow. *)
Lemma round_ratio_sf_le_one (neg : bool) (n d : Z) :
  0 < n <= d ->
  PyFloat.finite_or_overflow (PyFloat.round_ratio_sf neg n d)
    = Ok (PyFloat.round_ratio neg n d).
Proof.
  intros Hnd. apply finite_or_overflow_finite. intros s.
  assert (Hlog : Z.log2 n - Z.log2 d - 52 < 0).
  { assert (Z.log2 n <= Z.log2 d) by (apply Z.log2_le_mono; lia). lia. }
  unfold PyFloat.round_ratio_sf.
  replace (n =? 0) with false by (symmetry; apply Z.eqb_neq; lia).
  cbv zeta.
  match goal with
  | |- context [0 <=? Z.max ?a ?b] =>
      assert (He : (0 <=? Z.max a b) = false)
  end.
  { apply Z.leb_gt.
    match goal with
    | |- context [if ?c then _ else _] => destruct c
    end; lia. }
  rewrite He. cbn [andb].
  match goal with
  | |- context [if ?c then _ else _] => destruct c
  end; discriminate.
Qed.

Lemma true_div_count (cnt total : Z) :
  0 < cnt <= total ->
  PyFloat.true_div cnt total = Ok (PyFloat.round_ratio false cnt total).
Proof.
  intros H. unfold PyFloat.true_div.
  replace (total =? 0) with false by (symmetry; apply Z.eqb_neq; lia).
  replace (cnt <? 0) with false by (symmetry; apply Z.ltb_ge; lia).
  replace (total <? 0) with false by (symmetry; apply Z.ltb_ge; lia).
  cbn [xorb].
  rewrite !Z.abs_eq by lia. now apply round_ratio_sf_le_one.
Qed.

Lemma occurrences_bounds (x : string) (l : list string) :
  0 <= occurrences x l <= Z.of_nat (length l)
  /\ (In x l -> 0 < occurrences x l).
Proof.
  unfold occurrences. split.
  - pose proof (List.filter_length_le (String.eqb x) l). lia.
  - intros H.
    assert (Hin : In x (List.filter (String.eqb x) l))
      by (apply List.filter_In; split; [exact H | apply String.eqb_refl]).
    destruct (List.filter (String.eqb x) l); [destruct Hin | simpl; lia].
Qed.

(** The winner of the vote over a non-empty list of normal forms. *)
Lemma most_common_spec (l : list string) :
  l <> [] ->
  exists maj pre post,
    most_common_1 (Counter l) = [(maj, occurrences maj l)]
    /\ l = pre ++ maj :: post
    /\ (forall y, In y pre -> occurrences y l < occurrences maj l)
    /\ (forall y, In y l -> occurrences y l <= occurrences maj l).
Proof.
  intros Hne.
  destruct (Counter l) as [ | x c] eqn:Ec.
  { destruct l as [ | a l]; [contradiction | ].
    assert (H : In a (map fst (Counter (a :: l)))) by (apply keys_Counter_In; now left).
    rewrite Ec in H. destruct H. }
  pose proof (keys_Counter_NoDup l) as Hnd. rewrite Ec in Hnd.
  assert (Hcount : forall k n, In (k, n) (x :: c) -> n = occurrences k l).
  { intros k n Hin. rewrite <- count_of_Counter, Ec. symmetry.
    now apply count_of_In. }
  destruct (max_by_count_first c x [] []) as (cpre & cpost & Eq & H1 & H2);
    [intros p [] | intros p [] | ].
  simpl in Eq. set (r := max_by_count x c) in *.
  assert (Hr : In r (x :: c)) by (rewrite Eq; apply in_elt).
  destruct r as [maj n] eqn:Er. simpl in H1, H2.
  pose proof (Hcount _ _ Hr) as ->.
  assert (Hkeys : map fst (Counter l) = map fst cpre ++ maj :: map fst cpost).
  { rewrite Ec, Eq, map_app. reflexivity. }
  destruct (keys_Counter_order l _ _ _ Hkeys) as (pre & post & El & Hpre).
  exists maj, pre, post. split; [ | split; [exact El | split]].
  - simpl. fold r. now rewrite Er.
  - intros y Hy. apply Hpre, in_map_iff in Hy as ([y' m] & Hfst & Hin).
    simpl in Hfst. subst y'.
    assert (Hin' : In (y, m) (x :: c)) by (rewrite Eq; apply in_app_iff; now left).
    rewrite <- (Hcount _ _ Hin'). now apply (H1 (y, m)).
  - intros y Hy. apply keys_Counter_In in Hy. rewrite Ec in Hy.
    apply in_map_iff in Hy as ([y' m] & Hfst & Hin). simpl in Hfst. subst y'.
    rewrite <- (Hcount _ _ Hin). rewrite Eq in Hin.
    apply in_app_iff in Hin as [Hin | [Hin | Hin]].
    + specialize (H1 _ Hin). simpl in H1. lia.
    + injection Hin as _ <-. lia.
    + now apply (H2 (y, m)).
Qed.

(** The vote over the entries that the code keeps, [kept answers]: those
    that are not empty as they stand, and [normalized answers] are their
    normal forms.  With no entry kept, [vote_answers] returns
    [(None, 0.0)].  Otherwise it returns the first entry of the input,
    trimmed, whose normal form is the winner, with the winner's count
    over the number of kept entries, rounded to a float; the winner is a
    most frequent normal form, and among those the one that occurs
    first. *)
Lemma vote_answers_spec (answers : list string) :
  (normalized answers = [] -> vote_answers answers = Ok (None, PyFloat.f0_0))
  /\ (normalized answers <> [] ->
      exists maj pre post orig before after,
        vote_answers answers =
          Ok (Some (PyStr.strip orig),
              PyFloat.round_ratio false
                (occurrences maj (normalized answers))
                (Z.of_nat (length (normalized answers))))
        /\ normalized answers = pre ++ maj :: post
        /\ (forall y, In y pre ->
              occurrences y (normalized answers) < occurrences maj (normalized answers))
        /\ (forall y, In y (normalized answers) ->
              occurrences y (normalized answers) <= occurrences maj (normalized answers))
        /\ answers = before ++ orig :: after
        /\ normalize orig = maj
        /\ (forall a, In a before -> normalize a <> maj))
  /\ vote_answers ["8"; "8"; "9"] = Ok (Some "8", 0x1.5555555555555p-1%float)
  /\ vote_answers [] = Ok (None, PyFloat.f0_0)
  /\ vote_answers [""; ""] = Ok (None, PyFloat.f0_0).
Proof.
  split; [ | split; [ | repeat split; vm_compute; reflexivity]].
  - unfold normalized, kept, vote_answers. intros ->.
    now destruct (is_nil answers).
  - intros Hne.
    destruct (most_common_spec (normalized answers) Hne)
      as (maj & pre & post & Hmc & Enorm & Hpre & Hmax).
    assert (Hin : In maj (normalized answers)) by (rewrite Enorm; apply in_elt).
    destruct (find_first (fun orig => String.eqb (normalize orig) maj) answers)
      as (before & orig & after & Hfind & Eans & Horig & Hbefore).
    { unfold normalized, kept in Hin.
      apply in_map_iff in Hin as (a & Ha & Hin).
      apply List.filter_In in Hin as [Hin _].
      exists a. split; [exact Hin | now apply String.eqb_eq]. }
    exists maj, pre, post, orig, before, after.
    split; [ | repeat split; try assumption].
    + unfold vote_answers.
      replace (is_nil answers) with false
        by (rewrite Eans; now destruct before).
      fold (kept answers). fold (normalized answers).
      replace (is_nil (normalized answers)) with false
        by (destruct (normalized answers); [contradiction | reflexivity]).
      rewrite Hmc. cbn [first bind fst snd].
      rewrite true_div_count.
      * cbn [bind]. now rewrite Hfind.
      * destruct (occurrences_bounds maj (normalized answers)) as [Hb Hpos].
        specialize (Hpos Hin). lia.
    + now apply String.eqb_eq.
    + intros a Ha. apply String.eqb_neq. now apply Hbefore.
Qed.

Lemma vote_answers_spec_witness :
  exists maj pre post orig before after,
    vote_answers ["Yes"; ""; " no"; "yes "; "NO"] =
      Ok (Some (PyStr.strip orig),
          PyFloat.round_ratio false
            (occurrences maj (normalized ["Yes"; ""; " no"; "yes "; "NO"]))
            (Z.of_nat (length (normalized ["Yes"; ""; " no"; "yes "; "NO"]))))
    /\ normalized ["Yes"; ""; " no"; "yes "; "NO"] = pre ++ maj :: post
    /\ (forall y, In y pre ->
          occurrences y (normalized ["Yes"; ""; " no"; "yes "; "NO"])
            < occurrences maj (normalized ["Yes"; ""; " no"; "yes "; "NO"]))
    /\ (forall y, In y (normalized ["Yes"; ""; " no"; "yes "; "NO"]) ->
          occurrences y (normalized ["Yes"; ""; " no"; "yes "; "NO"])
            <= occurrences maj (normalized ["Yes"; ""; " no"; "yes "; "NO"]))
    /\ ["Yes"; ""; " no"; "yes "; "NO"] = before ++ orig :: after
    /\ normalize orig = maj
    /\ (forall a, In a before -> normalize a <> maj).
Proof.
  apply (vote_answers_spec ["Yes"; ""; " no"; "yes "; "NO"]).
  vm_compute. discriminate.
Defined.

(** The entries that the code keeps are the usable ones as long as no
    entry consists of blanks. *)
Lemma normalized_without_blanks (answers : list string) :
  (forall a, In a answers -> PyStr.is_empty (normalize a) = true -> a = "") ->
  normalized answers = usable answers.
Proof.
  unfold normalized, kept, usable.
  induction answers as [ | a answers IH]; intros H; [reflexivity | ].
  cbn [List.filter map].
  assert (IH' : map normalize
                  (List.filter (fun a => negb (PyStr.is_empty a)) answers)
                = List.filter (fun a => negb (PyStr.is_empty a))
                    (map normalize answers))
    by (apply IH; intros b Hb; apply H; now right).
  destruct (PyStr.is_empty (normalize a)) eqn:En.
  - rewrite (H a (or_introl eq_refl) En). cbn [PyStr.is_empty negb]. exact IH'.
  - assert (Ea : PyStr.is_empty a = false)
      by (destruct a; [vm_compute in En; discriminate En | reflexivity]).
    rewrite Ea. cbn [negb map]. now rewrite IH'.
Qed.

(** C5, and the entries on which the code departs from it.  The examples
    of the claim hold.  An entry of blanks is empty once it is trimmed,
    so that it is no usable entry, and the claim gives [(None, 0.0)] for
    [[" "]] as for [[""]].  The code tests the entries before it trims
    them: it counts the blanks as the empty answer, which wins the vote
    against ["8"].  The voter of the QA system, which tests the answers
    that it has trimmed, returns ["8"] there. *)
Theorem vote_answers_examples_and_blanks :
  vote_answers ["8"; "8"; "9"] = Ok (Some "8", 0x1.5555555555555p-1%float)
  /\ vote_answers [] = Ok (None, PyFloat.f0_0)
  /\ vote_answers [""; ""] = Ok (None, PyFloat.f0_0)
  /\ usable [" "] = []
  /\ vote_answers [" "] = Ok (Some "", PyFloat.f1_0)
  /\ usable ["  "; " "; "8"] = ["8"]
  /\ vote_answers ["  "; " "; "8"] = Ok (Some "", 0x1.5555555555555p-1%float)
  /\ ResponseParser.majority_vote ["  "; " "; "8"] = Ok "8".
Proof. repeat split; vm_compute; reflexivity. Qed.

(** ** The semantic index *)

Import SemanticIndex IndexSpec.

Lemma insertion_order_laws : @FaissLaws insertion_order_faiss.
Proof.
  split; [reflexivity | ].
  intros rows q k Hk. unfold len in *. cbn [knn insertion_order_faiss].
  change (@vec insertion_order_faiss) with (list Z) in *.
  replace (Z.to_nat k - length rows)%nat with 0%nat by lia.
  replace (Nat.min (Z.to_nat k) (length rows)) with (Z.to_nat k) by lia.
  cbn [repeat]. rewrite app_nil_r. split; [ | split].
  - now rewrite length_map, length_seq.
  - apply Finite.Injective_map_NoDup; [ | apply seq_NoDup].
    intros a b. apply Nat2Z.inj.
  - intros i Hi. apply in_map_iff in Hi as (j & <- & Hj).
    apply in_seq in Hj. lia.
Qed.



Section IndexProperties.

Context `{L : FaissLaws}.




End IndexProperties.

Lemma nested_insert_lookup {A : Type} (M : gmap string (gmap string A))
    (m : gmap string A) (q l q' l' : string) (v : A) :
  M !! q = Some m ->
  (<[q := <[l := v]> m]> M) !! q' ≫= (.!! l') =
    if decide (q = q' /\ l = l') then Some v else M !! q' ≫= (.!! l').
Proof.
  intros HM. destruct (decide (q = q')) as [<- | Hq].
  - rewrite lookup_insert_eq, HM. cbn.
    destruct (decide (l = l')) as [<- | Hl].
    + rewrite lookup_insert_eq. now rewrite decide_True.
    + rewrite lookup_insert_ne by exact Hl. now rewrite decide_False by tauto.
  - rewrite lookup_insert_ne by exact Hq. now rewrite decide_False by tauto.
Qed.

Section BuildProperties.

Context `{F : Faiss}.

Lemma item_Ok {A : Type} (m : gmap string A) (key : string) (a : A) :
  item m key = Ok a -> m !! key = Some a.
Proof. unfold item. destruct (m !! key); now intros [= <-]. Qed.





End BuildProperties.





(** ** The persisted caches *)

Import FewShotRetriever CacheSpec.

Section CacheProperties.

Context `{F : Faiss} {U : Unpickler} `{O : FileSystem}.

Variable encode : list string -> ndarray.

(** The checks of [_compute_embeddings] pass when the encoder returns
    one row for each question: what remains is the writing of the
    cache. *)
Lemma compute_embeddings_writes (self : state) (cols : Z) :
  shape (encode (map fst (training_data self))) =
    [Z.of_nat (length (training_data self)); cols] ->
  _compute_embeddings encode self =
    let embeddings := as_float32 (encode (map fst (training_data self))) in
    let* _ := makedirs (dirname (cache_path self)) in
    let* _ := dump (cache_path self) embeddings in
    Ok (embeddings,
        {| training_data := training_data self;
           cache_path := cache_path self;
           cache_file := Some (CArray embeddings) |}).
Proof.
  intros Hs. unfold _compute_embeddings, ndim, shape0, as_float32.
  cbn [shape arr_dtype]. rewrite Hs.
  replace (Z.of_nat (length [Z.of_nat (length (training_data self)); cols]) =? 1)
    with false by reflexivity.
  cbn [shape arr_dtype bind dtype_eqb orb negb].
  now rewrite length_map, Z.eqb_refl.
Qed.


(** The cache cannot be written under a path without a directory part:
    [os.makedirs] is called on the empty path, on which it raises. *)
Lemma compute_embeddings_bare_name (self : state) (cols : Z) :
  makedirs "" = Raise FileNotFoundError ->
  dirname (cache_path self) = "" ->
  shape (encode (map fst (training_data self))) =
    [Z.of_nat (length (training_data self)); cols] ->
  _compute_embeddings encode self = Raise FileNotFoundError.
Proof.
  intros Hos Hdir Hs. rewrite (compute_embeddings_writes self cols Hs).
  cbv zeta. now rewrite Hdir, Hos.
Qed.


End CacheProperties.


(** With a cache path that has no directory part, as [emb.pkl], a
    rejected cache is removed and the recomputation raises. *)
Lemma recompute_without_directory :
  dirname "emb.pkl" = ""
  /\ _load_or_compute_embeddings three_columns
       {| training_data := two_questions; cache_path := "emb.pkl";
          cache_file := Some stale_cache |}
     = Raise FileNotFoundError.
Proof. split; vm_compute; reflexivity. Qed.


(** * Further properties *)

Import MoreSamples.

(** ** The verifier, beyond its decision table *)

(** X1.  Whatever [verify] returns, the answer is that of a candidate
    that succeeded, under a method label of that candidate, or the
    fallback ["0"] when both failed: the value of a failed candidate is
    never selected. *)
Theorem verify_selects_a_successful_candidate (self : Verifier)
    (pal cot : gmap string value) (question : string) (r : Reconciliation) :
  verify self pal cot question = Ok r ->
  (pal_succeeded pal = true
   /\ final_answer r = str (answer_of pal)
   /\ In (method r)
        ["both_agree"; "pal_simple_arithmetic"; "pal_default"; "pal_only"])
  \/ (cot_succeeded cot = true
      /\ final_answer r = str (answer_of cot)
      /\ In (method r)
           ["cot_complex_problem"; "cot_high_confidence";
            "cot_medium_confidence"; "cot_only"])
  \/ (pal_succeeded pal = false /\ cot_succeeded cot = false
      /\ final_answer r = "0" /\ method r = "fallback").
Proof.
  unfold verify, pal_succeeded, cot_succeeded, answer_of, max2.
  destruct (truthy (get pal "success" (VBool false)));
    destruct (negb (is_none (get cot "result" VNone))); cbn [andb];
    repeat match goal with
      | |- context [bind ?x _] => destruct x as [[] | ]; cbn [bind]
      | |- context [if ?b then _ else _] => destruct b
      end;
    intros H; inversion H; subst; cbn [final_answer method];
    try (left; repeat split; simpl; tauto);
    try (right; left; repeat split; simpl; tauto);
    right; right; repeat split.
Qed.

Lemma verify_selects_a_successful_candidate_witness :
  let r := {| final_answer := "13"; method := "cot_medium_confidence";
              confidence := VFloat f0_66 |} in
  let pal := disagree_pal in
  let cot := disagree_cot f0_66 in
  (pal_succeeded pal = true
   /\ final_answer r = str (answer_of pal)
   /\ In (method r)
        ["both_agree"; "pal_simple_arithmetic"; "pal_default"; "pal_only"])
  \/ (cot_succeeded cot = true
      /\ final_answer r = str (answer_of cot)
      /\ In (method r)
           ["cot_complex_problem"; "cot_high_confidence";
            "cot_medium_confidence"; "cot_only"])
  \/ (pal_succeeded pal = false /\ cot_succeeded cot = false
      /\ final_answer r = "0" /\ method r = "fallback").
Proof.
  apply (verify_selects_a_successful_candidate default_verifier disagree_pal
           (disagree_cot f0_66) "What is it?").
  vm_compute. reflexivity.
Defined.

Lemma leb_SFleb_const (a b c : float) (ma mb : positive) (e : Z) :
  Prim2SF a = S754_finite false ma e ->
  Prim2SF b = S754_finite false mb e ->
  (ma <= mb)%positive ->
  PrimFloat.leb b c = true -> PrimFloat.leb a c = true.
Proof.
  intros Ha Hb Hm. rewrite !FloatAxioms.leb_spec, Ha, Hb.
  destruct (Prim2SF c) as [s | s | | s m e']; cbn; try congruence.
  destruct s; [congruence | ].
  destruct (Z.compare e e'); try congruence.
  change (PosDef.Pos.compare_cont Eq mb m) with (Pos.compare mb m).
  change (PosDef.Pos.compare_cont Eq ma m) with (Pos.compare ma m).
  destruct (Pos.compare_spec mb m), (Pos.compare_spec ma m);
    try congruence; lia.
Qed.

Lemma ltb_leb (a c : float) : PrimFloat.ltb a c = true -> PrimFloat.leb a c = true.
Proof.
  rewrite FloatAxioms.ltb_spec, FloatAxioms.leb_spec. unfold SFltb, SFleb.
  now destruct (SFcompare (Prim2SF a) (Prim2SF c)) as [[] | ].
Qed.

(** X2.  When the chain-of-thought confidence is a float, so is the
    confidence that [verify] returns; it is [0.0] exactly for the
    fallback and at least [0.6] for every other method, and it does not
    exceed [1.0] unless the chain-of-thought confidence does. *)
Theorem verify_confidence_floor (self : Verifier)
    (pal cot : gmap string value) (question : string) (c : float)
    (r : Reconciliation) :
  confidence_of cot = VFloat c ->
  verify self pal cot question = Ok r ->
  exists f, confidence r = VFloat f
    /\ (if String.eqb (method r) "fallback" then f = PyFloat.f0_0
        else PrimFloat.leb PyFloat.f0_6 f = true)
    /\ (PrimFloat.leb c PyFloat.f1_0 = true ->
        PrimFloat.leb f PyFloat.f1_0 = true).
Proof.
  unfold confidence_of. intros Hc. unfold verify. rewrite Hc.
  rewrite !ge_float_float, max2_float_float.
  assert (H65 : PrimFloat.leb PyFloat.f0_65 c = true ->
                PrimFloat.leb PyFloat.f0_6 c = true).
  { eapply leb_SFleb_const; [reflexivity | reflexivity | ]. vm_compute. discriminate. }
  assert (H70 : PrimFloat.leb PyFloat.f0_7 c = true ->
                PrimFloat.leb PyFloat.f0_6 c = true).
  { eapply leb_SFleb_const; [reflexivity | reflexivity | ]. vm_compute. discriminate. }
  destruct (truthy _); destruct (negb _); cbn [andb].
  - destruct (String.eqb _ _).
    { intros [= <-]. eexists. repeat split. }
    destruct (_is_complex_word_problem question); cbn [bind].
    + destruct (PrimFloat.leb PyFloat.f0_65 c) eqn:E65.
      { intros [= <-]. eexists. split; [reflexivity | ]. cbn. auto. }
      destruct (_ && _ && _).
      { intros [= <-]. eexists. repeat split. }
      destruct (PrimFloat.leb PyFloat.f0_7 c) eqn:E70.
      { intros [= <-]. eexists. split; [reflexivity | ]. cbn. auto. }
      destruct (PrimFloat.leb PyFloat.f0_6 c) eqn:E60; intros [= <-]; eexists;
        (split; [reflexivity | ]); cbn; auto.
    + destruct (_ && _ && _).
      { intros [= <-]. eexists. repeat split. }
      destruct (PrimFloat.leb PyFloat.f0_7 c) eqn:E70.
      { intros [= <-]. eexists. split; [reflexivity | ]. cbn. auto. }
      destruct (PrimFloat.leb PyFloat.f0_6 c) eqn:E60; intros [= <-]; eexists;
        (split; [reflexivity | ]); cbn; auto.
  - intros [= <-]. eexists. repeat split.
  - cbn [bind]. intros [= <-]. eexists. split; [reflexivity | ].
    cbn [method confidence String.eqb Ascii.eqb Bool.eqb].
    unfold float_max.
    destruct (PrimFloat.ltb PyFloat.f0_6 c) eqn:E; split; auto using ltb_leb.
  - intros [= <-]. eexists. repeat split.
Qed.

Lemma verify_confidence_floor_witness :
  exists f, VFloat f0_66 = VFloat f
    /\ PrimFloat.leb PyFloat.f0_6 f = true
    /\ (PrimFloat.leb f0_66 PyFloat.f1_0 = true ->
        PrimFloat.leb f PyFloat.f1_0 = true).
Proof.
  apply (verify_confidence_floor default_verifier disagree_pal
           (disagree_cot f0_66) "What is it?" f0_66
           {| final_answer := "13"; method := "cot_medium_confidence";
              confidence := VFloat f0_66 |});
    vm_compute; reflexivity.
Defined.

Lemma lower_char_idempotent (c : ascii) :
  PyStr.lower_char (PyStr.lower_char c) = PyStr.lower_char c.
Proof. destruct c as [[] [] [] [] [] [] [] []]; reflexivity. Qed.

Lemma lower_idempotent (s : string) : PyStr.lower (PyStr.lower s) = PyStr.lower s.
Proof.
  induction s as [ | c s IH]; [reflexivity | ].
  cbn [PyStr.lower]. now rewrite lower_char_idempotent, IH.
Qed.

Lemma lower_filter_chars (keep : ascii -> bool) (s : string) :
  (forall c, keep (PyStr.lower_char c) = keep c) ->
  PyStr.lower (PyStr.filter_chars keep s) = PyStr.filter_chars keep (PyStr.lower s).
Proof.
  intros Hk. induction s as [ | c s IH]; [reflexivity | ].
  cbn [PyStr.lower PyStr.filter_chars]. rewrite Hk.
  destruct (keep c); cbn [PyStr.lower]; now rewrite IH.
Qed.

Lemma filter_chars_id (keep : ascii -> bool) (s : string) :
  (forall c, In c (list_ascii_of_string s) -> keep c = true) ->
  PyStr.filter_chars keep s = s.
Proof.
  induction s as [ | c s IH]; intros H; [reflexivity | ].
  cbn [PyStr.filter_chars]. rewrite (H c) by now left.
  rewrite IH; [reflexivity | ]. intros x Hx. apply H. now right.
Qed.

Lemma rstrip_id (s : string) :
  (forall c, In c (list_ascii_of_string s) -> PyStr.isspace c = false) ->
  PyStr.rstrip s = s.
Proof.
  induction s as [ | c s IH]; intros H; [reflexivity | ].
  cbn [PyStr.rstrip]. rewrite IH by (intros x Hx; apply H; now right).
  destruct s; [ | reflexivity]. now rewrite (H c) by now left.
Qed.

Lemma strip_id (s : string) :
  (forall c, In c (list_ascii_of_string s) -> PyStr.isspace c = false) ->
  PyStr.strip s = s.
Proof.
  intros H. unfold PyStr.strip.
  replace (PyStr.lstrip s) with s; [now apply rstrip_id | ].
  destruct s as [ | c s]; [reflexivity | ].
  cbn [PyStr.lstrip]. now rewrite (H c) by now left.
Qed.

(** X3.  The normal form that the verifier compares is a fixed point of
    the normalisation: normalising it again changes nothing. *)
Theorem normal_form_idempotent (answer : value) :
  _normalize_answer (VStr (_normalize_answer answer)) = _normalize_answer answer.
Proof.
  set (t := _normalize_answer answer).
  assert (Hchars : forall c, In c (list_ascii_of_string t) ->
            PyStr.isspace c = false /\ Ascii.eqb c "%" = false
            /\ Ascii.eqb c "$" = false /\ Ascii.eqb c "," = false).
  { intros c Hc. unfold t, _normalize_answer, PyStr.remove_spaces, PyStr.remove_char in Hc.
    apply filter_chars_spec in Hc as [H1 Hc].
    apply filter_chars_spec in Hc as [H2 Hc].
    apply filter_chars_spec in Hc as [H3 Hc].
    apply filter_chars_spec in Hc as [H4 Hc].
    repeat split; now apply negb_true_iff. }
  assert (Hlower : PyStr.lower t = t).
  { unfold t, _normalize_answer, PyStr.remove_spaces, PyStr.remove_char.
    rewrite !lower_filter_chars, lower_idempotent; [reflexivity | | | | ];
      intros c; destruct c as [[] [] [] [] [] [] [] []]; reflexivity. }
  unfold _normalize_answer at 1. cbn [str].
  rewrite strip_id by (intros c Hc; now apply Hchars).
  rewrite Hlower.
  unfold PyStr.remove_spaces, PyStr.remove_char.
  do 4 (rewrite (filter_chars_id _ t)
          by (intros c Hc; apply negb_true_iff;
              destruct (Hchars c Hc) as (? & ? & ? & ?); assumption)).
  reflexivity.
Qed.

(** ** The vote, beyond its result *)

Lemma lower_empty (s : string) : PyStr.lower s = "" -> s = "".
Proof. now destruct s. Qed.

Lemma kept_idempotent (answers : list string) : kept (kept answers) = kept answers.
Proof.
  unfold kept. induction answers as [ | a l IH]; [reflexivity | ].
  cbn [List.filter]. destruct (negb (PyStr.is_empty a)) eqn:E; [ | exact IH].
  cbn [List.filter]. now rewrite E, IH.
Qed.

Lemma find_kept (maj : string) (answers : list string) :
  match List.find (fun orig => String.eqb (normalize orig) maj) (kept answers) with
  | Some orig => PyStr.strip orig
  | None => maj
  end =
  match List.find (fun orig => String.eqb (normalize orig) maj) answers with
  | Some orig => PyStr.strip orig
  | None => maj
  end.
Proof.
  unfold kept. induction answers as [ | a l IH]; [reflexivity | ].
  cbn [List.filter List.find].
  destruct a as [ | c a]; cbn [PyStr.is_empty negb].
  - change (normalize "") with "".
    destruct (String.eqb "" maj) eqn:E; [ | exact IH].
    apply String.eqb_eq in E. subst maj.
    destruct (List.find _ (List.filter _ l)) as [x | ] eqn:Ex; [ | reflexivity].
    apply List.find_some in Ex as [_ Ex]. apply String.eqb_eq in Ex.
    unfold normalize in Ex. now apply lower_empty in Ex.
  - cbn [List.find]. now destruct (String.eqb _ maj).
Qed.

(** X4.  Empty strings never influence the vote: removing them from the
    input leaves the result of [vote_answers] unchanged. *)
Theorem vote_answers_ignores_empty (answers : list string) :
  vote_answers (kept answers) = vote_answers answers.
Proof.
  unfold vote_answers. fold (kept answers). fold (kept (kept answers)).
  rewrite kept_idempotent.
  destruct answers as [ | a l]; [reflexivity | ].
  cbn [is_nil].
  destruct (kept (a :: l)) as [ | b k] eqn:Ek; [reflexivity | ].
  cbn [is_nil]. rewrite <- Ek.
  destruct (is_nil (map normalize (kept (a :: l)))); [reflexivity | ].
  destruct (first _) as [top | e]; [ | reflexivity]. cbn [bind].
  destruct (PyFloat.true_div _ _) as [conf | e]; [ | reflexivity]. cbn [bind].
  pose proof (find_kept (fst top) (a :: l)) as H.
  destruct (List.find _ (kept (a :: l))), (List.find _ (a :: l)); congruence.
Qed.

Lemma round_ratio_same (n : Z) : 0 < n -> PyFloat.round_ratio false n n = PyFloat.f1_0.
Proof.
  intros Hn. unfold PyFloat.round_ratio.
  replace (PyFloat.round_ratio_sf false n n)
    with (S754_finite false (Z.to_pos (2 ^ 52)) (-52)); [reflexivity | ].
  unfold PyFloat.round_ratio_sf.
  replace (n =? 0) with false by (symmetry; apply Z.eqb_neq; lia).
  rewrite Z.sub_diag. change (0 - 52) with (-52).
  change (0 <=? -52) with false. cbn [fst snd]. change (- -52) with 52.
  rewrite Z.ltb_irrefl. change (Z.max (-52) (-1074)) with (-52).
  change (0 <=? -52) with false. cbn [fst snd andb]. change (- -52) with 52.
  rewrite (Z.mul_comm n (2 ^ 52)), Z.div_mul, Z.mod_mul by lia.
  replace (n <? 2 * 0) with false by (symmetry; apply Z.ltb_ge; lia).
  replace (n =? 2 * 0) with false by (symmetry; apply Z.eqb_neq; lia).
  reflexivity.
Qed.

(** X5.  A unanimous vote has confidence exactly [1.0]: when every
    non-empty entry has the same normal form, [vote_answers] returns the
    first entry with that normal form, trimmed, together with [1.0]. *)
Theorem vote_answers_unanimous (answers : list string) (m : string) :
  kept answers <> [] ->
  (forall a, In a (kept answers) -> normalize a = m) ->
  exists before orig after,
    vote_answers answers = Ok (Some (PyStr.strip orig), PyFloat.f1_0)
    /\ answers = before ++ orig :: after
    /\ normalize orig = m
    /\ (forall a, In a before -> a = "").
Proof.
  intros Hne Hall.
  assert (Hnorm : normalized answers <> []).
  { unfold normalized. destruct (kept answers); [contradiction | discriminate]. }
  assert (Hm : forall y, In y (normalized answers) -> y = m).
  { unfold normalized. intros y Hy. apply in_map_iff in Hy as (a & <- & Ha). auto. }
  destruct (most_common_spec (normalized answers) Hnorm)
    as (maj & pre & post & Hmc & Enorm & _ & _).
  assert (Hin : In maj (normalized answers)) by (rewrite Enorm; apply in_elt).
  assert (maj = m) by auto. subst maj.
  assert (Hocc : occurrences m (normalized answers)
                 = Z.of_nat (length (normalized answers))).
  { unfold occurrences. f_equal. f_equal.
    clear -Hm. induction (normalized answers) as [ | y l IH]; [reflexivity | ].
    cbn [List.filter]. rewrite (Hm y) by now left. rewrite String.eqb_refl.
    f_equal. apply IH. intros z Hz. apply Hm. now right. }
  destruct (find_first (fun orig => String.eqb (normalize orig) m) answers)
    as (before & orig & after & Hfind & Eans & Horig & Hbefore).
  { unfold normalized, kept in Hin.
    apply in_map_iff in Hin as (a & Ha & Hin).
    apply List.filter_In in Hin as [Hin _].
    exists a. split; [exact Hin | now apply String.eqb_eq]. }
  exists before, orig, after. repeat split; try assumption.
  - unfold vote_answers.
    replace (is_nil answers) with false by (rewrite Eans; now destruct before).
    fold (kept answers). fold (normalized answers).
    replace (is_nil (normalized answers)) with false
      by (destruct (normalized answers); [contradiction | reflexivity]).
    rewrite Hmc. cbn [first bind fst snd].
    rewrite Hocc, true_div_count.
    + cbn [bind]. rewrite Hfind. f_equal. f_equal. apply round_ratio_same.
      destruct (normalized answers); [contradiction | cbn [length]; lia].
    + destruct (normalized answers); [contradiction | cbn [length]; lia].
  - now apply String.eqb_eq.
  - intros a Ha. destruct a as [ | c a]; [reflexivity | exfalso].
    specialize (Hbefore _ Ha). apply String.eqb_neq in Hbefore. apply Hbefore.
    apply Hall. unfold kept. apply List.filter_In. split; [ | reflexivity].
    rewrite Eans. apply in_or_app. now left.
Qed.

Lemma vote_answers_unanimous_witness :
  exists before orig after,
    vote_answers [""; " Yes"; "yes "; "YES"] = Ok (Some (PyStr.strip orig), PyFloat.f1_0)
    /\ [""; " Yes"; "yes "; "YES"] = before ++ orig :: after
    /\ normalize orig = "yes"
    /\ (forall a, In a before -> a = "").
Proof.
  apply (vote_answers_unanimous [""; " Yes"; "yes "; "YES"] "yes").
  - vm_compute. discriminate.
  - intros a Ha. vm_compute in Ha.
    destruct Ha as [<- | [<- | [<- | []]]]; reflexivity.
Defined.

(** ** The normaliser, beyond its examples *)


Lemma digits2_pos_bound (m : positive) :
  Zpos m < 2 ^ Zpos (digits2_pos m).
Proof.
  induction m as [m IH | m IH | ]; cbn [digits2_pos];
    rewrite ?Pos2Z.inj_succ, ?Z.pow_succ_r by lia; lia.
Qed.

Lemma valid_finite_bounds (f : float) (s : bool) (m : positive) (e : Z) :
  Prim2SF f = S754_finite s m e -> Zpos m < 2 ^ 53 /\ e <= 971.
Proof.
  intros E. pose proof (Prim2SF_valid f) as Hv. rewrite E in Hv.
  unfold valid_binary, bounded, canonical_mantissa, fexp in Hv.
  apply andb_true_iff in Hv as [Hc He].
  apply Z.eqb_eq in Hc. apply Z.leb_le in He.
  change (emax - prec) with 971 in He. change prec with 53 in Hc.
  split; [ | exact He].
  pose proof (digits2_pos_bound m) as Hd.
  assert (Zpos (digits2_pos m) <= 53) by lia.
  assert (2 ^ Zpos (digits2_pos m) <= 2 ^ 53) by (apply Z.pow_le_mono_r; lia).
  lia.
Qed.

(** An integer with at most 53 significant bits below [2^1024] converts
    to a float without overflow. *)
Lemma round_int_finite (neg : bool) (n k : Z) (s : bool) :
  0 < n < 2 ^ 53 -> 0 <= k <= 971 ->
  PyFloat.round_ratio_sf neg (n * 2 ^ k) 1 <> S754_infinity s.
Proof.
  intros Hn Hk.
  assert (Hpow : 0 < 2 ^ k) by (apply Z.pow_pos_nonneg; lia).
  assert (Hlog : Z.log2 (n * 2 ^ k) = k + Z.log2 n) by (apply Z.log2_mul_pow2; lia).
  assert (HL : 0 <= Z.log2 n < 53).
  { split; [apply Z.log2_nonneg | apply Z.log2_lt_pow2; lia]. }
  unfold PyFloat.round_ratio_sf.
  replace (n * 2 ^ k =? 0) with false by (symmetry; apply Z.eqb_neq; nia).
  rewrite Hlog. change (Z.log2 1) with 0.
  cbv zeta.
  destruct (0 <=? k + Z.log2 n - 0 - 52) eqn:HE; cbn [fst snd].
  - pose proof HE as HEb. apply Z.leb_le in HE.
    assert (Hsplit : n * 2 ^ k
                     = n * 2 ^ (52 - Z.log2 n) * (1 * 2 ^ (k + Z.log2 n - 0 - 52))).
    { rewrite Z.mul_1_l, <- Z.mul_assoc, <- Z.pow_add_r by lia. do 2 f_equal. lia. }
    assert (Hlow : 2 ^ 52 <= n * 2 ^ (52 - Z.log2 n)).
    { replace 52 with (Z.log2 n + (52 - Z.log2 n)) at 1 by lia.
      rewrite Z.pow_add_r by lia.
      apply Z.mul_le_mono_nonneg_r; [apply Z.pow_nonneg; lia | ].
      apply Z.log2_spec; lia. }
    assert (Hb : 0 < 1 * 2 ^ (k + Z.log2 n - 0 - 52))
      by (rewrite Z.mul_1_l; apply Z.pow_pos_nonneg; lia).
    replace (n * 2 ^ k <? 1 * 2 ^ (k + Z.log2 n - 0 - 52) * 2 ^ 52) with false
      by (symmetry; apply Z.ltb_ge; rewrite Hsplit; nia).
    rewrite Z.max_l by lia. rewrite HEb. cbn [fst snd andb].
    rewrite Hsplit.
    rewrite Z.mod_mul, Z.div_mul by lia.
    replace (1 * 2 ^ (k + Z.log2 n - 0 - 52) <? 2 * 0) with false
      by (symmetry; apply Z.ltb_ge; lia).
    replace (1 * 2 ^ (k + Z.log2 n - 0 - 52) =? 2 * 0) with false
      by (symmetry; apply Z.eqb_neq; lia).
    destruct (_ =? 0); [discriminate | ].
    replace (2 ^ 1024 <=? _) with false; [discriminate | ].
    symmetry. apply Z.leb_gt.
    assert (2 ^ k <= 2 ^ 971) by (apply Z.pow_le_mono_r; lia).
    assert (H1024 : 2 ^ 53 * 2 ^ 971 = 2 ^ 1024) by (rewrite <- Z.pow_add_r by lia; reflexivity).
    rewrite Z.mul_1_l in *. rewrite <- Hsplit. nia.
  - apply Z.leb_gt in HE.
    match goal with
    | |- context [0 <=? Z.max ?a ?b] =>
        assert (He : (0 <=? Z.max a b) = false)
    end.
    { apply Z.leb_gt.
      match goal with
      | |- context [if ?c then _ else _] => destruct c
      end; lia. }
    rewrite He. cbn [andb].
    match goal with
    | |- context [if ?c then _ else _] => destruct c
    end; discriminate.
Qed.

(** [float(int(x))] does not overflow. *)
Lemma of_int_to_int (f : float) (z : Z) :
  PyFloat.to_int f = Ok z -> exists g, PyFloat.of_int z = Ok g.
Proof.
  unfold PyFloat.to_int.
  destruct (Prim2SF f) as [s | s | | s m e] eqn:E; try discriminate.
  { intros [= <-]. eexists. reflexivity. }
  destruct (valid_finite_bounds f s m e E) as [Hm He].
  intros [= <-].
  set (a := if 0 <=? e then Z.pos m * 2 ^ e else Z.pos m / 2 ^ (- e)).
  assert (Ha : a = 0 \/ exists n k, a = n * 2 ^ k /\ 0 < n < 2 ^ 53 /\ 0 <= k <= 971).
  { unfold a. destruct (0 <=? e) eqn:E0.
    - apply Z.leb_le in E0. right. exists (Z.pos m), e. repeat split; lia.
    - apply Z.leb_gt in E0.
      assert (Hp : 0 < 2 ^ (- e)) by (apply Z.pow_pos_nonneg; lia).
      assert (Hq : 0 <= Z.pos m / 2 ^ (- e) <= Z.pos m).
      { split; [apply Z.div_pos; lia | ].
        apply Z.div_le_upper_bound; [lia | ]. nia. }
      destruct (Z.eq_dec (Z.pos m / 2 ^ (- e)) 0) as [-> | Hne]; [now left | ].
      right. exists (Z.pos m / 2 ^ (- e)), 0. rewrite Z.mul_1_r. repeat split; lia. }
  unfold PyFloat.of_int.
  assert (Habs : Z.abs (if s then - a else a) = a).
  { destruct Ha as [-> | (n & k & -> & Hn & Hk)]; [now destruct s | ].
    assert (0 < 2 ^ k) by (apply Z.pow_pos_nonneg; lia).
    destruct s; [rewrite Z.abs_opp | ]; apply Z.abs_eq; nia. }
  rewrite Habs.
  destruct Ha as [-> | (n & k & -> & Hn & Hk)].
  { eexists. reflexivity. }
  pose proof (round_int_finite ((if s then - (n * 2 ^ k) else n * 2 ^ k) <? 0) n k) as Hfin.
  destruct (PyFloat.round_ratio_sf _ (n * 2 ^ k) 1) as [ | s' | | ];
    try (eexists; reflexivity).
  now destruct (Hfin s').
Qed.

Lemma infinity_cases (f : float) (s : bool) :
  Prim2SF f = S754_infinity s -> f = if s then neg_infinity else infinity.
Proof. intros E. apply Prim2SF_inj. rewrite E. now destruct s. Qed.

(** X6.  The only exception that leaves [normalize_answer] is
    [OverflowError], and it does so only for an answer whose number text
    reads as an infinity; any other answer gives a result. *)
Theorem normalize_answer_raises_only_on_infinity (answer question : string)
    (e : exn) :
  normalize_answer answer question = Raise e ->
  e = OverflowError
  /\ (PyFloat.of_string (num_str_of (clean answer)) = Some infinity
      \/ PyFloat.of_string (num_str_of (clean answer)) = Some neg_infinity).
Proof.
  unfold normalize_answer, parse_number, float_of.
  assert (Hint : forall f err, PyFloat.to_int f = Raise err ->
            err = ValueError \/ err = OverflowError /\ (f = infinity \/ f = neg_infinity)).
  { intros f err. unfold PyFloat.to_int.
    destruct (Prim2SF f) as [s | s | | s m e'] eqn:E; try discriminate.
    - intros [= <-]. right. split; [reflexivity | ].
      apply infinity_cases in E. destruct s; auto.
    - intros [= <-]. now left. }
  destruct (PyFloat.of_string (num_str_of (clean answer))) as [f | ];
    [ | destruct (_ || _); discriminate].
  destruct (_ || _); cbn [bind].
  - unfold format_number.
    destruct (PyStr.contains "how many" _).
    { cbn [int_of]. destruct (PyFloat.to_int f) as [z | err] eqn:Ez; [discriminate | ].
      destruct (Hint f err Ez) as [-> | [-> Hf]]; [discriminate | ].
      cbn. intros [= <-]. split; [reflexivity | ]. destruct Hf as [-> | ->]; auto. }
    destruct (is_currency_question question); [discriminate | ].
    cbn [is_whole_float int_of str_num].
    destruct (PyFloat.is_integer f) eqn:Ei; [ | discriminate].
    unfold PyFloat.to_int. unfold PyFloat.is_integer in Ei.
    destruct (Prim2SF f); discriminate.
  - destruct (PyFloat.to_int f) as [z | err] eqn:Ez; cbn [bind].
    + unfold format_number. cbn [int_of is_whole_float str_num Normalizer.format_2f bind].
      destruct (PyStr.contains "how many" _); [discriminate | ].
      destruct (is_currency_question question); [ | discriminate].
      destruct (of_int_to_int f z Ez) as [g ->]. discriminate.
    + destruct (Hint f err Ez) as [-> | [-> Hf]]; [discriminate | ].
      cbn. intros [= <-]. split; [reflexivity | ]. destruct Hf as [-> | ->]; auto.
Qed.

Lemma normalize_answer_raises_only_on_infinity_witness :
  OverflowError = OverflowError
  /\ (PyFloat.of_string (num_str_of (clean "-Infinity")) = Some infinity
      \/ PyFloat.of_string (num_str_of (clean "-Infinity")) = Some neg_infinity).
Proof.
  apply (normalize_answer_raises_only_on_infinity "-Infinity" "What is the limit?").
  vm_compute. reflexivity.
Defined.

Lemma In_lstrip (c : ascii) (s : string) :
  In c (list_ascii_of_string (PyStr.lstrip s)) -> In c (list_ascii_of_string s).
Proof.
  induction s as [ | a s IH]; [tauto | ].
  cbn [PyStr.lstrip]. destruct (PyStr.isspace a); [ | tauto].
  intros H. right. auto.
Qed.

Lemma In_rstrip (c : ascii) (s : string) :
  In c (list_ascii_of_string (PyStr.rstrip s)) -> In c (list_ascii_of_string s).
Proof.
  induction s as [ | a s IH]; [tauto | ].
  cbn [PyStr.rstrip]. destruct (PyStr.rstrip s) as [ | b r].
  - destruct (PyStr.isspace a); simpl; tauto.
  - intros [<- | H]; [now left | right; auto].
Qed.

Lemma In_strip (c : ascii) (s : string) :
  In c (list_ascii_of_string (PyStr.strip s)) -> In c (list_ascii_of_string s).
Proof. intros H. now apply In_lstrip, In_rstrip. Qed.

Lemma In_remove_all (c : ascii) (old s : string) :
  In c (list_ascii_of_string (PyStr.remove_all old s)) -> In c (list_ascii_of_string s).
Proof.
  unfold PyStr.remove_all. destruct old as [ | o old]; [tauto | ].
  generalize (String o old) as p. intros p. generalize O as skip.
  induction s as [ | a s IH]; intros skip; [tauto | ].
  cbn [PyStr.remove_all_from]. destruct skip as [ | k].
  - destruct (PyStr.startswith p (String a s)).
    + intros H. right. eauto.
    + intros [<- | H]; [now left | right; eauto].
  - intros H. right. eauto.
Qed.

Lemma In_sub_hashes (c : ascii) (s : string) :
  In c (list_ascii_of_string (PyStr.sub_hashes s)) -> In c (list_ascii_of_string s).
Proof.
  unfold PyStr.sub_hashes. generalize O as skip, false as ws.
  induction s as [ | a s IH]; intros skip ws; [tauto | ].
  cbn [PyStr.sub_hashes_from]. destruct skip as [ | k].
  - destruct (ws && PyStr.isspace a); [intros H; right; eauto | ].
    destruct (PyStr.startswith "####" (String a s)).
    + intros H. right. eauto.
    + intros [<- | H]; [now left | right; eauto].
  - intros H. right. eauto.
Qed.

(** X7.  An answer whose number text does not read as a float comes back
    as its cleaned text, whatever the question: every character of the
    result occurs in the answer, and none of them is an asterisk, a
    backquote or a square bracket. *)
Theorem normalize_answer_text (answer question : string) :
  PyFloat.of_string (num_str_of (clean answer)) = None ->
  normalize_answer answer question = Ok (PyStr.strip (clean answer))
  /\ forall c, In c (list_ascii_of_string (PyStr.strip (clean answer))) ->
       In c (list_ascii_of_string answer)
       /\ c <> "*"%char /\ c <> "`"%char /\ c <> "["%char /\ c <> "]"%char.
Proof.
  intros Hnone. split.
  - unfold normalize_answer, parse_number, float_of. rewrite Hnone.
    now destruct (_ || _).
  - intros c Hc. apply In_strip in Hc. unfold clean in Hc.
    apply In_remove_all, In_remove_all, filter_chars_spec in Hc as [Hkeep Hc].
    apply In_sub_hashes, In_strip in Hc. split; [exact Hc | ].
    apply negb_true_iff in Hkeep.
    repeat split; intros ->; discriminate Hkeep.
Qed.

Lemma normalize_answer_text_witness :
  normalize_answer "**[seven]** apples" "How many apples?"
    = Ok (PyStr.strip (clean "**[seven]** apples"))
  /\ forall c, In c (list_ascii_of_string (PyStr.strip (clean "**[seven]** apples"))) ->
       In c (list_ascii_of_string "**[seven]** apples")
       /\ c <> "*"%char /\ c <> "`"%char /\ c <> "["%char /\ c <> "]"%char.
Proof.
  apply (normalize_answer_text "**[seven]** apples" "How many apples?").
  vm_compute. reflexivity.
Defined.

(** ** The pattern extractor, beyond the roles *)

Import HopBounds.

Lemma getitem_cases {A : Type} (l : list A) (i : Z) :
  (- len l <= i < len l ->
   exists x, getitem l i = Ok x /\ l !! position l i = Some x)
  /\ (~ (- len l <= i < len l) -> getitem l i = Raise IndexError).
Proof.
  unfold getitem, position.
  set (j := if i <? 0 then len l + i else i).
  assert (Hj : (- len l <= i < len l) <-> 0 <= j < len l).
  { unfold j, len. destruct (i <? 0) eqn:E;
      [apply Z.ltb_lt in E | apply Z.ltb_ge in E]; lia. }
  split; intros H.
  - apply Hj in H.
    replace ((j <? 0) || (len l <=? j)) with false.
    2:{ symmetry. apply orb_false_iff. split; [apply Z.ltb_ge | apply Z.leb_gt]; lia. }
    destruct (l !! Z.to_nat j) as [x | ] eqn:E; [eauto | ].
    apply lookup_ge_None in E. unfold len in H. lia.
  - rewrite Hj in H.
    destruct (j <? 0) eqn:E1; [reflexivity | ].
    destruct (len l <=? j) eqn:E2; [reflexivity | ].
    apply Z.ltb_ge in E1. apply Z.leb_gt in E2. lia.
Qed.

Section ExtractorInvariants.

Variable set_order : list string -> list string.

Lemma hop_of_cases (total : Z) (qt : string) (context : gmap string (list string))
    (idx : Z) (fact : string * Z) :
  (within context fact = true ->
   exists h, hop_of set_order total qt context idx fact = Ok h)
  /\ (within context fact = false ->
      hop_of set_order total qt context idx fact = Raise IndexError).
Proof.
  unfold within, hop_of. destruct fact as [doc sid]. cbn [fst snd].
  destruct (context !! doc) as [sentences | ]; [ | split; [eauto | discriminate]].
  destruct (getitem_cases sentences sid) as [Hok Hraise].
  split; intros H.
  - apply Z.leb_le in H.
    destruct (sid <? len sentences) eqn:E; [ | eauto].
    apply Z.ltb_lt in E. destruct Hok as (x & -> & _); [lia | ].
    cbn [bind]. eauto.
  - apply Z.leb_gt in H.
    replace (sid <? len sentences) with true
      by (symmetry; apply Z.ltb_lt; unfold len in *; lia).
    rewrite Hraise by lia. reflexivity.
Qed.

Lemma collect_hops_cases (total : Z) (qt : string)
    (context : gmap string (list string)) (facts : list (string * Z)) :
  forall idx : Z,
  (forallb (within context) facts = true ->
   exists hs, collect_hops set_order total qt context idx facts = Ok hs)
  /\ (forallb (within context) facts = false ->
      collect_hops set_order total qt context idx facts = Raise IndexError).
Proof.
  induction facts as [ | fact facts IH]; intros idx.
  - split; [eauto | discriminate].
  - cbn [forallb collect_hops].
    destruct (hop_of_cases total qt context idx fact) as [Hok Hraise].
    destruct (IH (idx + 1)) as [IHok IHraise].
    destruct (within context fact).
    + destruct Hok as [h ->]; [reflexivity | ]. cbn [andb bind]. split; intros H.
      * destruct (IHok H) as [hs ->]. cbn [bind]. eauto.
      * now rewrite (IHraise H).
    + rewrite Hraise by reflexivity. split; [discriminate | reflexivity].
Qed.

(** X8.  [extract_pattern] returns exactly when no supporting fact
    points below the start of a document of the context: a sentence
    index [sid] with [-len <= sid < 0] is taken from the end of the
    document, one with [sid < -len] raises [IndexError], the only
    exception of the extraction. *)
Theorem extract_pattern_returns_iff (question_id question question_type level : string)
    (supporting_facts : list (string * Z)) (context : gmap string (list string))
    (answer : string) :
  (forallb (within context) supporting_facts = true ->
   exists p,
     extract_pattern set_order question_id question question_type level
       supporting_facts context answer = Ok p)
  /\ (forallb (within context) supporting_facts = false ->
      extract_pattern set_order question_id question question_type level
        supporting_facts context answer = Raise IndexError).
Proof.
  unfold extract_pattern.
  destruct (collect_hops_cases (len supporting_facts) question_type context
              supporting_facts 0) as [Hok Hraise].
  split; intros H.
  - destruct (Hok H) as [hs ->]. cbn [bind]. eauto.
  - now rewrite (Hraise H).
Qed.

Lemma collect_hops_hops (total : Z) (qt : string)
    (context : gmap string (list string)) (facts : list (string * Z)) :
  forall (idx : Z) (hs : list HopInfo),
  collect_hops set_order total qt context idx facts = Ok hs ->
  (length hs <= length facts)%nat
  /\ forall h, In h hs ->
       In (reference_of h) facts
       /\ entities_extracted h = _extract_entities set_order (sentence_text h)
       /\ (qt <> "bridge" -> role h = "comparison")
       /\ exists sentences,
            context !! document_title h = Some sentences
            /\ sentences !! position sentences (sentence_id h)
               = Some (sentence_text h).
Proof.
  induction facts as [ | [doc sid] facts IH]; intros idx hs.
  - intros [= <-]. split; [reflexivity | intros h []].
  - cbn [collect_hops].
    destruct (hop_of set_order total qt context idx (doc, sid)) as [h0 | e] eqn:Eh;
      [ | discriminate].
    cbn [bind].
    destruct (collect_hops set_order total qt context (idx + 1) facts) as [hs' | e] eqn:Ehs;
      [ | discriminate].
    cbn [bind]. intros [= <-].
    destruct (IH (idx + 1) hs' Ehs) as [Hlen Hhs].
    assert (Htail : forall h, In h hs' ->
              In (reference_of h) ((doc, sid) :: facts)
              /\ entities_extracted h = _extract_entities set_order (sentence_text h)
              /\ (qt <> "bridge" -> role h = "comparison")
              /\ exists sentences,
                   context !! document_title h = Some sentences
                   /\ sentences !! position sentences (sentence_id h)
                      = Some (sentence_text h)).
    { intros h Hh. destruct (Hhs h Hh) as (H1 & H2 & H3 & H4).
      repeat split; try assumption. now right. }
    destruct h0 as [h0 | ]; [ | split; [cbn [length]; lia | exact Htail]].
    split; [cbn [length]; lia | ].
    intros h [<- | Hh]; [ | now apply Htail].
    unfold hop_of in Eh. cbn [fst snd] in Eh.
    destruct (context !! doc) as [sentences | ] eqn:Edoc; [ | discriminate].
    destruct (sid <? len sentences) eqn:Elt; [ | discriminate].
    destruct (getitem sentences sid) as [text | e] eqn:Etext; [ | discriminate].
    cbn [bind] in Eh. injection Eh as <-.
    cbn [reference_of document_title sentence_id sentence_text entities_extracted role].
    split; [now left | ]. split; [reflexivity | ]. split.
    + intros Hqt. unfold _determine_hop_role.
      destruct (String.eqb_spec qt "bridge"); [contradiction | reflexivity].
    + exists sentences. split; [exact Edoc | ].
      destruct (getitem_cases sentences sid) as [Hok Hraise].
      destruct (Z_le_dec (- len sentences) sid) as [Hle | Hgt].
      * apply Z.ltb_lt in Elt. destruct Hok as (x & Hx & Hlook); [lia | ].
        congruence.
      * rewrite Hraise in Etext by lia. discriminate.
Qed.

(** X9.  In a pattern that [extract_pattern] returns, every hop quotes
    the sentence that its reference denotes in the context (a negative
    index counting from the end), carries the entities extracted from
    that sentence and stems from one of the supporting facts; the number
    of hops recorded is the length of the list of hops, which is at most
    the number of supporting facts, and the other fields are the
    arguments. *)
Theorem extract_pattern_hops_quote_context
    (question_id question question_type level : string)
    (supporting_facts : list (string * Z)) (context : gmap string (list string))
    (answer : string) (p : ReasoningPattern) :
  extract_pattern set_order question_id question question_type level
    supporting_facts context answer = Ok p ->
  num_hops p = len (hops p)
  /\ len (hops p) <= len supporting_facts
  /\ (PatternExtractor.question_id p, PatternExtractor.question p,
      PatternExtractor.question_type p, PatternExtractor.level p,
      PatternExtractor.answer p)
     = (question_id, question, question_type, level, answer)
  /\ forall h, In h (hops p) ->
       In (reference_of h) supporting_facts
       /\ entities_extracted h = _extract_entities set_order (sentence_text h)
       /\ exists sentences,
            context !! document_title h = Some sentences
            /\ sentences !! position sentences (sentence_id h)
               = Some (sentence_text h).
Proof.
  unfold extract_pattern.
  destruct (collect_hops _ _ _ _ _ _) as [hs | e] eqn:Ehs; [ | discriminate].
  cbn [bind]. intros [= <-]. cbn.
  destruct (collect_hops_hops _ _ _ _ _ _ Ehs) as [Hlen Hhs].
  split; [reflexivity | ]. split; [unfold len; lia | ]. split; [reflexivity | ].
  intros h Hh. destruct (Hhs h Hh) as (H1 & H2 & _ & H4). auto.
Qed.

(** X10.  What the question type decides in a returned pattern: unless
    the type is [bridge], no bridge entity is reported and every hop has
    the role [comparison]; fewer than two hops give no bridge entity
    either; the comparison dimension is set exactly for the type
    [comparison], and then it is one of the five dimensions or
    [unknown]. *)
Theorem extract_pattern_by_type
    (question_id question question_type level : string)
    (supporting_facts : list (string * Z)) (context : gmap string (list string))
    (answer : string) (p : ReasoningPattern) :
  extract_pattern set_order question_id question question_type level
    supporting_facts context answer = Ok p ->
  (question_type <> "bridge" ->
   bridge_entity p = None /\ forall h, In h (hops p) -> role h = "comparison")
  /\ (len (hops p) < 2 -> bridge_entity p = None)
  /\ (question_type <> "comparison" -> comparison_dimension p = None)
  /\ (question_type = "comparison" ->
      exists d, comparison_dimension p = Some d
        /\ In d ["date"; "size"; "quantity"; "location"; "duration"; "unknown"]).
Proof.
  unfold extract_pattern.
  destruct (collect_hops _ _ _ _ _ _) as [hs | e] eqn:Ehs; [ | discriminate].
  cbn [bind]. intros [= <-].
  cbn [hops bridge_entity comparison_dimension].
  destruct (collect_hops_hops _ _ _ _ _ _ Ehs) as [_ Hhs].
  repeat split.
  - destruct (String.eqb_spec question_type "bridge"); [contradiction | reflexivity].
  - intros h Hh. now apply Hhs.
  - intros Hlt. replace (2 <=? len hs) with false by (symmetry; apply Z.leb_gt; lia).
    now rewrite andb_false_r.
  - intros Hqt.
    destruct (String.eqb_spec question_type "comparison"); [contradiction | reflexivity].
  - intros ->. cbn [String.eqb Ascii.eqb Bool.eqb andb].
    unfold _find_comparison_dimension.
    destruct (List.find _ dimensions) as [dk | ] eqn:Ef.
    + exists (fst dk). split; [reflexivity | ].
      apply List.find_some in Ef as [Hin _].
      apply (in_map fst) in Hin. cbn in Hin. cbn. tauto.
    + exists "unknown". split; [reflexivity | cbn; tauto].
Qed.

Hypothesis set_order_sub : forall l x, In x (set_order l) -> In x l.

(** X11.  A bridge entity is reported only for a bridge question with at
    least two hops; it is an entity extracted from the first hop which
    is also an entity of the second hop or, in lower case, occurs in the
    lower-cased sentence of the second hop.  (The enumeration of a set
    yields elements of the set only.) *)
Theorem bridge_entity_origin
    (question_id question question_type level : string)
    (supporting_facts : list (string * Z)) (context : gmap string (list string))
    (answer : string) (p : ReasoningPattern) (e : string) :
  extract_pattern set_order question_id question question_type level
    supporting_facts context answer = Ok p ->
  bridge_entity p = Some e ->
  question_type = "bridge"
  /\ exists h0 h1 rest,
       hops p = h0 :: h1 :: rest
       /\ In e (entities_extracted h0)
       /\ (In e (entities_extracted h1)
           \/ PyStr.contains (PyStr.lower e) (PyStr.lower (sentence_text h1)) = true).
Proof.
  unfold extract_pattern.
  destruct (collect_hops _ _ _ _ _ _) as [hs | err]; [ | discriminate].
  cbn [bind]. intros [= <-]. cbn [hops bridge_entity].
  destruct (String.eqb_spec question_type "bridge") as [-> | ]; [ | discriminate].
  destruct (2 <=? len hs); [ | discriminate]. cbn [andb].
  intros He. split; [reflexivity | ].
  unfold _find_bridge_entity in He.
  destruct hs as [ | h0 [ | h1 rest]]; try discriminate.
  exists h0, h1, rest. split; [reflexivity | ].
  destruct (set_order (List.filter _ _)) as [ | c common] eqn:Ec.
  - apply List.find_some in He as [Hin Hsub]. auto.
  - injection He as <-.
    assert (Hin : In c (c :: common)) by now left.
    rewrite <- Ec in Hin. apply set_order_sub, List.filter_In in Hin as [H0 H1].
    split; [auto | left].
    unfold mem in H1. apply existsb_exists in H1 as (x & Hx & Heq).
    apply String.eqb_eq in Heq. subst x. auto.
Qed.

Lemma chars_app (a b : string) :
  list_ascii_of_string (a ++ b)%string
  = (list_ascii_of_string a ++ list_ascii_of_string b)%list.
Proof.
  induction a as [ | c a IH]; [reflexivity | ].
  change (String c a ++ b)%string with (String c (a ++ b)%string).
  cbn [list_ascii_of_string app]. now rewrite IH.
Qed.

Lemma find_quoted_no_quote (s : string) :
  forall (inside : option string) (q : string),
  (forall t, inside = Some t -> ~ In dquote (list_ascii_of_string t)) ->
  In q (find_quoted inside s) -> ~ In dquote (list_ascii_of_string q).
Proof.
  induction s as [ | c s IH]; intros inside q Hinside; [intros [] | ].
  cbn [find_quoted]. destruct (Ascii.eqb_spec c dquote) as [-> | Hc].
  - destruct inside as [t | ].
    + intros [<- | Hq]; [now apply Hinside | ].
      apply (IH None); [discriminate | exact Hq].
    + apply IH. intros t [= <-]. intros [].
  - destruct inside as [t | ]; apply IH; [ | discriminate].
    intros t' [= <-]. rewrite chars_app. intros Hin.
    apply in_app_or in Hin as [Hin | [-> | []]]; [ | contradiction].
    now apply (Hinside t).
Qed.

Lemma starts_upper_join (w : string) (ws : list string) :
  starts_upper w = true -> starts_upper (join_space (w :: ws)) = true.
Proof.
  destruct w as [ | c w]; [discriminate | ].
  intros H. cbn [join_space]. now destruct ws.
Qed.

Lemma entity_runs_upper (words : list string) :
  forall (current_entity : list string) (e : string),
  match current_entity with
  | [] => True
  | w :: _ => starts_upper w = true
  end ->
  In e (entity_runs current_entity words) -> starts_upper e = true.
Proof.
  induction words as [ | word ws IH]; intros cur e Hcur.
  - cbn [entity_runs]. destruct cur as [ | w cur]; [intros [] | ].
    intros [<- | []]. now apply starts_upper_join.
  - cbn [entity_runs]. destruct (starts_upper word) eqn:Ew.
    + apply IH. destruct cur as [ | w cur]; [exact Ew | exact Hcur].
    + destruct cur as [ | w cur]; [now apply IH | ].
      intros [<- | He]; [now apply starts_upper_join | now apply (IH [])].
Qed.

(** X12.  Every entity extracted from a text is a quoted passage, which
    holds no double quote, or a run of capitalised words, which starts
    with an upper-case letter. *)
Theorem extracted_entities_shape (text e : string) :
  In e (_extract_entities set_order text) ->
  ~ In dquote (list_ascii_of_string e) \/ starts_upper e = true.
Proof.
  unfold _extract_entities. intros H.
  apply set_order_sub, in_app_or in H as [H | H].
  - left. apply (find_quoted_no_quote text None); [discriminate | exact H].
  - right. now apply (entity_runs_upper (split text) []).
Qed.

End ExtractorInvariants.

Lemma extract_pattern_returns_iff_witness :
  (exists p,
     extract_pattern (fun l => l) "q1" "Where was she born?" "bridge" "easy"
       [("B", -2); ("D", -7); ("A", 3)] three_docs "Europe" = Ok p)
  /\ extract_pattern (fun l => l) "q1" "Where was she born?" "bridge" "easy"
       [("B", -3)] three_docs "Europe" = Raise IndexError.
Proof.
  split.
  - apply (extract_pattern_returns_iff (fun l => l) "q1" "Where was she born?"
             "bridge" "easy" [("B", -2); ("D", -7); ("A", 3)] three_docs "Europe").
    vm_compute. reflexivity.
  - apply (extract_pattern_returns_iff (fun l => l) "q1" "Where was she born?"
             "bridge" "easy" [("B", -3)] three_docs "Europe").
    vm_compute. reflexivity.
Defined.

Lemma extract_pattern_hops_quote_context_witness :
  exists p,
    extract_pattern (fun l => l) "q1" "Where was she born?" "bridge" "easy"
      [("B", -2); ("D", -7); ("A", 3)] three_docs "Europe" = Ok p
    /\ num_hops p = len (hops p)
    /\ len (hops p) <= 3.
Proof.
  eexists. split; [vm_compute; reflexivity | ].
  destruct (extract_pattern_hops_quote_context (fun l => l) "q1"
              "Where was she born?" "bridge" "easy"
              [("B", -2); ("D", -7); ("A", 3)] three_docs "Europe" _ eq_refl)
    as (H1 & H2 & _).
  split; [exact H1 | exact H2].
Defined.

Lemma extract_pattern_by_type_witness :
  exists p,
    extract_pattern (fun l => l) "q2" "Which city is larger?" "comparison" "hard"
      [("A", 0); ("B", 0)] met_in_paris "Paris" = Ok p
    /\ bridge_entity p = None
    /\ exists d, comparison_dimension p = Some d
         /\ In d ["date"; "size"; "quantity"; "location"; "duration"; "unknown"].
Proof.
  eexists. split; [vm_compute; reflexivity | ].
  destruct (extract_pattern_by_type (fun l => l) "q2" "Which city is larger?"
              "comparison" "hard" [("A", 0); ("B", 0)] met_in_paris "Paris" _ eq_refl)
    as (H1 & _ & _ & H4).
  split; [apply H1; discriminate | apply H4; reflexivity].
Defined.

Lemma bridge_entity_origin_witness :
  exists p h0 h1 rest,
    extract_pattern (fun l => l) "q1" "Where was she born?" "bridge" "easy"
      [("A", 0); ("B", 0)] met_in_paris "France" = Ok p
    /\ hops p = h0 :: h1 :: rest
    /\ In "Paris" (entities_extracted h0).
Proof.
  destruct (bridge_entity_origin (fun l => l) (fun l x H => H) "q1"
              "Where was she born?" "bridge" "easy" [("A", 0); ("B", 0)]
              met_in_paris "France" _ "Paris" eq_refl eq_refl)
    as (_ & h0 & h1 & rest & Hhops & Hin & _).
  eexists. exists h0, h1, rest.
  split; [vm_compute; reflexivity | ]. split; [exact Hhops | exact Hin].
Defined.

Lemma extracted_entities_shape_witness :
  ~ In dquote (list_ascii_of_string "Paris") \/ starts_upper "Paris" = true.
Proof.
  apply (extracted_entities_shape (fun l => l) (fun l x H => H)
           "Marie was born in Paris").
  vm_compute. auto.
Defined.

(** ** The semantic index, beyond the search *)

Import GroupSpec.

Section GroupProperties.

Context `{F : Faiss}.

(** X13.  Whatever the labels that FAISS returns, [search] only returns
    examples that are stored for the category asked for. *)
Theorem search_only_stored (self : SemanticIndex) (query : vec)
    (question_type level : string) (top_k : Z) (l : list IndexedExample) :
  search self query question_type level top_k = Ok l ->
  forall example, In example l -> In example (stored self question_type level).
Proof.
  unfold search, stored, examples_of, item.
  destruct (indices self !! question_type) as [m | ];
    [ | intros [= <-] ex []].
  destruct (m !! level) as [index | ]; [ | intros [= <-] ex []].
  destruct (indexed_examples self !! question_type) as [e | ]; [ | discriminate].
  cbn [bind mbind option_bind].
  destruct (e !! level) as [examples | ]; [ | discriminate].
  cbn [bind default from_option Datatypes.id].
  destruct (len examples =? 0); [intros [= <-] ex [] | ].
  destruct (index_search _ _ _) as [labels | ]; [ | discriminate].
  cbn [bind]. intros [= <-] ex Hex.
  apply list_elem_of_In, list_elem_of_omap in Hex as (idx & _ & Hidx).
  destruct (_ && _); [ | discriminate].
  apply list_elem_of_In. now apply list_elem_of_lookup_2 in Hidx.
Qed.

End GroupProperties.

Lemma search_only_stored_witness :
  In one_example (stored toy_index "bridge" "easy").
Proof.
  apply (search_only_stored toy_index [3; 4] "bridge" "easy" 1 [one_example]).
  - vm_compute. reflexivity.
  - now left.
Defined.

Lemma categories_eq :
  categories =
    [("bridge", "easy"); ("bridge", "medium"); ("bridge", "hard");
     ("comparison", "easy"); ("comparison", "medium"); ("comparison", "hard")].
Proof. reflexivity. Qed.

Lemma covers_categories (q l : string) :
  covers categories q l = known_category q l.
Proof.
  rewrite categories_eq. unfold covers, known_category, q_types, levels.
  cbn [existsb fst snd].
  destruct (String.eqb q "bridge"), (String.eqb q "comparison"),
    (String.eqb l "easy"), (String.eqb l "medium"), (String.eqb l "hard");
    reflexivity.
Qed.

Lemma covers_In (cats : list (string * string)) (q l : string) :
  covers cats q l = true <-> In (q, l) cats.
Proof.
  unfold covers. rewrite existsb_exists. split.
  - intros ([q' l'] & Hin & H). cbn [fst snd] in H.
    apply andb_true_iff in H as [H1 H2].
    apply String.eqb_eq in H1, H2. now subst.
  - intros H. exists (q, l). split; [exact H | ].
    cbn [fst snd]. now rewrite !String.eqb_refl.
Qed.

Section BuildGroups.

Context `{F : Faiss} {U : Unpickler}.

Lemma entry_levels {A : Type} (x : A) (l : string) :
  ({[ "easy" := x; "medium" := x; "hard" := x ]} : gmap string A) !! l
  = if existsb (String.eqb l) levels then Some x else None.
Proof.
  unfold levels. cbn [existsb].
  destruct (String.eqb_spec l "easy") as [-> | H1]; [now lookup_literal | ].
  destruct (String.eqb_spec l "medium") as [-> | H2]; [now lookup_literal | ].
  destruct (String.eqb_spec l "hard") as [-> | H3]; now lookup_literal.
Qed.

Lemma entry_empty_groups (q l : string) :
  entry empty_groups q l = if known_category q l then Some [] else None.
Proof.
  unfold entry, empty_groups, known_category, q_types. cbn [existsb].
  destruct (String.eqb_spec q "bridge") as [-> | H1].
  { lookup_literal. cbn [mbind option_bind orb andb]. apply entry_levels. }
  destruct (String.eqb_spec q "comparison") as [-> | H2].
  { lookup_literal. cbn [mbind option_bind orb andb]. apply entry_levels. }
  now lookup_literal.
Qed.

Lemma shape_empty_groups (q l : string) :
  is_Some (entry empty_groups q l) <-> known_category q l = true.
Proof.
  rewrite entry_empty_groups. destruct (known_category q l); split.
  - reflexivity.
  - intros _. now exists [].
  - intros [x Hx]. discriminate Hx.
  - discriminate.
Qed.

Lemma outer_init (dimension : Z) (q : string) :
  indices (init dimension) !! q
  = if existsb (String.eqb q) q_types then Some ∅ else None.
Proof.
  unfold init, q_types. cbn [indices existsb].
  destruct (String.eqb_spec q "bridge") as [-> | H1]; [now lookup_literal | ].
  destruct (String.eqb_spec q "comparison") as [-> | H2]; now lookup_literal.
Qed.

Lemma entry_init (dimension : Z) (q l : string) :
  entry (indices (init dimension)) q l = None.
Proof.
  unfold entry. rewrite outer_init.
  destruct (existsb _ _); [apply lookup_empty | reflexivity].
Qed.

Lemma group_append_cases (g : gmap string (gmap string (list IndexedExample)))
    (ex : IndexedExample) :
  match entry g (question_type ex) (level ex) with
  | Some l =>
      exists g', group_append g ex = Ok g'
        /\ forall q' l',
             entry g' q' l' =
               if decide (question_type ex = q' /\ level ex = l')
               then Some (l ++ [ex]) else entry g q' l'
  | None => group_append g ex = Raise KeyError
  end.
Proof.
  unfold entry, group_append, item.
  destruct (g !! question_type ex) as [m | ] eqn:Em; [ | reflexivity].
  cbn [mbind option_bind bind].
  destruct (m !! level ex) as [l | ]; [ | reflexivity].
  cbn [bind]. eexists. split; [reflexivity | ].
  intros q' l'. now apply nested_insert_lookup.
Qed.

Lemma in_category_iff (q l : string) (ex : IndexedExample) :
  in_category q l ex = true <-> question_type ex = q /\ level ex = l.
Proof.
  unfold in_category. rewrite andb_true_iff, !String.eqb_eq. tauto.
Qed.

Lemma group_all_spec (ps : list PatternExtractor.ReasoningPattern) :
  forall (es : list vec) (g : gmap string (gmap string (list IndexedExample))),
  (forall q l, is_Some (entry g q l) <-> known_category q l = true) ->
  (forallb known (examples_from ps es) = true ->
   exists g', group_all g ps es = Ok g'
     /\ forall q l,
          entry g' q l =
            (fun old => old ++ List.filter (in_category q l) (examples_from ps es))
              <$> entry g q l)
  /\ (forallb known (examples_from ps es) = false ->
      group_all g ps es = Raise KeyError).
Proof.
  assert (Hnil : forall (g : gmap string (gmap string (list IndexedExample))) q l,
            entry g q l = (fun old => old ++ []) <$> entry g q l).
  { intros g q l. destruct (entry g q l); cbn; [now rewrite app_nil_r | reflexivity]. }
  induction ps as [ | p ps IH]; intros es g Hshape.
  { split; [ | discriminate]. intros _. exists g. split; [reflexivity | apply Hnil]. }
  destruct es as [ | e es].
  { split; [ | discriminate]. intros _. exists g. split; [reflexivity | apply Hnil]. }
  unfold examples_from. cbn [combine map forallb List.filter group_all].
  fold (examples_from ps es). change (example_of (p, e)) with
    {| id := PatternExtractor.question_id p;
       question := PatternExtractor.question p;
       question_type := PatternExtractor.question_type p;
       level := PatternExtractor.level p;
       pattern := p;
       embedding := e |}.
  set (ex := {| id := PatternExtractor.question_id p; embedding := e |}).
  pose proof (group_append_cases g ex) as Happ.
  destruct (known ex) eqn:Ek; cbn [andb].
  - destruct (proj2 (Hshape _ _) Ek) as [old Eold]. rewrite Eold in Happ.
    destruct Happ as (g1 & -> & Hg1). cbn [bind].
    assert (Hshape1 : forall q l, is_Some (entry g1 q l) <-> known_category q l = true).
    { intros q l. rewrite Hg1. destruct (decide _) as [[<- <-] | _]; [ | apply Hshape].
      split; [intros _; exact Ek | eauto]. }
    destruct (IH es g1 Hshape1) as [IHok IHraise]. split; [ | exact IHraise].
    intros Hall. destruct (IHok Hall) as (g' & -> & Hg').
    exists g'. split; [reflexivity | ]. intros q l. rewrite Hg', Hg1.
    destruct (decide _) as [[<- <-] | Hne].
    + rewrite Eold. cbn. unfold in_category. rewrite !String.eqb_refl. cbn [andb].
      now rewrite <- app_assoc.
    + destruct (in_category q l ex) eqn:Ein; [ | reflexivity].
      apply in_category_iff in Ein. tauto.
  - split; [discriminate | ]. intros _.
    destruct (entry g (question_type ex) (level ex)) as [old | ] eqn:Eold.
    + assert (Hs : is_Some (entry g (question_type ex) (level ex))) by eauto.
      apply Hshape in Hs. unfold known in Ek. congruence.
    + now rewrite Happ.
Qed.

(** X14.  [build_index] raises [KeyError] as soon as one of the zipped
    patterns has a question type other than [bridge] and [comparison] or
    a level other than [easy], [medium] and [hard]. *)
Theorem build_index_unknown_category (self : SemanticIndex)
    (patterns : list PatternExtractor.ReasoningPattern) (embeddings : list vec) :
  forallb known (examples_from patterns embeddings) = false ->
  build_index self patterns embeddings = Raise KeyError.
Proof.
  intros H. unfold build_index.
  destruct (group_all_spec patterns embeddings empty_groups) as [_ Hraise].
  - apply shape_empty_groups.
  - now rewrite (Hraise H).
Qed.

Lemma vstack_Ok (matrix m : list vec) : vstack matrix = Ok m -> m = matrix.
Proof.
  unfold vstack. destruct matrix as [ | r rs]; [discriminate | ].
  destruct (forallb _ _); now intros [= <-].
Qed.

(** What one turn of the second loop of [build_index] changes. *)
Lemma build_category_spec (g : gmap string (gmap string (list IndexedExample)))
    (self self' : SemanticIndex) (q l : string) :
  build_category g self (q, l) = Ok self' ->
  exists examples,
    entry g q l = Some examples
    /\ dimension self' = dimension self
    /\ (forall q', is_Some (indices self' !! q') <-> is_Some (indices self !! q'))
    /\ (forall q', is_Some (indexed_examples self' !! q')
                   <-> is_Some (indexed_examples self !! q'))
    /\ forall q' l',
         (examples_of self' q' l' =
            if bool_decide (q = q' /\ l = l') && negb (len examples =? 0)
            then Some examples else examples_of self q' l')
         /\ (index_of self' q' l' =
               if bool_decide (q = q' /\ l = l') && negb (len examples =? 0)
               then Some (index_for (dimension self) examples)
               else index_of self q' l').
Proof.
  unfold build_category. cbn [fst snd]. intros H.
  destruct (item g q) as [by_level | ] eqn:Eg; cbn [bind] in H; [ | discriminate].
  destruct (item by_level l) as [examples | ] eqn:El; cbn [bind] in H;
    [ | discriminate].
  apply item_Ok in Eg, El. exists examples.
  split; [unfold entry; rewrite Eg; exact El | ].
  destruct (len examples =? 0).
  { injection H as <-. repeat split; try tauto;
      now rewrite andb_false_r. }
  destruct (item (indexed_examples self) q) as [ebl | ] eqn:Eebl;
    cbn [bind] in H; [ | discriminate].
  destruct (vstack (map embedding examples)) as [matrix | ] eqn:Ev;
    cbn [bind] in H; [ | discriminate].
  destruct (index_add {| d := dimension self; rows := [] |} (map normalize_L2 matrix))
    as [index | ] eqn:Ea; cbn [bind] in H; [ | discriminate].
  destruct (item (indices self) q) as [ibl | ] eqn:Eibl;
    cbn [bind] in H; [ | discriminate].
  injection H as <-. apply item_Ok in Eebl, Eibl.
  apply vstack_Ok in Ev. subst matrix.
  unfold index_add in Ea. cbn [d rows app] in Ea.
  destruct (forallb _ _); [ | discriminate]. injection Ea as <-.
  cbn [dimension indices indexed_examples]. split; [reflexivity | ].
  split; [ | split].
  - intros q'. rewrite lookup_insert_is_Some.
    split; [intros [<- | [_ H]]; eauto | intros H].
    destruct (decide (q = q')); auto.
  - intros q'. rewrite lookup_insert_is_Some.
    split; [intros [<- | [_ H]]; eauto | intros H].
    destruct (decide (q = q')); auto.
  - intros q' l'. unfold index_of, examples_of.
    cbn [indices indexed_examples negb].
    rewrite (nested_insert_lookup _ _ _ _ _ _ _ Eibl),
      (nested_insert_lookup _ _ _ _ _ _ _ Eebl).
    rewrite andb_true_r. unfold index_for.
    destruct (decide (q = q' /\ l = l')) as [Hd | Hd].
    + now rewrite bool_decide_eq_true_2.
    + now rewrite bool_decide_eq_false_2.
Qed.

Lemma covers_cons (q l : string) (cats : list (string * string)) (q' l' : string) :
  covers ((q, l) :: cats) q' l' = bool_decide (q = q' /\ l = l') || covers cats q' l'.
Proof.
  unfold covers. cbn [existsb fst snd]. f_equal.
  destruct (decide (q = q' /\ l = l')) as [[<- <-] | Hd].
  - now rewrite bool_decide_eq_true_2, !String.eqb_refl.
  - rewrite bool_decide_eq_false_2 by exact Hd.
    apply andb_false_iff.
    destruct (String.eqb_spec q' q); [ | now left].
    destruct (String.eqb_spec l' l); [ | now right].
    subst. tauto.
Qed.

(** What the second loop of [build_index] changes. *)
Lemma build_categories_spec (g : gmap string (gmap string (list IndexedExample)))
    (cats : list (string * string)) :
  forall self self' : SemanticIndex,
  build_categories g self cats = Ok self' ->
  dimension self' = dimension self
  /\ (forall q', is_Some (indices self' !! q') <-> is_Some (indices self !! q'))
  /\ (forall q', is_Some (indexed_examples self' !! q')
                 <-> is_Some (indexed_examples self !! q'))
  /\ forall q' l',
       let changed :=
         match entry g q' l' with
         | Some examples =>
             if covers cats q' l' && negb (len examples =? 0)
             then Some examples else None
         | None => None
         end in
       examples_of self' q' l' =
         match changed with
         | Some examples => Some examples
         | None => examples_of self q' l'
         end
       /\ index_of self' q' l' =
            match changed with
            | Some examples => Some (index_for (dimension self) examples)
            | None => index_of self q' l'
            end.
Proof.
  induction cats as [ | [q l] cats IH]; intros self self'; cbn [build_categories].
  { intros [= <-]. repeat split; try tauto;
      now destruct (entry g q' l'). }
  destruct (build_category g self (q, l)) as [s1 | ] eqn:E1; cbn [bind];
    [ | discriminate].
  intros E2.
  destruct (build_category_spec _ _ _ _ _ E1) as (examples & Eg & Hd1 & Hi1 & He1 & H1).
  destruct (IH _ _ E2) as (Hd2 & Hi2 & He2 & H2).
  split; [congruence | ].
  split; [intros q'; now rewrite Hi2, Hi1 | ].
  split; [intros q'; now rewrite He2, He1 | ].
  intros q' l'. specialize (H1 q' l'). specialize (H2 q' l'). cbv zeta in *.
  rewrite covers_cons. destruct H1 as [H1e H1i], H2 as [H2e H2i].
  rewrite H2e, H2i, H1e, H1i, Hd1. clear H2e H2i H1e H1i.
  destruct (decide (q = q' /\ l = l')) as [[<- <-] | Hd].
  - rewrite bool_decide_eq_true_2 by tauto. rewrite Eg. cbn [orb].
    destruct (covers cats q l); cbn [andb]; now destruct (negb _).
  - rewrite bool_decide_eq_false_2 by exact Hd. cbn [orb andb].
    now destruct (entry g q' l').
Qed.

Lemma filter_unknown (q l : string) (exs : list IndexedExample) :
  forallb known exs = true -> known_category q l = false ->
  List.filter (in_category q l) exs = [].
Proof.
  intros Hall Hq. induction exs as [ | ex exs IH]; [reflexivity | ].
  cbn [forallb] in Hall. apply andb_true_iff in Hall as [Hex Hall].
  cbn [List.filter]. destruct (in_category q l ex) eqn:Ein; [ | auto].
  apply in_category_iff in Ein as [<- <-]. unfold known in Hex. congruence.
Qed.

Lemma len_zero {A : Type} (l : list A) : (len l =? 0) = true -> l = [].
Proof. destruct l; [reflexivity | discriminate]. Qed.

(** X15.  The index that [build_index] makes of a fresh index files
    every zipped example under exactly its own category, in the order of
    the input: the examples stored for a category are the examples of
    that category, and the category has a search structure, holding
    their normalised embeddings in the same order, exactly when it has
    an example. *)
Theorem build_index_files_by_category (dim : Z)
    (patterns : list PatternExtractor.ReasoningPattern) (embeddings : list vec)
    (self : SemanticIndex) :
  build_index (init dim) patterns embeddings = Ok self ->
  dimension self = dim
  /\ forall q_type lvl,
       stored self q_type lvl
         = List.filter (in_category q_type lvl) (examples_from patterns embeddings)
       /\ index_of self q_type lvl
            = if len (stored self q_type lvl) =? 0 then None
              else Some (index_for dim (stored self q_type lvl)).
Proof.
  unfold build_index.
  destruct (group_all_spec patterns embeddings empty_groups shape_empty_groups)
    as [Hok Hraise].
  destruct (forallb known (examples_from patterns embeddings)) eqn:Hall;
    [ | now rewrite Hraise].
  destruct (Hok eq_refl) as (g & -> & Hg). cbn [bind]. intros Hb.
  destruct (build_categories_spec _ _ _ _ Hb) as (Hd & _ & _ & Hcat).
  split; [exact Hd | ]. intros q l.
  destruct (Hcat q l) as [He Hi]. cbv zeta in He, Hi.
  rewrite covers_categories, Hg, entry_empty_groups in He, Hi.
  unfold stored. rewrite He, Hi.
  change (examples_of (init dim) q l) with (entry empty_groups q l).
  change (index_of (init dim) q l) with (entry (indices (init dim)) q l).
  rewrite entry_empty_groups, entry_init. cbn [dimension init].
  destruct (known_category q l) eqn:Ek; cbn [fmap option_fmap option_map app andb].
  - destruct (len (List.filter _ _) =? 0) eqn:E0;
      cbn [negb default from_option Datatypes.id].
    + apply len_zero in E0. rewrite E0. split; reflexivity.
    + rewrite E0. split; reflexivity.
  - cbn [default from_option Datatypes.id]. rewrite filter_unknown by assumption.
    split; reflexivity.
Qed.

Lemma known_outer (q l : string) :
  known_category q l = true -> existsb (String.eqb q) q_types = true.
Proof. unfold known_category. intros H. now apply andb_true_iff in H. Qed.










End BuildGroups.

Lemma build_index_unknown_category_witness :
  build_index (init 2) [toy_pattern "a" "bridge" "easy"; toy_pattern "b" "bridge" "expert"]
    toy_embeddings = Raise KeyError.
Proof.
  apply (build_index_unknown_category (F := insertion_order_faiss) (init 2)
           [toy_pattern "a" "bridge" "easy"; toy_pattern "b" "bridge" "expert"]
           toy_embeddings).
  vm_compute. reflexivity.
Defined.

Section BuildReturns.

Context `{L : FaissLaws}.

Lemma entry_outer {A : Type} (M : gmap string (gmap string A)) (q l : string) :
  is_Some (entry M q l) -> is_Some (M !! q).
Proof. unfold entry. destruct (M !! q); [eauto | intros [x Hx]; discriminate]. Qed.

Lemma build_category_returns (g : gmap string (gmap string (list IndexedExample)))
    (self : SemanticIndex) (q l : string) (examples : list IndexedExample) :
  entry g q l = Some examples ->
  Forall (fun ex => vec_dim (embedding ex) = dimension self) examples ->
  is_Some (indices self !! q) ->
  is_Some (indexed_examples self !! q) ->
  exists self', build_category g self (q, l) = Ok self'.
Proof.
  unfold entry, build_category, item. cbn [fst snd].
  intros Eg Hdim [ibl Ei] [ebl Ee].
  destruct (g !! q) as [by_level | ]; [ | discriminate].
  cbn [mbind option_bind] in Eg. cbn [bind]. rewrite Eg. cbn [bind].
  destruct (len examples =? 0) eqn:E0; [eauto | ].
  rewrite Ee, Ei. cbn [bind].
  assert (Hall : forall f : vec -> bool,
            (forall v, vec_dim v = dimension self -> f v = true) ->
            forallb f (map embedding examples) = true).
  { intros f Hf. apply forallb_forall. intros v Hv.
    apply in_map_iff in Hv as (ex & <- & Hex). apply Hf.
    exact (proj1 (List.Forall_forall _ _) Hdim _ Hex). }
  assert (Ev : vstack (map embedding examples) = Ok (map embedding examples)).
  { unfold vstack. destruct examples as [ | ex exs]; [discriminate | ].
    cbn [map]. change (embedding ex :: map embedding exs)
      with (map embedding (ex :: exs)).
    rewrite Hall; [reflexivity | ].
    intros v Hv. apply Z.eqb_eq. rewrite Hv.
    symmetry. now apply (Forall_inv Hdim). }
  rewrite Ev. cbn [bind]. unfold index_add. cbn [d rows app].
  replace (forallb _ (map normalize_L2 (map embedding examples))) with true;
    [cbn [bind]; eauto | ].
  symmetry. apply forallb_forall. intros v Hv.
  apply in_map_iff in Hv as (w & <- & Hw). rewrite normalize_L2_dim.
  apply in_map_iff in Hw as (ex & <- & Hex). apply Z.eqb_eq.
  exact (proj1 (List.Forall_forall _ _) Hdim _ Hex).
Qed.

Lemma build_categories_returns (g : gmap string (gmap string (list IndexedExample)))
    (cats : list (string * string)) :
  forall self : SemanticIndex,
  (forall c, In c cats ->
     exists examples,
       entry g (fst c) (snd c) = Some examples
       /\ Forall (fun ex => vec_dim (embedding ex) = dimension self) examples) ->
  (forall c, In c cats ->
     is_Some (indices self !! fst c) /\ is_Some (indexed_examples self !! fst c)) ->
  exists self', build_categories g self cats = Ok self'.
Proof.
  induction cats as [ | [q l] cats IH]; intros self Hg Hk; [now exists self | ].
  cbn [build_categories].
  destruct (Hg (q, l) (or_introl eq_refl)) as (examples & Eg & Hdim).
  destruct (Hk (q, l) (or_introl eq_refl)) as [Hi He].
  destruct (build_category_returns g self q l examples Eg Hdim Hi He) as [s1 E1].
  rewrite E1. cbn [bind].
  destruct (build_category_spec _ _ _ _ _ E1) as (_ & _ & Hd1 & Hi1 & He1 & _).
  apply IH.
  - intros c Hc. rewrite Hd1. apply Hg. now right.
  - intros c Hc. rewrite Hi1, He1. apply Hk. now right.
Qed.

(** X18.  When every zipped pattern has a known question type and level
    and every zipped embedding has the dimension of the index,
    [build_index] on a fresh index returns: it raises nothing.  (FAISS
    is only asked to keep the length of a vector that it normalises.) *)
Theorem build_index_returns (dim : Z)
    (patterns : list PatternExtractor.ReasoningPattern) (embeddings : list vec) :
  forallb known (examples_from patterns embeddings) = true ->
  Forall (fun ex => vec_dim (embedding ex) = dim) (examples_from patterns embeddings) ->
  exists self, build_index (init dim) patterns embeddings = Ok self.
Proof.
  intros Hknown Hdim. unfold build_index.
  destruct (group_all_spec patterns embeddings empty_groups shape_empty_groups)
    as [Hok _].
  destruct (Hok Hknown) as (g & -> & Hg). cbn [bind].
  assert (Hcat : forall c, In c categories -> known_category (fst c) (snd c) = true).
  { intros [q l] Hc. apply covers_In in Hc. now rewrite covers_categories in Hc. }
  apply build_categories_returns.
  - intros [q l] Hc. specialize (Hcat _ Hc). cbn [fst snd] in *.
    rewrite Hg, entry_empty_groups, Hcat. eexists. split; [reflexivity | ].
    cbn [app dimension init]. apply List.Forall_forall. intros ex Hex.
    apply List.filter_In in Hex as [Hex _].
    exact (proj1 (List.Forall_forall _ _) Hdim _ Hex).
  - intros [q l] Hc. specialize (Hcat _ Hc). cbn [fst snd] in *.
    split.
    + rewrite outer_init, (known_outer q l Hcat). eauto.
    + apply (entry_outer _ q l). apply shape_empty_groups. exact Hcat.
Qed.

End BuildReturns.

Lemma build_index_returns_witness :
  exists self, build_index (init 2) toy_patterns toy_embeddings = Ok self.
Proof.
  apply (build_index_returns (L := insertion_order_laws) 2 toy_patterns toy_embeddings).
  - vm_compute. reflexivity.
  - repeat constructor.
Defined.

Lemma build_index_files_by_category_witness :
  dimension toy_index = 2
  /\ forall q_type lvl,
       stored toy_index q_type lvl
         = List.filter (in_category q_type lvl) (examples_from toy_patterns toy_embeddings)
       /\ index_of toy_index q_type lvl
            = if len (stored toy_index q_type lvl) =? 0 then None
              else Some (index_for 2 (stored toy_index q_type lvl)).
Proof.
  apply (build_index_files_by_category (F := insertion_order_faiss) 2
           toy_patterns toy_embeddings toy_index).
  vm_compute. reflexivity.
Defined.


(** ** The embedding cache, beyond the validation *)

Section CacheInvariants.

Context `{O : FileSystem}.

Variable encode : list string -> ndarray.

Lemma compute_embeddings_result (self self' : state) (a : ndarray) :
  _compute_embeddings encode self = Ok (a, self') ->
  shape0 a = Ok (Z.of_nat (length (training_data self)))
  /\ arr_dtype a = DFloat32
  /\ cache_file self' = Some (CArray a)
  /\ training_data self' = training_data self.
Proof.
  unfold _compute_embeddings.
  set (e := if ndim (as_float32 _) =? 1 then _ else _).
  assert (Hd : arr_dtype e = DFloat32) by (unfold e; now destruct (_ =? 1)).
  destruct (shape0 e) as [n | ] eqn:Es; cbn [bind]; [ | discriminate].
  destruct (n =? Z.of_nat (length (map fst (training_data self)))) eqn:En;
    cbn [negb]; [ | discriminate].
  rewrite Hd. cbn [dtype_eqb orb negb].
  destruct (makedirs _) as [[] | ]; cbn [bind]; [ | discriminate].
  destruct (dump _ _) as [[] | ]; cbn [bind]; [ | discriminate].
  intros [= <- <-].
  apply Z.eqb_eq in En. rewrite length_map in En. subst n.
  repeat split; assumption.
Qed.

(** The two ways in which [_load_or_compute_embeddings] returns: the
    cached array is accepted, or the embeddings are computed. *)
Lemma load_or_compute_cases (self self' : state) (a : ndarray) :
  _load_or_compute_embeddings encode self = Ok (a, self') ->
  (cache_file self = Some (CArray a) /\ self' = self
   /\ dtype_eqb (arr_dtype a) DObject = false
   /\ ndim a = 2
   /\ hd (-1) (shape a) = Z.of_nat (length (training_data self)))
  \/ exists s, training_data s = training_data self
       /\ _compute_embeddings encode s = Ok (a, self').
Proof.
  unfold _load_or_compute_embeddings.
  destruct (cache_file self) as [[cached | v | ] | ] eqn:Ef;
    try (intros H; right; eexists; split; [ | exact H]; reflexivity).
  destruct (dtype_eqb (arr_dtype cached) DObject) eqn:Ed;
    [intros H; right; eexists; split; [ | exact H]; reflexivity | ].
  destruct (ndim cached =? 2) eqn:E2; cbn [andb].
  - destruct (hd (-1) (shape cached) =? _) eqn:Eh.
    + intros [= <- <-]. left. apply Z.eqb_eq in Eh, E2. auto.
    + destruct (ndim cached =? 1);
        intros H; right; eexists; (split; [ | exact H]); reflexivity.
  - destruct (ndim cached =? 1);
      intros H; right; eexists; (split; [ | exact H]); reflexivity.
Qed.

(** X19.  Whatever the cache file held, an array that
    [_load_or_compute_embeddings] returns has one row for each training
    example and is not an array of objects; it is what the cache file
    holds afterwards, and the training data are unchanged. *)
Theorem load_or_compute_invariant (self self' : state) (a : ndarray) :
  _load_or_compute_embeddings encode self = Ok (a, self') ->
  shape0 a = Ok (Z.of_nat (length (training_data self)))
  /\ arr_dtype a <> DObject
  /\ cache_file self' = Some (CArray a)
  /\ training_data self' = training_data self.
Proof.
  intros H.
  destruct (load_or_compute_cases _ _ _ H)
    as [(Hf & -> & Hd & Hn & Hh) | (s & Hs & Hc)].
  - repeat split; try assumption.
    + unfold shape0. unfold ndim in Hn.
      destruct (shape a) as [ | n ns]; [discriminate | ].
      cbn [hd] in Hh. now rewrite Hh.
    + intros Ho. now rewrite Ho in Hd.
  - apply compute_embeddings_result in Hc as (H1 & H2 & H3 & H4).
    rewrite Hs in *. repeat split; try assumption. now rewrite H2.
Qed.

(** X20.  A two-dimensional array that [_load_or_compute_embeddings]
    returns is served from the cache the next time: the second call
    returns the same array and leaves the cache as it is, whatever the
    encoder would answer. *)
Theorem load_or_compute_stable (encode' : list string -> ndarray)
    (self self' : state) (a : ndarray) :
  _load_or_compute_embeddings encode self = Ok (a, self') ->
  ndim a = 2 ->
  _load_or_compute_embeddings encode' self' = Ok (a, self').
Proof.
  intros H Hn.
  assert (Hacc : cache_file self' = Some (CArray a)
                 /\ dtype_eqb (arr_dtype a) DObject = false
                 /\ hd (-1) (shape a) = Z.of_nat (length (training_data self'))).
  { destruct (load_or_compute_cases _ _ _ H)
      as [(Hf & -> & Hd & _ & Hh) | (s & Hs & Hc)]; [auto | ].
    apply compute_embeddings_result in Hc as (H1 & H2 & H3 & H4).
    split; [exact H3 | ]. split; [now rewrite H2 | ].
    rewrite H4. unfold shape0 in H1.
    destruct (shape a) as [ | n ns]; [discriminate | ]. now injection H1 as ->. }
  destruct Hacc as (Hf & Hd & Hh).
  unfold _load_or_compute_embeddings. rewrite Hf, Hd, Hn, Hh.
  cbn [Z.eqb Pos.eqb andb]. now rewrite Z.eqb_refl.
Qed.

End CacheInvariants.

Lemma load_or_compute_invariant_witness :
  shape0 {| arr_dtype := DFloat32; shape := [2; 3]; cells := [] |} = Ok 2
  /\ DFloat32 <> DObject.
Proof.
  destruct (load_or_compute_invariant three_columns
              {| training_data := two_questions; cache_path := sample_path;
                 cache_file := Some stale_cache |}
              {| training_data := two_questions; cache_path := sample_path;
                 cache_file :=
                   Some (CArray {| arr_dtype := DFloat32; shape := [2; 3]; cells := [] |}) |}
              {| arr_dtype := DFloat32; shape := [2; 3]; cells := [] |})
    as (H1 & H2 & _).
  - vm_compute. reflexivity.
  - split; [exact H1 | exact H2].
Defined.

Lemma load_or_compute_stable_witness :
  _load_or_compute_embeddings (fun _ => {| arr_dtype := DOther; shape := []; cells := [] |})
    {| training_data := two_questions; cache_path := sample_path;
       cache_file :=
         Some (CArray {| arr_dtype := DFloat32; shape := [2; 3]; cells := [] |}) |}
  = Ok ({| arr_dtype := DFloat32; shape := [2; 3]; cells := [] |},
        {| training_data := two_questions; cache_path := sample_path;
           cache_file :=
             Some (CArray {| arr_dtype := DFloat32; shape := [2; 3]; cells := [] |}) |}).
Proof.
  apply (load_or_compute_stable three_columns _
           {| training_data := two_questions; cache_path := sample_path;
              cache_file := Some stale_cache |}).
  - vm_compute. reflexivity.
  - reflexivity.
Defined.

(** ** The answer extractors *)

Lemma append_cons (c : ascii) (a b : string) :
  (String c a ++ b)%string = String c (a ++ b)%string.
Proof. reflexivity. Qed.

Lemma append_nil (b : string) : ("" ++ b)%string = b.
Proof. reflexivity. Qed.

Lemma line_id (s : string) :
  ~ In PyRe.newline (list_ascii_of_string s) -> PyRe.line s = s.
Proof.
  induction s as [ | c s IH]; [reflexivity | ].
  cbn [list_ascii_of_string In PyRe.line]. intros H.
  destruct (Ascii.eqb_spec c PyRe.newline) as [-> | _]; [tauto | ].
  rewrite IH; [reflexivity | tauto].
Qed.

Lemma line_spec (s : string) (c : ascii) :
  In c (list_ascii_of_string (PyRe.line s)) ->
  c <> PyRe.newline /\ In c (list_ascii_of_string s).
Proof.
  induction s as [ | a s IH]; [intros [] | ].
  cbn [PyRe.line]. destruct (Ascii.eqb_spec a PyRe.newline) as [-> | Ha];
    [intros [] | ].
  intros [<- | H]; [split; [assumption | now left] | ].
  destruct (IH H). split; [assumption | now right].
Qed.

Lemma capture_spec (s g : string) (c : ascii) :
  PyRe.capture s = Some g ->
  In c (list_ascii_of_string g) ->
  c <> PyRe.newline /\ In c (list_ascii_of_string s).
Proof.
  destruct s as [ | a s]; [discriminate | ]. cbn [PyRe.capture].
  destruct (Ascii.eqb_spec a PyRe.newline) as [-> | Ha]; [discriminate | ].
  intros [= <-] [<- | H]; [split; [assumption | now left] | ].
  destruct (line_spec _ _ H). split; [assumption | now right].
Qed.

Lemma blanks_capture_spec (s g : string) (c : ascii) :
  PyRe.blanks_capture s = Some g ->
  In c (list_ascii_of_string g) ->
  c <> PyRe.newline /\ In c (list_ascii_of_string s).
Proof.
  revert g. induction s as [ | a s IH]; intros g; [discriminate | ].
  cbn [PyRe.blanks_capture].
  destruct (PyStr.isspace a); [ | apply capture_spec].
  destruct (PyRe.blanks_capture s) as [g' | ]; [ | apply capture_spec].
  intros [= <-] H. destruct (IH _ eq_refl H). split; [assumption | now right].
Qed.

Lemma literal_suffix (ignore_case : bool) (p s rest : string) (c : ascii) :
  PyRe.literal ignore_case p s = Some rest ->
  In c (list_ascii_of_string rest) -> In c (list_ascii_of_string s).
Proof.
  revert s. induction p as [ | a p IH]; intros s; cbn [PyRe.literal].
  { now intros [= <-]. }
  destruct s as [ | b s]; [discriminate | ].
  destruct (if ignore_case then _ else _); [ | discriminate].
  intros H Hc. right. eauto.
Qed.

Lemma search_spec (m : string -> option string) (s g : string) :
  PyRe.search m s = Some g ->
  exists t, m t = Some g
    /\ forall c, In c (list_ascii_of_string t) -> In c (list_ascii_of_string s).
Proof.
  induction s as [ | a s IH]; cbn [PyRe.search].
  - destruct (m "") eqn:E; [ | discriminate]. intros [= <-]. eauto.
  - destruct (m (String a s)) eqn:E.
    + intros [= <-]. eauto.
    + intros H. destruct (IH H) as (t & Ht & Hsub). exists t.
      split; [exact Ht | ]. intros c Hc. right. auto.
Qed.

Lemma search_hashes_skip (body rest : string) :
  ~ In "#"%char (list_ascii_of_string body) ->
  PyRe.search PyRe.hashes (body ++ rest)%string = PyRe.search PyRe.hashes rest.
Proof.
  induction body as [ | c body IH]; [reflexivity | ].
  cbn [list_ascii_of_string In]. intros H. rewrite append_cons.
  cbn [PyRe.search]. unfold PyRe.hashes at 1. cbn [PyRe.literal].
  destruct (Ascii.eqb_spec "#"%char c) as [<- | _]; [tauto | ].
  apply IH. tauto.
Qed.

Lemma strip_blank_cons (c : ascii) (s : string) :
  PyStr.isspace c = true -> PyStr.strip (String c s) = PyStr.strip s.
Proof. intros H. unfold PyStr.strip. cbn [PyStr.lstrip]. now rewrite H. Qed.

(** The group that follows the blanks of a text without a newline is
    the text itself, up to the blanks around it. *)
Lemma blanks_capture_strip (v : string) :
  ~ In PyRe.newline (list_ascii_of_string v) ->
  match PyRe.blanks_capture v with
  | Some g => PyStr.strip g = PyStr.strip v
  | None => PyStr.strip v = ""
  end.
Proof.
  induction v as [ | c v IH]; [reflexivity | ].
  cbn [list_ascii_of_string In]. intros H.
  assert (Hc : PyRe.capture (String c v) = Some (String c v)).
  { cbn [PyRe.capture].
    destruct (Ascii.eqb_spec c PyRe.newline) as [-> | _]; [tauto | ].
    rewrite line_id; [reflexivity | tauto]. }
  cbn [PyRe.blanks_capture].
  destruct (PyStr.isspace c) eqn:Ec; [ | now rewrite Hc].
  specialize (IH (fun H' => H (or_intror H'))).
  destruct (PyRe.blanks_capture v) as [g | ]; [ | now rewrite Hc].
  now rewrite strip_blank_cons.
Qed.

Lemma search_hashes_marker (body v : string) :
  ~ In "#"%char (list_ascii_of_string body) ->
  ~ In PyRe.newline (list_ascii_of_string v) ->
  exists g,
    PyRe.search PyRe.hashes (body ++ "#### " ++ v)%string = Some g
    /\ PyStr.strip g = PyStr.strip v.
Proof.
  intros Hb Hv. rewrite search_hashes_skip by exact Hb.
  rewrite !append_cons, append_nil.
  cbn [PyRe.search]. unfold PyRe.hashes at 1.
  cbn [PyRe.literal Ascii.eqb Bool.eqb PyRe.blanks_capture].
  change (PyStr.isspace " ") with true. cbv iota.
  pose proof (blanks_capture_strip v Hv) as H.
  destruct (PyRe.blanks_capture v) as [g | ].
  - exists g. now split.
  - eexists. split; [reflexivity | ]. cbn [PyRe.capture].
    change (Ascii.eqb " " PyRe.newline) with false. cbv iota.
    rewrite line_id by exact Hv. now rewrite strip_blank_cons.
Qed.

(** X21.  The loader reads the training format back: after a text
    without a hash sign, the marker of four hashes and a space, the rest
    of the line comes back without the blanks around it, whatever
    follows the marker on that line. *)
Theorem extract_final_answer_round_trip (body value : string) :
  ~ In "#"%char (list_ascii_of_string body) ->
  ~ In PyRe.newline (list_ascii_of_string value) ->
  Loader.extract_final_answer (body ++ "#### " ++ value)%string = PyStr.strip value.
Proof.
  intros Hb Hv. unfold Loader.extract_final_answer.
  destruct (search_hashes_marker body value Hb Hv) as (g & -> & Hg). exact Hg.
Qed.

Lemma extract_final_answer_round_trip_witness :
  Loader.extract_final_answer ("3 + 4 = <<3+4=7>>7 apples. " ++ "#### " ++ " 7 ")%string
  = PyStr.strip " 7 ".
Proof.
  apply (extract_final_answer_round_trip "3 + 4 = <<3+4=7>>7 apples. " " 7 ").
  - vm_compute. intuition discriminate.
  - vm_compute. intuition discriminate.
Defined.

Lemma clean_group_spec (g : string) (c : ascii) :
  In c (list_ascii_of_string (CoTSolver.clean_group g)) ->
  In c (list_ascii_of_string g)
  /\ c <> "*"%char /\ c <> "`"%char /\ c <> "["%char /\ c <> "]"%char.
Proof.
  unfold CoTSolver.clean_group. intros H.
  apply In_strip, filter_chars_spec in H as [Hkeep H]. apply In_strip in H.
  split; [exact H | ]. apply negb_true_iff in Hkeep.
  repeat split; intros ->; discriminate Hkeep.
Qed.

Lemma clean_group_strip (g v : string) :
  PyStr.strip g = PyStr.strip v -> CoTSolver.clean_group g = CoTSolver.clean_group v.
Proof. unfold CoTSolver.clean_group. now intros ->. Qed.

Lemma hashes_spec (t g : string) (c : ascii) :
  PyRe.hashes t = Some g ->
  In c (list_ascii_of_string g) ->
  c <> PyRe.newline /\ In c (list_ascii_of_string t).
Proof.
  unfold PyRe.hashes.
  destruct (PyRe.literal false "####" t) as [rest | ] eqn:El; [ | discriminate].
  intros Hg Hc. destruct (blanks_capture_spec _ _ _ Hg Hc) as [H1 H2].
  split; [exact H1 | ]. now apply (literal_suffix _ _ _ _ _ El).
Qed.

Lemma answer_word_spec (t g : string) (c : ascii) :
  CoTSolver.answer_word t = Some g ->
  In c (list_ascii_of_string g) ->
  c <> PyRe.newline /\ In c (list_ascii_of_string t).
Proof.
  unfold CoTSolver.answer_word.
  destruct (PyRe.literal true "answer" t) as [rest | ] eqn:El; [ | discriminate].
  intros Hg Hc.
  assert (H : c <> PyRe.newline /\ In c (list_ascii_of_string rest)).
  { unfold CoTSolver.colon_capture in Hg.
    destruct rest as [ | a rest]; [discriminate | ].
    destruct (Ascii.eqb_spec a ":") as [-> | Ha].
    - destruct (PyRe.blanks_capture rest) as [g' | ] eqn:Eb.
      + injection Hg as <-. destruct (blanks_capture_spec _ _ _ Eb Hc).
        split; [assumption | now right].
      + now apply (blanks_capture_spec _ _ _ Hg).
    - assert (Hg' : PyRe.blanks_capture (String a rest) = Some g).
      { destruct a as [[] [] [] [] [] [] [] []]; try exact Hg. now destruct Ha. }
      now apply (blanks_capture_spec _ _ _ Hg'). }
  destruct H as [H1 H2]. split; [exact H1 | ].
  now apply (literal_suffix _ _ _ _ _ El).
Qed.

Lemma final_answer_word_spec (t g : string) (c : ascii) :
  CoTSolver.final_answer_word t = Some g ->
  In c (list_ascii_of_string g) ->
  c <> PyRe.newline /\ In c (list_ascii_of_string t).
Proof.
  unfold CoTSolver.final_answer_word.
  destruct (PyRe.literal true "final" t) as [rest | ] eqn:El;
    [ | apply answer_word_spec].
  destruct (PyRe.blanks1 rest) as [rest' | ] eqn:Eb; [ | apply answer_word_spec].
  destruct (CoTSolver.answer_word rest') as [g' | ] eqn:Ea; [ | apply answer_word_spec].
  intros [= <-] Hc. destruct (answer_word_spec _ _ _ Ea Hc) as [H1 H2].
  split; [exact H1 | ]. apply (literal_suffix _ _ _ _ _ El).
  unfold PyRe.blanks1 in Eb. destruct rest as [ | a rest]; [discriminate | ].
  destruct (PyStr.isspace a); [ | discriminate]. injection Eb as <-.
  now apply In_lstrip.
Qed.

(** X22.  An answer that [_extract_final_answer] finds is made of
    characters of one line of the trace: it holds no newline, and no
    asterisk, backquote or square bracket. *)
Theorem final_answer_one_line (trace answer : string) :
  CoTSolver._extract_final_answer trace = Some answer ->
  forall c, In c (list_ascii_of_string answer) ->
    In c (list_ascii_of_string trace)
    /\ c <> PyRe.newline
    /\ c <> "*"%char /\ c <> "`"%char /\ c <> "["%char /\ c <> "]"%char.
Proof.
  unfold CoTSolver._extract_final_answer. intros H c Hc.
  assert (Hg : exists m g,
            PyRe.search m trace = Some g /\ answer = CoTSolver.clean_group g
            /\ forall t, m t = Some g ->
                 In c (list_ascii_of_string g) ->
                 c <> PyRe.newline /\ In c (list_ascii_of_string t)).
  { destruct (PyRe.search PyRe.hashes trace) as [g | ] eqn:E1.
    - injection H as <-. exists PyRe.hashes, g.
      split; [exact E1 | split; [reflexivity | ]]. intros t. apply hashes_spec.
    - destruct (PyRe.search CoTSolver.final_answer_word trace) as [g | ] eqn:E2;
        [ | discriminate].
      injection H as <-. exists CoTSolver.final_answer_word, g.
      split; [exact E2 | split; [reflexivity | ]].
      intros t. apply final_answer_word_spec. }
  destruct Hg as (m & g & Hs & -> & Hm).
  apply clean_group_spec in Hc as (Hc & Hmd).
  destruct (search_spec _ _ _ Hs) as (t & Ht & Hsub).
  destruct (Hm t Ht Hc) as [Hn Hin]. auto.
Qed.

Lemma final_answer_one_line_witness :
  In "4"%char (list_ascii_of_string "So the final answer: **42**")
  /\ "4"%char <> PyRe.newline
  /\ "4"%char <> "*"%char /\ "4"%char <> "`"%char
  /\ "4"%char <> "["%char /\ "4"%char <> "]"%char.
Proof.
  apply (final_answer_one_line "So the final answer: **42**" "42").
  - vm_compute. reflexivity.
  - now left.
Defined.

(** X23.  The marker of four hashes has priority in a trace: after a
    text without a hash sign, the marker and a space, the answer is the
    rest of the line without its markdown characters and the blanks
    around it, whether or not the word [answer] occurs before. *)
Theorem final_answer_marker_first (body value : string) :
  ~ In "#"%char (list_ascii_of_string body) ->
  ~ In PyRe.newline (list_ascii_of_string value) ->
  CoTSolver._extract_final_answer (body ++ "#### " ++ value)%string
  = Some (CoTSolver.clean_group value).
Proof.
  intros Hb Hv. unfold CoTSolver._extract_final_answer.
  destruct (search_hashes_marker body value Hb Hv) as (g & -> & Hg).
  f_equal. now apply clean_group_strip.
Qed.

Lemma final_answer_marker_first_witness :
  CoTSolver._extract_final_answer
    ("The answer: 7 apples." ++ "#### " ++ "**[8]** ")%string
  = Some (CoTSolver.clean_group "**[8]** ").
Proof.
  apply (final_answer_marker_first "The answer: 7 apples." "**[8]** ").
  - vm_compute. intuition discriminate.
  - vm_compute. intuition discriminate.
Defined.

Lemma counter_get_count_of (c : list (string * Z)) (key : string) :
  CoTSolver.counter_get c key = count_of key c.
Proof.
  induction c as [ | [k n] c IH]; [reflexivity | ].
  cbn [CoTSolver.counter_get count_of]. now rewrite IH.
Qed.

Section SolverProperties.

Variable _generate_reasoning : nat -> result string.

Lemma sample_spec (n : nat) :
  forall (i : nat) (traces extracted : list string),
  let r := CoTSolver.sample _generate_reasoning i n traces extracted in
  (length (fst r) <= length traces + n)%nat
  /\ (length (snd r) + length traces <= length extracted + length (fst r))%nat
  /\ (Forall (fun a => a <> "") extracted -> Forall (fun a => a <> "") (snd r)).
Proof.
  induction n as [ | n IH]; intros i traces extracted; cbn [CoTSolver.sample].
  { cbn [fst snd]. repeat split; [lia | lia | auto]. }
  destruct (_generate_reasoning i) as [trace | e].
  - destruct (CoTSolver._extract_final_answer trace) as [answer | ].
    + destruct answer as [ | a answer]; cbn [PyStr.is_empty].
      * destruct (IH (S i) (traces ++ [trace])%list extracted) as (H1 & H2 & H3).
        rewrite length_app in *. cbn [length] in *.
        repeat split; [lia | lia | exact H3].
      * destruct (IH (S i) (traces ++ [trace])%list
                    (extracted ++ [String a answer])%list) as (H1 & H2 & H3).
        rewrite !length_app in *. cbn [length] in *.
        repeat split; [lia | lia | ].
        intros Hne. apply H3. apply Forall_app. split; [exact Hne | ].
        constructor; [discriminate | constructor].
    + destruct (IH (S i) (traces ++ [trace])%list extracted) as (H1 & H2 & H3).
      rewrite length_app in *. cbn [length] in *.
      repeat split; [lia | lia | exact H3].
  - destruct (IH (S i) traces extracted) as (H1 & H2 & H3).
    repeat split; [lia | lia | exact H3].
Qed.

(** The tally of [solve] over a non-empty list of answers: the first of
    the most frequent answers and its share. *)
Lemma tally_returns (l : list string) :
  l <> [] ->
  exists maj pre post,
    (let* top := first (most_common_1 (Counter l)) in
     let* confidence :=
       PyFloat.true_div (CoTSolver.counter_get (Counter l) (fst top)) (len l) in
     Ok (fst top, confidence))
    = Ok (maj, PyFloat.round_ratio false (occurrences maj l) (len l))
    /\ l = (pre ++ maj :: post)%list
    /\ (forall y, In y pre -> occurrences y l < occurrences maj l)
    /\ (forall y, In y l -> occurrences y l <= occurrences maj l).
Proof.
  intros Hne.
  destruct (most_common_spec l Hne) as (maj & pre & post & Hmc & E & Hpre & Hmax).
  assert (Hin : In maj l) by (rewrite E; apply in_elt).
  exists maj, pre, post. split; [ | auto].
  rewrite Hmc. cbn [first bind fst snd].
  rewrite counter_get_count_of, count_of_Counter.
  destruct (occurrences_bounds maj l) as [Hb Hpos]. specialize (Hpos Hin).
  now rewrite true_div_count by (unfold len; lia).
Qed.

(** X24.  [solve] always returns.  It keeps at most one trace for each
    sample and at most one answer, never empty, for each trace.  Without
    an answer the result is [None] with confidence [0.0]; otherwise the
    result is the answer that occurs most often, the first of them in
    case of a tie, and the confidence is its share of the answers. *)
Theorem solve_majority (self : CoTSolver.CoTSolver) :
  exists s,
    CoTSolver.solve _generate_reasoning self = Ok s
    /\ (length (CoTSolver.Solution.traces s) <= Z.to_nat (CoTSolver.num_samples self))%nat
    /\ (length (CoTSolver.Solution.extracted_answers s)
        <= length (CoTSolver.Solution.traces s))%nat
    /\ Forall (fun a => a <> "") (CoTSolver.Solution.extracted_answers s)
    /\ match CoTSolver.Solution.extracted_answers s with
       | [] =>
           CoTSolver.Solution.result s = VNone
           /\ CoTSolver.Solution.confidence s = VFloat PyFloat.f0_0
       | l =>
           exists maj pre post,
             CoTSolver.Solution.result s = VStr maj
             /\ CoTSolver.Solution.confidence s =
                  VFloat (PyFloat.round_ratio false (occurrences maj l) (len l))
             /\ l = (pre ++ maj :: post)%list
             /\ (forall y, In y pre -> occurrences y l < occurrences maj l)
             /\ (forall y, In y l -> occurrences y l <= occurrences maj l)
       end.
Proof.
  unfold CoTSolver.solve.
  destruct (sample_spec (Z.to_nat (CoTSolver.num_samples self)) 0 [] [])
    as (H1 & H2 & H3).
  destruct (CoTSolver.sample _ _ _ _ _) as [traces extracted].
  cbn [fst snd length] in *. specialize (H3 (List.Forall_nil _)).
  destruct extracted as [ | a l] eqn:El; cbn [is_nil].
  { eexists. split; [reflexivity | ]. cbn. repeat split; auto; lia. }
  rewrite <- El in *.
  assert (Hne : extracted <> []) by (rewrite El; discriminate).
  destruct (tally_returns extracted Hne) as (maj & pre & post & Ht & E & Hpre & Hmax).
  destruct (first (most_common_1 (Counter extracted))) as [top | ];
    cbn [bind] in Ht |- *; [ | discriminate].
  destruct (PyFloat.true_div _ _) as [c | ]; cbn [bind] in Ht |- *; [ | discriminate].
  injection Ht as Htop Hc. subst c. rewrite Htop.
  eexists. split; [reflexivity | ].
  cbn [CoTSolver.Solution.traces CoTSolver.Solution.extracted_answers
       CoTSolver.Solution.result CoTSolver.Solution.confidence].
  split; [lia | ]. split; [lia | ]. split; [exact H3 | ].
  rewrite El. rewrite <- El. exists maj, pre, post. auto.
Qed.


End SolverProperties.

(** ** The response parser *)

Lemma split_on_from_spec (sep : ascii) (s : string) :
  forall (cur piece : string) (c : ascii),
  ~ In sep (list_ascii_of_string cur) ->
  In piece (ResponseParser.split_on_from sep cur s) ->
  In c (list_ascii_of_string piece) ->
  c <> sep /\ (In c (list_ascii_of_string cur) \/ In c (list_ascii_of_string s)).
Proof.
  induction s as [ | a s IH]; intros cur piece c Hcur;
    cbn [ResponseParser.split_on_from].
  - intros [<- | []] Hc. split; [ | now left]. intros ->. contradiction.
  - destruct (Ascii.eqb_spec a sep) as [-> | Ha].
    + intros [<- | Hp] Hc.
      * split; [ | now left]. intros ->. contradiction.
      * destruct (IH "" piece c (fun H => H) Hp Hc) as [H1 [[] | H2]].
        split; [exact H1 | right; now right].
    + intros Hp Hc.
      destruct (IH (cur ++ String a "")%string piece c) as [H1 H2];
        [ | exact Hp | exact Hc | ].
      * rewrite chars_app. intros H. apply in_app_or in H as [H | [H | []]];
          [contradiction | congruence].
      * split; [exact H1 | ]. rewrite chars_app in H2.
        destruct H2 as [H2 | H2]; [ | right; now right].
        apply in_app_or in H2 as [H2 | [<- | []]]; [now left | right; now left].
Qed.

Lemma last_line_spec (lines : list string) (answer : string) :
  ResponseParser.last_line lines = Some answer ->
  exists line, In line lines /\ answer = PyStr.strip line.
Proof.
  induction lines as [ | line lines IH]; [discriminate | ].
  cbn [ResponseParser.last_line].
  destruct (_ && _ && _).
  - intros [= <-]. exists line. split; [now left | reflexivity].
  - intros H. destruct (IH H) as (l & Hl & ->). exists l. split; [now right | reflexivity].
Qed.

(** X26.  An answer that [extract_answer] returns lies on one line of
    the response: it holds no newline, and each of its characters occurs
    in the response. *)
Theorem extract_answer_one_line (response answer : string) :
  ResponseParser.extract_answer response = Some answer ->
  forall c, In c (list_ascii_of_string answer) ->
    c <> PyRe.newline /\ In c (list_ascii_of_string response).
Proof.
  unfold ResponseParser.extract_answer. intros H c Hc.
  destruct (PyRe.search ResponseParser.final_answer_marker response) as [g | ] eqn:Es.
  - injection H as <-. apply In_strip in Hc.
    destruct (search_spec _ _ _ Es) as (t & Ht & Hsub).
    unfold ResponseParser.final_answer_marker in Ht.
    destruct (PyRe.literal true "FINAL ANSWER:" t) as [rest | ] eqn:El; [ | discriminate].
    destruct (blanks_capture_spec _ _ _ Ht Hc) as [H1 H2].
    split; [exact H1 | ]. apply Hsub. now apply (literal_suffix _ _ _ _ _ El).
  - apply last_line_spec in H as (line & Hline & ->).
    apply In_strip in Hc. apply in_rev in Hline.
    destruct (split_on_from_spec PyRe.newline (PyStr.strip response) "" line c
                (fun H => H) Hline Hc) as [H1 [[] | H2]].
    split; [exact H1 | now apply In_strip].
Qed.

Lemma extract_answer_one_line_witness :
  "P"%char <> PyRe.newline
  /\ In "P"%char
       (list_ascii_of_string
          ("HOP 1: born in Paris" ++ String PyRe.newline "" ++ "final answer:  Paris ")).
Proof.
  apply (extract_answer_one_line
           ("HOP 1: born in Paris" ++ String PyRe.newline "" ++ "final answer:  Paris ")
           "Paris").
  - vm_compute. reflexivity.
  - now left.
Defined.

Lemma isspace_lower_char (c : ascii) :
  PyStr.isspace (PyStr.lower_char c) = PyStr.isspace c.
Proof. destruct c as [[] [] [] [] [] [] [] []]; reflexivity. Qed.

Lemma rstrip_nonblank (c : ascii) (s : string) :
  PyStr.isspace c = false -> PyStr.rstrip (String c s) <> "".
Proof.
  intros Hc. cbn [PyStr.rstrip].
  destruct (PyStr.rstrip s); [now rewrite Hc | discriminate].
Qed.

Lemma strip_head (s : string) :
  match PyStr.strip s with
  | EmptyString => True
  | String c _ => PyStr.isspace c = false
  end.
Proof.
  unfold PyStr.strip. induction s as [ | a s IH]; [exact I | ].
  cbn [PyStr.lstrip]. destruct (PyStr.isspace a) eqn:Ea; [exact IH | ].
  cbn [PyStr.rstrip]. destruct (PyStr.rstrip s); [now rewrite Ea | exact Ea].
Qed.

Lemma strip_lower_nonempty (x : string) :
  PyStr.strip x <> "" -> PyStr.strip (PyStr.lower (PyStr.strip x)) <> "".
Proof.
  pose proof (strip_head x) as Hh.
  destruct (PyStr.strip x) as [ | c r]; [congruence | ]. intros _.
  cbn [PyStr.lower]. unfold PyStr.strip at 1. cbn [PyStr.lstrip].
  rewrite isspace_lower_char, Hh. apply rstrip_nonblank.
  now rewrite isspace_lower_char.
Qed.

Lemma extract_answer_stripped (response answer : string) :
  ResponseParser.extract_answer response = Some answer ->
  exists x, answer = PyStr.strip x.
Proof.
  unfold ResponseParser.extract_answer.
  destruct (PyRe.search _ response) as [g | ].
  - intros [= <-]. eauto.
  - intros H. apply last_line_spec in H as (line & _ & ->). eauto.
Qed.

Lemma normalized_answers_nonempty (responses : list string) :
  Forall (fun a => a <> "") (ResponseParser.normalized_answers responses).
Proof.
  induction responses as [ | r rs IH]; [constructor | ].
  cbn [ResponseParser.normalized_answers].
  destruct (ResponseParser.extract_answer r) as [answer | ] eqn:E; [ | exact IH].
  destruct (extract_answer_stripped _ _ E) as [x Hx].
  destruct (PyStr.is_empty answer) eqn:Ee; [exact IH | ].
  constructor; [ | exact IH].
  rewrite Hx. apply strip_lower_nonempty. rewrite <- Hx.
  intros ->. discriminate Ee.
Qed.

(** X27.  [majority_vote] always returns.  It returns the empty string
    exactly when no response yields a non-empty answer; otherwise it
    returns the normalised answer that occurs most often, the first of
    them in case of a tie. *)
Theorem majority_vote_spec (responses : list string) :
  exists w,
    ResponseParser.majority_vote responses = Ok w
    /\ (w = "" <-> ResponseParser.normalized_answers responses = [])
    /\ (ResponseParser.normalized_answers responses <> [] ->
        exists pre post,
          ResponseParser.normalized_answers responses = (pre ++ w :: post)%list
          /\ (forall y, In y pre ->
                occurrences y (ResponseParser.normalized_answers responses)
                < occurrences w (ResponseParser.normalized_answers responses))
          /\ (forall y, In y (ResponseParser.normalized_answers responses) ->
                occurrences y (ResponseParser.normalized_answers responses)
                <= occurrences w (ResponseParser.normalized_answers responses))).
Proof.
  unfold ResponseParser.majority_vote.
  pose proof (normalized_answers_nonempty responses) as Hne.
  destruct (ResponseParser.normalized_answers responses) as [ | a l] eqn:El;
    cbn [is_nil].
  { exists "". split; [reflexivity | ]. split; [tauto | congruence]. }
  rewrite <- El in *.
  assert (Hnil : ResponseParser.normalized_answers responses <> [])
    by (rewrite El; discriminate).
  destruct (most_common_spec _ Hnil) as (maj & pre & post & Hmc & E & Hpre & Hmax).
  rewrite Hmc. cbn [first bind fst]. exists maj.
  split; [reflexivity | ]. split.
  - split; [ | intros H; now rewrite H in Hnil].
    intros ->. exfalso.
    assert (Hin : In "" (ResponseParser.normalized_answers responses))
      by (rewrite E; apply in_elt).
    exact (proj1 (List.Forall_forall _ _) Hne _ Hin eq_refl).
  - intros _. exists pre, post. auto.
Qed.

(** ** The loop of the math solver *)

(** X28.  The statistics of [main.py] follow the verifier from one side
    only: a question counted under [both_agree] is decided by the
    verifier's [both_agree], and a question that the verifier decides by
    [fallback] is counted under [both_fail]; a question counted under
    [both_fail] is decided by [fallback] or by [cot_only]. *)
Theorem process_question_statistics (verifier : Verifier) (stats stats' : Main.Stats)
    (pal_result cot_result : gmap string value) (question : string)
    (verified : Reconciliation) (final : string) :
  Main.process_question verifier stats pal_result cot_result question
    = Ok (stats', verified, final) ->
  verify verifier pal_result cot_result question = Ok verified
  /\ normalize_answer (final_answer verified) question = Ok final
  /\ (Main.both_agree stats' = Main.both_agree stats + 1 ->
      method verified = "both_agree")
  /\ (method verified = "fallback" ->
      Main.both_fail stats' = Main.both_fail stats + 1)
  /\ (Main.both_fail stats' = Main.both_fail stats + 1 ->
      method verified = "fallback" \/ method verified = "cot_only").
Proof.
  unfold Main.process_question, Main.getitem.
  assert (Hsucc : truthy (get pal_result "success" VNone)
                  = truthy (get pal_result "success" (VBool false))).
  { unfold get. now destruct (pal_result !! "success"). }
  rewrite Hsucc.
  assert (Hres : get cot_result "result" VNone
                 = default VNone (cot_result !! "result")) by reflexivity.
  assert (Hpal : get pal_result "result" VNone
                 = default VNone (pal_result !! "result")) by reflexivity.
  unfold verify. rewrite Hres, Hpal.
  destruct (truthy (get pal_result "success" (VBool false))) eqn:Ep;
    destruct (cot_result !! "result") as [c | ] eqn:Ec;
    cbn [default from_option Datatypes.id andb negb bind].
  - (* PAL succeeded, a CoT result *)
    destruct (truthy c) eqn:Et; cbn [andb negb bind].
    + destruct (Main.format_percent _) as [[] | ]; cbn [bind]; [ | discriminate].
      destruct (pal_result !! "result") as [p | ] eqn:Epr; cbn [bind];
        [ | discriminate].
      cbn [default from_option Datatypes.id].
      assert (Hnone : is_none c = false) by (destruct c; try reflexivity; discriminate).
      rewrite Hnone. cbn [negb andb].
      destruct (String.eqb (PyStr.lower (PyStr.strip (str p)))
                  (PyStr.lower (PyStr.strip (str c)))) eqn:Eagree; cbn [bind].
      * apply String.eqb_eq in Eagree. unfold _normalize_answer.
        rewrite Eagree, String.eqb_refl. cbn [bind].
        destruct (normalize_answer _ question) as [f | ] eqn:En; cbn [bind];
          [ | discriminate].
        intros [= <- <- <-]. cbn. repeat split; auto; try discriminate; lia.
      * match goal with
        | |- bind ?v _ = _ -> _ => destruct v as [r | ] eqn:Ev
        end; cbn [bind]; [ | discriminate].
        destruct (normalize_answer _ question) as [f | ] eqn:En; cbn [bind];
          [ | discriminate].
        intros [= <- <- <-]. cbn. split; [reflexivity | ]. split; [exact En | ].
        repeat split; try lia.
        revert Ev.
        repeat match goal with
          | |- context [bind ?x _] => destruct x as [[] | ]; cbn [bind]
          | |- context [if ?b then _ else _] => destruct b
          end; intros [= <-]; cbn; discriminate.
    + destruct (is_none c) eqn:Hnone; cbn [negb andb bind].
      * destruct (normalize_answer _ question) as [f | ] eqn:En; cbn [bind];
          [ | discriminate].
        intros [= <- <- <-]. cbn. repeat split; auto; try discriminate; lia.
      * match goal with
        | |- bind ?v _ = _ -> _ => destruct v as [r | ] eqn:Ev
        end; cbn [bind]; [ | discriminate].
        destruct (normalize_answer _ question) as [f | ] eqn:En; cbn [bind];
          [ | discriminate].
        intros [= <- <- <-]. cbn. split; [reflexivity | ]. split; [exact En | ].
        repeat split; try lia.
        revert Ev.
        repeat match goal with
          | |- context [bind ?x _] => destruct x as [[] | ]; cbn [bind]
          | |- context [if ?b then _ else _] => destruct b
          end; intros [= <-]; cbn; discriminate.
  - (* PAL succeeded, no CoT result *)
    cbn [truthy is_none negb andb bind].
    destruct (normalize_answer _ question) as [f | ] eqn:En; cbn [bind];
      [ | discriminate].
    intros [= <- <- <-]. cbn. repeat split; auto; try discriminate; lia.
  - (* PAL failed, a CoT result *)
    destruct (truthy c) eqn:Et; cbn [andb negb bind].
    + destruct (Main.format_percent _) as [[] | ]; cbn [bind]; [ | discriminate].
      assert (Hnone : is_none c = false) by (destruct c; try reflexivity; discriminate).
      rewrite Hnone. cbn [negb].
      destruct (max2 _ _) as [m | ]; cbn [bind]; [ | discriminate].
      destruct (normalize_answer _ question) as [f | ] eqn:En; cbn [bind];
        [ | discriminate].
      intros [= <- <- <-]. cbn. repeat split; auto; try discriminate; lia.
    + destruct (is_none c) eqn:Hnone; cbn [negb bind].
      * destruct (normalize_answer _ question) as [f | ] eqn:En; cbn [bind];
          [ | discriminate].
        intros [= <- <- <-]. cbn. repeat split; auto; try discriminate; lia.
      * destruct (max2 _ _) as [m | ]; cbn [bind]; [ | discriminate].
        destruct (normalize_answer _ question) as [f | ] eqn:En; cbn [bind];
          [ | discriminate].
        intros [= <- <- <-]. cbn. repeat split; auto; try discriminate; lia.
  - (* both failed *)
    cbn [truthy is_none negb andb bind].
    destruct (normalize_answer _ question) as [f | ] eqn:En; cbn [bind];
      [ | discriminate].
    intros [= <- <- <-]. cbn. repeat split; auto; try discriminate; lia.
Qed.

Lemma process_question_statistics_witness :
  Main.both_fail
    {| Main.pal_success := 0; Main.cot_success := 0;
       Main.both_agree := 0; Main.both_fail := 1 |} = 0 + 1.
Proof.
  destruct (process_question_statistics default_verifier
              {| Main.pal_success := 0; Main.cot_success := 0;
                 Main.both_agree := 0; Main.both_fail := 0 |}
              {| Main.pal_success := 0; Main.cot_success := 0;
                 Main.both_agree := 0; Main.both_fail := 1 |}
              failed_pal failed_cot "How many apples?"
              {| final_answer := "0"; method := "fallback";
                 confidence := VFloat PyFloat.f0_0 |} "0")
    as (_ & _ & _ & H & _).
  - vm_compute. reflexivity.
  - apply H. reflexivity.
Defined.

(** X29.  A question on which both solvers fail is answered [0], or
    [0.00] when the question is about money and does not ask how many;
    it is counted under [both_fail] only. *)
Theorem process_question_both_failed (verifier : Verifier) (stats : Main.Stats)
    (pal_result cot_result : gmap string value) (question : string) :
  pal_succeeded pal_result = false ->
  answer_of cot_result = VNone ->
  Main.process_question verifier stats pal_result cot_result question
  = Ok ({| Main.pal_success := Main.pal_success stats;
           Main.cot_success := Main.cot_success stats;
           Main.both_agree := Main.both_agree stats;
           Main.both_fail := Main.both_fail stats + 1 |},
        {| final_answer := "0"; method := "fallback";
           confidence := VFloat PyFloat.f0_0 |},
        if PyStr.contains "how many" (PyStr.lower question) then "0"
        else if is_currency_question question then "0.00"
        else "0").
Proof.
  unfold pal_succeeded, answer_of. intros Hp Hc.
  assert (Hsucc : truthy (get pal_result "success" VNone) = false).
  { unfold get in *. now destruct (pal_result !! "success"). }
  unfold Main.process_question, verify. rewrite Hsucc, Hp, Hc.
  cbn [truthy is_none negb andb bind final_answer].
  rewrite (normalize_answer_number "0" question (NInt 0) 0 "0.00");
    [ | vm_compute; reflexivity | reflexivity | vm_compute; reflexivity ].
  cbn [bind]. reflexivity.
Qed.

Lemma process_question_both_failed_witness :
  Main.process_question default_verifier
    {| Main.pal_success := 3; Main.cot_success := 2;
       Main.both_agree := 1; Main.both_fail := 0 |}
    failed_pal failed_cot "What is the total cost?"
  = Ok ({| Main.pal_success := 3; Main.cot_success := 2;
           Main.both_agree := 1; Main.both_fail := 0 + 1 |},
        {| final_answer := "0"; method := "fallback";
           confidence := VFloat PyFloat.f0_0 |},
        if PyStr.contains "how many" (PyStr.lower "What is the total cost?") then "0"
        else if is_currency_question "What is the total cost?" then "0.00"
        else "0").
Proof.
  apply (process_question_both_failed default_verifier
           {| Main.pal_success := 3; Main.cot_success := 2;
              Main.both_agree := 1; Main.both_fail := 0 |}
           failed_pal failed_cot "What is the total cost?");
    vm_compute; reflexivity.
Defined.

(** ** The retrieval of examples *)

Lemma In_drop {A : Type} (n : nat) (l : list A) (x : A) :
  In x (drop n l) -> In x l.
Proof.
  revert l. induction n as [ | n IH]; intros l; [now rewrite drop_0 | ].
  destruct l as [ | a l]; [intros [] | ]. cbn [drop]. intros H. right. auto.
Qed.

Lemma slice_from_spec {A : Type} (l : list A) (k : Z) :
  (forall x, In x (Retrieval.slice_from l (- k)) -> In x l)
  /\ len (Retrieval.slice_from l (- k))
     = if k =? 0 then len l
       else if 0 <? k then Z.min k (len l)
       else Z.max (len l + k) 0.
Proof.
  unfold Retrieval.slice_from. split; [intros x; apply In_drop | ].
  unfold len. rewrite length_drop.
  destruct (Z.eqb_spec k 0) as [-> | Hk];
    [change (- 0 <? 0) with false; cbv iota; lia | ].
  destruct (Z.ltb_spec 0 k) as [Hpos | Hneg].
  - replace (- k <? 0) with true by (symmetry; apply Z.ltb_lt; lia). lia.
  - replace (- k <? 0) with false by (symmetry; apply Z.ltb_ge; lia). lia.
Qed.

Lemma format_examples_spec (training_data : list (string * string))
    (indices : list Z) :
  Forall (fun i => - len training_data <= i < len training_data) indices ->
  exists examples,
    Retrieval.format_examples training_data indices = Ok examples
    /\ length examples = length indices
    /\ forall e, In e examples ->
         exists q a, In (q, a) training_data
           /\ e = ("Question: " ++ q ++ String PyRe.newline "" ++ "Answer: " ++ a)%string.
Proof.
  induction 1 as [ | i indices Hi _ (examples & IH & Hlen & Hex)].
  - exists []. repeat split. intros e [].
  - cbn [Retrieval.format_examples].
    destruct (getitem_cases training_data i) as [Hok _].
    destruct (Hok Hi) as ([q a] & -> & Hlook). cbn [bind]. rewrite IH. cbn [bind].
    eexists. split; [reflexivity | ]. split; [cbn [length]; lia | ].
    intros e [<- | He]; [ | auto].
    exists q, a. split; [ | reflexivity].
    apply list_elem_of_In. now apply list_elem_of_lookup_2 in Hlook.
Qed.

Section RetrieveProperties.

Context `{O : FileSystem}.

Variable encode : list string -> ndarray.
Variable cosine_similarity : ndarray -> ndarray -> result (list (list float)).
Variable argsort : list float -> list Z.

(** X30.  When the stored embeddings are not objects, the similarities
    are computed and the ranking names positions of the training data,
    [retrieve] returns formatted training pairs and leaves the retriever
    as it is.  For [k > 0] it returns [min k n] examples for a ranking of
    length [n]; for [k = 0] it returns all [n] of them, not none: the
    slice of the last [k] positions is the whole ranking then. *)
Theorem retrieve_count (self : Retrieval.Retriever) (question : string) (k : Z)
    (similarities : list float) (others : list (list float)) :
  arr_dtype (Retrieval.embeddings self) <> DObject ->
  (forall query, cosine_similarity query (Retrieval.embeddings self)
                 = Ok (similarities :: others)) ->
  Forall (fun i => - len (training_data (Retrieval.files self)) <= i
                   < len (training_data (Retrieval.files self)))
    (argsort similarities) ->
  exists examples,
    Retrieval.retrieve encode cosine_similarity argsort self question k
      = Ok (examples, self)
    /\ len examples
       = (if k =? 0 then len (argsort similarities)
          else if 0 <? k then Z.min k (len (argsort similarities))
          else Z.max (len (argsort similarities) + k) 0)
    /\ forall e, In e examples ->
         exists q a, In (q, a) (training_data (Retrieval.files self))
           /\ e = ("Question: " ++ q ++ String PyRe.newline "" ++ "Answer: " ++ a)%string.
Proof.
  intros Hd Hcos Hrank. unfold Retrieval.retrieve.
  replace (dtype_eqb (arr_dtype (Retrieval.embeddings self)) DObject) with false
    by (destruct (arr_dtype (Retrieval.embeddings self)); try reflexivity;
        now destruct Hd).
  cbn [bind]. rewrite Hcos. cbn [bind].
  change (getitem (similarities :: others) 0) with (Ok similarities).
  cbn [bind fst snd].
  destruct (slice_from_spec (argsort similarities) k) as [Hsub Hlen].
  destruct (format_examples_spec (training_data (Retrieval.files self))
              (rev (Retrieval.slice_from (argsort similarities) (- k))))
    as (examples & -> & Hn & Hex).
  { apply List.Forall_forall. intros i Hi. apply in_rev in Hi.
    exact (proj1 (List.Forall_forall _ _) Hrank _ (Hsub _ Hi)). }
  cbn [bind]. exists examples. split; [reflexivity | ]. split; [ | exact Hex].
  rewrite <- Hlen. unfold len. now rewrite Hn, length_rev.
Qed.

End RetrieveProperties.

Lemma retrieve_count_witness :
  exists examples,
    Retrieval.retrieve three_columns (fun _ _ => Ok [[PyFloat.f0_6; PyFloat.f0_7]])
      (fun _ => [0; 1])
      {| Retrieval.files :=
           {| training_data := two_questions; cache_path := sample_path;
              cache_file := None |};
         Retrieval.embeddings :=
           {| arr_dtype := DFloat32; shape := [2; 3]; cells := [] |} |}
      "What is 3 + 3?" 0
    = Ok (examples,
          {| Retrieval.files :=
               {| training_data := two_questions; cache_path := sample_path;
                  cache_file := None |};
             Retrieval.embeddings :=
               {| arr_dtype := DFloat32; shape := [2; 3]; cells := [] |} |})
    /\ len examples = 2.
Proof.
  destruct (retrieve_count three_columns (fun _ _ => Ok [[PyFloat.f0_6; PyFloat.f0_7]])
              (fun _ => [0; 1])
              {| Retrieval.files :=
                   {| training_data := two_questions; cache_path := sample_path;
                      cache_file := None |};
                 Retrieval.embeddings :=
                   {| arr_dtype := DFloat32; shape := [2; 3]; cells := [] |} |}
              "What is 3 + 3?" 0 [PyFloat.f0_6; PyFloat.f0_7] [])
    as (examples & H1 & H2 & _).
  - cbn. discriminate.
  - intros query. reflexivity.
  - repeat constructor; vm_compute; congruence.
  - exists examples. split; [exact H1 | exact H2].
Defined.
